(** * Orchestrator core: state store, Lamport clock, round-robin dispatcher,
      client endpoint and replication snapshots

    A shallow embedding of the Python orchestrator
    ([orchestrator/state_manager.py], [orchestrator/lamport_clock.py],
    [orchestrator/load_balancer.py], [orchestrator/main.py],
    [shared/models.py], [config.py]) and of the messages of its workers
    ([worker/main.py]).  One Rocq module per source file.

    Conventions.
    - Python [int] is [Z]; Python [float] ([time.time()]) is a binary64
      primitive float, with the IEEE subtraction and comparison the interpreter
      uses; Python [str] is [string].
    - A Python [dict] keeps insertion order and has unique keys: it is an
      association list handled only through [dict_get], [dict_set], [dict_del].
    - [Task] objects are mutable and shared by reference between the task
      table and whoever holds them (the dispatch loop): they live in an object
      store, the field [heap], and the task table maps ids to references.
    - The mutexes make every method atomic; a method is a function on the
      state, and the interleaving of the threads is a sequence of such steps. *)

From Stdlib Require Import ZArith List Floats Permutation Ascii.
From stdpp Require Import base tactics option list strings pretty sorting.
Import ListNotations.
Local Open Scope string_scope.
Set Warnings "-register-all".

(** ** Python values *)

(** The values [json.loads] builds: [None], [bool], [int], [float], [str],
    [list] and [dict] with string keys. *)
Inductive json : Type :=
| JNull
| JBool (b : bool)
| JInt (n : Z)
| JFloat (x : float)
| JStr (s : string)
| JList (xs : list json)
| JDict (kvs : list (string * json)).

(** The exceptions the modelled code can meet. *)
Inductive exn : Type :=
| JSONDecodeError
| UnicodeDecodeError
| KeyError
| TypeError
| AttributeError
| ValueError
| ConnectionRefusedError
| OSError
| RecursionError
| ConnectionResetError
| BrokenPipeError.

#[global] Instance exn_eq_dec : EqDecision exn.
Proof. solve_decision. Defined.

(** Insertion-ordered dictionaries with string keys. *)
Abbreviation dict V := (list (string * V)) (only parsing).

Fixpoint dict_get {V} (k : string) (d : dict V) : option V :=
  match d with
  | [] => None
  | (k', v) :: d' => if String.eqb k k' then Some v else dict_get k d'
  end.

(** [d[k] = v]: an existing key keeps its position, a new key goes last. *)
Fixpoint dict_set {V} (k : string) (v : V) (d : dict V) : dict V :=
  match d with
  | [] => [(k, v)]
  | (k', v') :: d' =>
      if String.eqb k k' then (k, v) :: d' else (k', v') :: dict_set k v d'
  end.

(** [del d[k]]. *)
Definition dict_del {V} (k : string) (d : dict V) : dict V :=
  List.filter (fun kv => negb (String.eqb k (fst kv))) d.

Definition dict_keys {V} (d : dict V) : list string := map fst d.

Definition dict_mem {V} (k : string) (d : dict V) : bool :=
  match dict_get k d with Some _ => true | None => false end.

(** What the interpreter and its standard library provide and the modelled
    code only calls: [hashlib.sha256(s.encode()).hexdigest()], the [repr] of
    a float, and [int] on a string. *)
Class Interpreter : Type := {
  sha256_hexdigest : string -> string;
  float_repr : float -> string;
  int_of_str : string -> option Z       (* [int(s)]; [None] is ValueError *)
}.

(** [json.dumps(v).encode('utf-8')] and [json.loads(b.decode('utf-8'))], the
    standard library's codec between values and byte strings. *)
Inductive decoded : Type :=
| Decoded (v : json)
| NotUtf8      (* [.decode] raises UnicodeDecodeError *)
| NotJson      (* [json.loads] raises JSONDecodeError *)
| TooDeep      (* [json.loads] raises RecursionError: nesting past the limit *)
| TooLong.     (* [json.loads] raises ValueError: an integer of too many digits *)

Class JsonCodec (bytes : Type) : Type := {
  json_dumps : json -> bytes;
  json_loads : bytes -> decoded
}.

(** The library's contract: a dumped value loads back as itself. *)
Class JsonRoundTrip (bytes : Type) `{JsonCodec bytes} : Prop :=
  loads_dumps : forall v : json, json_loads (json_dumps v) = Decoded v.

(** ** Exceptions and state: the monad of a method body *)

(** A body runs on a world [W]; it returns, raises, or meets a value whose
    Python type lies outside the annotations of the source ([Untyped]: the
    source stores such a value unchecked, the typed model does not follow the
    run any further). *)
Inductive outcome (A : Type) : Type :=
| Ret (a : A)
| Exc (e : exn)
| Untyped.
Arguments Ret {A} a.
Arguments Exc {A} e.
Arguments Untyped {A}.

Definition M (W A : Type) : Type := W -> W * outcome A.

#[global] Instance M_ret {W} : MRet (M W) := fun A a w => (w, Ret a).

#[global] Instance M_bind {W} : MBind (M W) := fun A B f c w =>
  match c w with
  | (w1, Ret a) => f a w1
  | (w1, Exc e) => (w1, Exc e)
  | (w1, Untyped) => (w1, Untyped)
  end.

Definition raise {W A} (e : exn) : M W A := fun w => (w, Exc e).

Definition untyped {W A} : M W A := fun w => (w, Untyped).

Definition modify {W} (f : W -> W) : M W unit := fun w => (f w, Ret tt).

Definition gets {W A} (f : W -> A) : M W A := fun w => (w, Ret (f w)).

(** [try: body  except (e1, ..., en): handler] *)
Definition try_except {W} (body : M W unit) (handled : list exn)
    (handler : M W unit) : M W unit :=
  fun w =>
    match body w with
    | (w1, Exc e) =>
        if existsb (fun h => bool_decide (h = e)) handled
        then handler w1 else (w1, Exc e)
    | r => r
    end.

(** A handler that only logs. *)
Definition log_only {W} : M W unit := mret tt.

(** A typed reading of a value: [None] is an ill-typed value. *)
Definition typed {W A} (o : option A) : M W A :=
  match o with Some a => mret a | None => untyped end.

(** A comprehension [[f(a) for a in l]] whose body may raise. *)
Fixpoint traverse {W A B} (f : A -> M W B) (l : list A) : M W (list B) :=
  match l with
  | [] => mret []
  | a :: l' => b ← f a; bs ← traverse f l'; mret (b :: bs)
  end.

(** [v[k]] for a string [k]: KeyError on a dict without the key, TypeError on
    anything that is not a dict. *)
Definition getitem {W} (v : json) (k : string) : M W json :=
  match v with
  | JDict kvs =>
      match dict_get k kvs with Some x => mret x | None => raise KeyError end
  | _ => raise TypeError
  end.

(** [v.items()]: AttributeError on anything that is not a dict. *)
Definition items {W} (v : json) : M W (list (string * json)) :=
  match v with
  | JDict kvs => mret kvs
  | _ => raise AttributeError
  end.

(** [json.loads(data.decode('utf-8'))] in a body. *)
Definition decode {W bytes} `{JsonCodec bytes} (data : bytes) : M W json :=
  match json_loads data with
  | Decoded v => mret v
  | NotUtf8 => raise UnicodeDecodeError
  | NotJson => raise JSONDecodeError
  | TooDeep => raise RecursionError
  | TooLong => raise ValueError
  end.

(** [v == s] for a string [s]: only a string equals a string. *)
Definition eq_str (v : json) (s : string) : bool :=
  match v with JStr s' => String.eqb s' s | _ => false end.

(** [sub in s] on strings. *)
Fixpoint substring_of (sub s : string) : bool :=
  String.prefix sub s ||
  match s with
  | EmptyString => false
  | String _ s' => substring_of sub s'
  end.

(** [s.split('_')[-1]]: what follows the last underscore, or all of [s]. *)
Fixpoint last_segment (s : string) : string :=
  match s with
  | EmptyString => EmptyString
  | String c s' =>
      if substring_of "_" s' then last_segment s'
      else if Ascii.eqb c "_"%char then s' else s
  end.

(** [str(v)] as an f-string renders it, for the values that can be dictionary
    keys; the text of a list or of a dict is not modelled. *)
Definition py_str `{Interpreter} (v : json) : option string :=
  match v with
  | JNull => Some "None"
  | JBool true => Some "True"
  | JBool false => Some "False"
  | JInt n => Some (pretty n)
  | JFloat x => Some (float_repr x)
  | JStr s => Some s
  | JList _ | JDict _ => None
  end.

(** [d.get(k)] and [d.get(k, default)] on a dict. *)
Definition get_or (k : string) (default : json) (d : dict json) : json :=
  match dict_get k d with Some v => v | None => default end.

(** ** shared/models.py *)
Module models.

Record Task : Type := mkTask {
  id : string;
  client_id : string;
  status : string;
  data : json;
  lamport_ts : Z;
  assigned_worker : option string;
  result : json
}.

(** The dataclass defaults: [status="PENDING"], [data={}], [lamport_ts=0],
    [assigned_worker=None], [result=None]. *)
Definition new_Task (i c : string) (d : json) (ts : Z) : Task :=
  mkTask i c "PENDING" d ts None JNull.

Definition set_status (s : string) (t : Task) : Task :=
  mkTask (id t) (client_id t) s (data t) (lamport_ts t) (assigned_worker t) (result t).

Definition set_assigned_worker (w : option string) (t : Task) : Task :=
  mkTask (id t) (client_id t) (status t) (data t) (lamport_ts t) w (result t).

Definition set_result (r : json) (t : Task) : Task :=
  mkTask (id t) (client_id t) (status t) (data t) (lamport_ts t) (assigned_worker t) r.

(** [task.__dict__]: the attributes in declaration order. *)
Definition to_dict (t : Task) : json :=
  JDict [ ("id", JStr (id t));
          ("client_id", JStr (client_id t));
          ("status", JStr (status t));
          ("data", data t);
          ("lamport_ts", JInt (lamport_ts t));
          ("assigned_worker",
            match assigned_worker t with Some w => JStr w | None => JNull end);
          ("result", result t) ].

Definition fields : list string :=
  [ "id"; "client_id"; "status"; "data"; "lamport_ts"; "assigned_worker"; "result" ].

(** The typed reading of each attribute; the dataclass checks no type. *)
Definition as_str (v : json) : option string :=
  match v with JStr s => Some s | _ => None end.

Definition as_int (v : json) : option Z :=
  match v with JInt n => Some n | _ => None end.

Definition as_opt_str (v : json) : option (option string) :=
  match v with JNull => Some None | JStr s => Some (Some s) | _ => None end.

(** A keyword argument with a default. *)
Definition kwarg {A} (k : string) (read : json -> option A) (default : A)
    (kw : dict json) : option A :=
  match dict_get k kw with Some v => read v | None => Some default end.

(** [Task( **t_data)]: TypeError when [t_data] is no mapping, has a key that
    is no field, or lacks [id] or [client_id]. *)
Definition Task_init {W} (t_data : json) : M W Task :=
  match t_data with
  | JDict kw =>
      if forallb (fun kv => existsb (String.eqb (fst kv)) fields) kw then
        match dict_get "id" kw, dict_get "client_id" kw with
        | Some i, Some c =>
            typed (i' ← as_str i;
                   c' ← as_str c;
                   s ← kwarg "status" as_str "PENDING" kw;
                   ts ← kwarg "lamport_ts" as_int 0%Z kw;
                   w ← kwarg "assigned_worker" as_opt_str None kw;
                   Some (mkTask i' c' s (get_or "data" (JDict []) kw) ts w
                                (get_or "result" JNull kw)))
        | _, _ => raise TypeError
        end
      else raise TypeError
  | _ => raise TypeError
  end.

End models.

(** ** config.py *)
Module config.

Definition WORKER_TIMEOUT : float := 5%float.

Definition USERS : dict string := [ ("user1", "pass1"); ("user2", "pass2") ].

Definition SECRET_KEY : string := "sua-chave-super-secreta".

End config.

(** ** orchestrator/lamport_clock.py *)
Module lamport_clock.

Record LamportClock : Type := mkClock { time : Z }.

Definition init : LamportClock := mkClock 0.

(** [self.time += 1; return self.time] *)
Definition increment (self : LamportClock) : Z * LamportClock :=
  let t := (time self + 1)%Z in (t, mkClock t).

(** [self.time = max(self.time, received_time) + 1; return self.time] *)
Definition update (received_time : Z) (self : LamportClock) : Z * LamportClock :=
  let t := (Z.max (time self) received_time + 1)%Z in (t, mkClock t).

Definition get_time (self : LamportClock) : Z := time self.

Definition set_time (new_time : Z) (self : LamportClock) : LamportClock :=
  mkClock new_time.

(** [n] calls of [increment] in a row, with the values they return. *)
Fixpoint increments (n : nat) (self : LamportClock) : list Z * LamportClock :=
  match n with
  | O => ([], self)
  | S n' =>
      let '(t, self1) := increment self in
      let '(ts, self2) := increments n' self1 in
      (t :: ts, self2)
  end.

(** The calls that return a timestamp. *)
Inductive call : Type :=
| Increment
| Update (received_time : Z).

Definition perform (c : call) (self : LamportClock) : Z * LamportClock :=
  match c with
  | Increment => increment self
  | Update received_time => update received_time self
  end.

(** The calls [cs] in a row, with the values they return. *)
Fixpoint calls (cs : list call) (self : LamportClock) : list Z * LamportClock :=
  match cs with
  | [] => ([], self)
  | c :: cs' =>
      let '(t, self1) := perform c self in
      let '(ts, self2) := calls cs' self1 in
      (t :: ts, self2)
  end.

End lamport_clock.

(** ** orchestrator/load_balancer.py *)
Module load_balancer.

Record RoundRobinLoadBalancer : Type := mkLB {
  workers : list string;
  current_index : nat
}.

Definition init : RoundRobinLoadBalancer := mkLB [] 0.

(** Python compares strings by code point, lexicographically. *)
Definition str_le (a b : string) : Prop := String.leb a b = true.

#[global] Instance str_le_dec a b : Decision (str_le a b).
Proof. unfold str_le. apply _. Defined.

Definition sorted (l : list string) : list string := merge_sort str_le l.

(** [self.workers = sorted(workers)], then the cursor is reset when it
    points past the end. *)
Definition update_workers (ws : list string) (self : RoundRobinLoadBalancer)
  : RoundRobinLoadBalancer :=
  let ws' := sorted ws in
  if decide (length ws' <= current_index self)
  then mkLB ws' 0
  else mkLB ws' (current_index self).

Definition get_next_worker (self : RoundRobinLoadBalancer)
  : option string * RoundRobinLoadBalancer :=
  match workers self with
  | [] => (None, self)
  | _ :: _ =>
      let i := if decide (length (workers self) <= current_index self)
               then 0 else current_index self in
      match workers self !! i with
      | Some worker =>
          (Some worker, mkLB (workers self) ((i + 1) mod length (workers self)))
      | None => (None, self)
      end
  end.

(** [k] calls of [get_next_worker] in a row, with the values they return. *)
Fixpoint get_next_workers (k : nat) (self : RoundRobinLoadBalancer)
  : list (option string) * RoundRobinLoadBalancer :=
  match k with
  | O => ([], self)
  | S k' =>
      let '(w, self1) := get_next_worker self in
      let '(ws, self2) := get_next_workers k' self1 in
      (w :: ws, self2)
  end.

(** The workers in the order a full turn answers them, from the cursor [c]. *)
Definition turn (c : nat) (l : list string) : list string := drop c l ++ take c l.

(** How many of the answers [out] are the worker [w]. *)
Definition times (w : string) (out : list (option string)) : nat :=
  length (List.filter (fun r => bool_decide (r = Some w)) out).

End load_balancer.

(** ** orchestrator/state_manager.py *)
Module state_manager.

(** A reference to a [Task] object: its index in the object store. *)
Abbreviation loc := nat (only parsing).

(** The address kept for a worker: the [(host, port)] tuple [recvfrom]
    returns, or whatever value a loaded snapshot carried. *)
Inductive address : Type :=
| SockAddr (host : string) (port : Z)
| JsonAddr (j : json).

(** An entry [{'addr': ..., 'last_heartbeat': ...}] of the worker table. *)
Record worker : Type := mkWorker {
  addr : address;
  last_heartbeat : float
}.

Record StateManager : Type := mkState {
  heap : list models.Task;        (* the Task objects, by reference *)
  tasks : dict loc;               (* self.tasks *)
  pending_tasks : list string;    (* self.pending_tasks *)
  workers : dict worker           (* self.workers *)
}.

Definition init : StateManager := mkState [] [] [] [].

Definition set_heap (h : list models.Task) (self : StateManager) : StateManager :=
  mkState h (tasks self) (pending_tasks self) (workers self).

Definition set_tasks (t : dict loc) (self : StateManager) : StateManager :=
  mkState (heap self) t (pending_tasks self) (workers self).

Definition set_pending_tasks (p : list string) (self : StateManager) : StateManager :=
  mkState (heap self) (tasks self) p (workers self).

Definition set_workers (w : dict worker) (self : StateManager) : StateManager :=
  mkState (heap self) (tasks self) (pending_tasks self) w.

(** A new object: [Task(...)]. *)
Definition alloc (t : models.Task) (self : StateManager) : loc * StateManager :=
  (length (heap self), set_heap (heap self ++ [t]) self).

(** An attribute assignment through a reference: [task.x = v]. *)
Definition update_obj (l : loc) (f : models.Task -> models.Task)
    (self : StateManager) : StateManager :=
  set_heap (alter f l (heap self)) self.

(** The task table with its references followed. *)
Definition task_items (self : StateManager) : list (string * models.Task) :=
  omap (fun kl => t ← heap self !! snd kl; Some (fst kl, t)) (tasks self).

Definition add_task (task : loc) (self : StateManager) : StateManager :=
  match heap self !! task with
  | Some t =>
      set_pending_tasks (pending_tasks self ++ [models.id t])
        (set_tasks (dict_set (models.id t) task (tasks self)) self)
  | None => self
  end.

Definition get_next_task (self : StateManager) : option loc * StateManager :=
  match pending_tasks self with
  | [] => (None, self)
  | task_id :: rest =>
      let self1 := set_pending_tasks rest self in
      match dict_get task_id (tasks self1) with
      | Some task => (Some task, update_obj task (models.set_status "IN_PROGRESS") self1)
      | None => (None, self1)
      end
  end.

(** [k] calls of [get_next_task] in a row, with the tasks they return. *)
Fixpoint get_next_tasks (k : nat) (self : StateManager)
  : list (option loc) * StateManager :=
  match k with
  | O => ([], self)
  | S k' =>
      let '(t, self1) := get_next_task self in
      let '(ts, self2) := get_next_tasks k' self1 in
      (t :: ts, self2)
  end.

(** [now] is the value of [time.time()] at the call. *)
Definition update_worker_heartbeat (worker_id : string) (worker_addr : address)
    (now : float) (self : StateManager) : StateManager :=
  set_workers (dict_set worker_id (mkWorker worker_addr now) (workers self)) self.

(** [now - data['last_heartbeat'] > WORKER_TIMEOUT] *)
Definition timed_out (now : float) (data : worker) : bool :=
  PrimFloat.ltb config.WORKER_TIMEOUT (PrimFloat.sub now (last_heartbeat data)).

(** The test of the inner loop of [check_dead_workers]. *)
Definition held_by (worker_id : string) (task : models.Task) : bool :=
  bool_decide (models.assigned_worker task = Some worker_id)
  && String.eqb (models.status task) "IN_PROGRESS".

(** [task.status = "PENDING"; task.assigned_worker = None] *)
Definition reset (t : models.Task) : models.Task :=
  models.set_assigned_worker None (models.set_status "PENDING" t).

(** One turn of the inner loop, at the item [(task_id, task)]. *)
Definition rescue (worker_id : string) (self : StateManager)
    (item : string * loc) : StateManager :=
  let '(task_id, task) := item in
  match heap self !! task with
  | Some t =>
      if held_by worker_id t then
        set_pending_tasks (task_id :: pending_tasks self) (update_obj task reset self)
      else self
  | None => self
  end.

(** One turn of the outer loop, at a dead worker. *)
Definition remove_worker (self : StateManager) (worker_id : string) : StateManager :=
  let self1 := set_workers (dict_del worker_id (workers self)) self in
  fold_left (rescue worker_id) (tasks self1) self1.

Definition dead_workers (now : float) (self : StateManager) : list string :=
  map fst (List.filter (fun kv => timed_out now (snd kv)) (workers self)).

(** The keys, in table order, of the tasks a worker holds. *)
Definition held_ids (worker_id : string) (self : StateManager) : list string :=
  map fst (List.filter (fun kt => held_by worker_id (snd kt)) (task_items self)).

Definition check_dead_workers (now : float) (self : StateManager)
  : list string * StateManager :=
  let self1 := fold_left remove_worker (dead_workers now self) self in
  (dict_keys (workers self1), self1).

Definition update_task_status (task_id status : string) (result : json)
    (self : StateManager) : StateManager :=
  match dict_get task_id (tasks self) with
  | Some task =>
      update_obj task (models.set_result result)
        (update_obj task (models.set_status status) self)
  | None => self
  end.

(** The call with the keyword [result] left out: [result=None]. *)
Definition update_task_status_default (task_id status : string)
    (self : StateManager) : StateManager :=
  update_task_status task_id status JNull self.

Definition get_task_status (task_id : string) (self : StateManager) : option json :=
  l ← dict_get task_id (tasks self);
  t ← heap self !! l;
  Some (models.to_dict t).

(** [json.dumps] writes a tuple as an array. *)
Definition address_to_json (a : address) : json :=
  match a with
  | SockAddr host port => JList [JStr host; JInt port]
  | JsonAddr j => j
  end.

Definition worker_to_json (w : worker) : json :=
  JDict [ ("addr", address_to_json (addr w));
          ("last_heartbeat", JFloat (last_heartbeat w)) ].

(** The dictionary [get_state_snapshot] hands to [json.dumps]. *)
Definition snapshot_dict (self : StateManager) : json :=
  JDict [ ("tasks", JDict (map (fun kt => (fst kt, models.to_dict (snd kt)))
                               (task_items self)));
          ("pending_tasks", JList (map JStr (pending_tasks self)));
          ("workers", JDict (map (fun kw => (fst kw, worker_to_json (snd kw)))
                                 (workers self))) ].

(** A worker entry as it comes back from a snapshot: the address tuple has
    become the list [json.dumps] wrote for it. *)
Definition reloaded (w : worker) : worker :=
  mkWorker (JsonAddr (address_to_json (addr w))) (last_heartbeat w).

(** The typed reading of [state["pending_tasks"]] and [state["workers"]],
    which the source stores unchecked. *)
Definition as_str_list (v : json) : option (list string) :=
  match v with
  | JList xs => mapM models.as_str xs
  | _ => None
  end.

Definition as_worker (v : json) : option worker :=
  match v with
  | JDict [ ("addr", a); ("last_heartbeat", JFloat hb) ] => Some (mkWorker (JsonAddr a) hb)
  | _ => None
  end.

Definition as_workers (v : json) : option (dict worker) :=
  match v with
  | JDict kvs => mapM (fun kv => w ← as_worker (snd kv); Some (fst kv, w)) kvs
  | _ => None
  end.

(** The world of [load_state_snapshot]: the store and the clock it is given. *)
Definition world : Type := StateManager * lamport_clock.LamportClock.

Definition on_state (f : StateManager -> StateManager) : M world unit :=
  modify (fun w => (f (fst w), snd w)).

Definition on_clock (f : lamport_clock.LamportClock -> lamport_clock.LamportClock)
  : M world unit :=
  modify (fun w => (fst w, f (snd w))).

(** [{tid: t for tid, t in ...}] with every [t] a new object. *)
Definition install_tasks (new : list (string * models.Task)) (self : StateManager)
  : StateManager :=
  fold_left
    (fun s kt =>
       let '(l, s1) := alloc (snd kt) s in
       set_tasks (dict_set (fst kt) l (tasks s1)) s1)
    new (set_tasks [] self).

(** The loop that computes [max_ts], from 0. *)
Definition max_lamport_ts (ts : list models.Task) : Z :=
  fold_left (fun max_ts task =>
               if (max_ts <? models.lamport_ts task)%Z
               then models.lamport_ts task else max_ts)
            ts 0%Z.

Section Snapshot.
Context {bytes : Type} `{JsonCodec bytes}.

Definition get_state_snapshot (self : StateManager) : bytes :=
  json_dumps (snapshot_dict self).

Definition loads (snapshot_json : bytes) : M world json :=
  match json_loads snapshot_json with
  | Decoded v => mret v
  | NotUtf8 => raise UnicodeDecodeError
  | NotJson => raise JSONDecodeError
  | TooDeep => raise RecursionError
  | TooLong => raise ValueError
  end.

Definition load_state_snapshot (snapshot_json : bytes) : M world unit :=
  try_except
    (state ← loads snapshot_json;
     tasks_json ← getitem state "tasks";
     tasks_items ← items tasks_json;
     new ← traverse (fun kv => t ← models.Task_init (snd kv); mret (fst kv, t)) tasks_items;
     on_state (install_tasks new);;
     pending_json ← getitem state "pending_tasks";
     pending ← typed (as_str_list pending_json);
     on_state (set_pending_tasks pending);;
     workers_json ← getitem state "workers";
     ws ← typed (as_workers workers_json);
     on_state (set_workers ws);;
     max_ts ← gets (fun w => max_lamport_ts (map snd (task_items (fst w))));
     on_clock (lamport_clock.set_time max_ts))
    [JSONDecodeError; KeyError]
    log_only.

End Snapshot.

End state_manager.

(** ** orchestrator/main.py *)
Module main.

(** The three components of an [Orchestrator], and [task], the local variable
    of the loop [distribute_tasks]: the task taken from the queue and not yet
    sent or put back. *)
Record Orchestrator : Type := mkOrch {
  state_manager : state_manager.StateManager;
  lamport_clock : lamport_clock.LamportClock;
  load_balancer : load_balancer.RoundRobinLoadBalancer;
  task : option state_manager.loc
}.

Definition init : Orchestrator :=
  mkOrch state_manager.init lamport_clock.init load_balancer.init None.

Definition set_state_manager (s : state_manager.StateManager) (self : Orchestrator) :=
  mkOrch s (lamport_clock self) (load_balancer self) (task self).

Definition set_lamport_clock (c : lamport_clock.LamportClock) (self : Orchestrator) :=
  mkOrch (state_manager self) c (load_balancer self) (task self).

Definition set_load_balancer (b : load_balancer.RoundRobinLoadBalancer) (self : Orchestrator) :=
  mkOrch (state_manager self) (lamport_clock self) b (task self).

Definition set_task (t : option state_manager.loc) (self : Orchestrator) :=
  mkOrch (state_manager self) (lamport_clock self) (load_balancer self) t.

(** A method of the state store, called on [self.state_manager]. *)
Definition on_store (f : state_manager.StateManager -> state_manager.StateManager)
  : M Orchestrator unit :=
  modify (fun self => set_state_manager (f (state_manager self)) self).

Definition error (msg : string) : json := JDict [ ("error", JStr msg) ].

Section Endpoints.
Context `{Interpreter}.

(** [hashlib.sha256(f"{user}{SECRET_KEY}".encode()).hexdigest()] *)
Definition expected_token (user : string) : string :=
  sha256_hexdigest (user ++ config.SECRET_KEY).

(** [USERS.get(username)]: a list or a dict is unhashable. *)
Definition USERS_get (username : json) : M Orchestrator (option string) :=
  match username with
  | JList _ | JDict _ => raise TypeError
  | JStr s => mret (dict_get s config.USERS)
  | _ => mret None
  end.

(** [USERS.get(username) == password] *)
Definition credentials_match (stored : option string) (password : json) : bool :=
  match stored with
  | Some pw => eq_str password pw
  | None => match password with JNull => true | _ => false end
  end.

Definition handle_login (request : dict json) : M Orchestrator (option json) :=
  let username := get_or "username" JNull request in
  let password := get_or "password" JNull request in
  stored ← USERS_get username;
  if credentials_match stored password then
    name ← typed (py_str username);
    mret (Some (JDict [ ("token", JStr (sha256_hexdigest (name ++ config.SECRET_KEY))) ]))
  else
    mret (Some (error "Credenciais inválidas")).

Definition verify_token (token : json) : bool :=
  existsb (fun user => eq_str token (expected_token user)) (dict_keys config.USERS).

Definition get_user_from_token (token : json) : string :=
  match List.find (fun user => eq_str token (expected_token user))
                  (dict_keys config.USERS) with
  | Some user => user
  | None => "unknown"
  end.

(** [uuid] is the text of [uuid.uuid4()]. *)
Definition handle_submit_task (request : dict json) (uuid : string)
  : M Orchestrator (option json) :=
  token ← getitem (JDict request) "token";
  let client_id := get_user_from_token token in
  ts ← (fun self =>
          let '(t, c) := lamport_clock.increment (lamport_clock self) in
          (set_lamport_clock c self, Ret t));
  let new := models.new_Task uuid client_id (get_or "data" (JDict []) request) ts in
  on_store (fun s => let '(l, s1) := state_manager.alloc new s in
                     state_manager.add_task l s1);;
  mret (Some (JDict [ ("status", JStr "Tarefa recebida"); ("task_id", JStr uuid) ])).

Definition handle_task_status (request : dict json) : M Orchestrator (option json) :=
  match get_or "task_id" JNull request with
  | JList _ | JDict _ => raise TypeError
  | JStr task_id =>
      status ← gets (fun self => state_manager.get_task_status task_id (state_manager self));
      match status with
      | Some d => mret (Some d)
      | None => mret (Some (error "Tarefa não encontrada"))
      end
  | _ => mret (Some (error "Tarefa não encontrada"))
  end.

(** [handle_client] from the decoded request on; the result is the
    response written to the connection, if any.  The writing itself
    ([json.dumps] and [conn.sendall], the last statement of every handler)
    and the [except] clause are in [handle_client_conn] below. *)
Definition handle_client (request : json) (uuid : string)
  : M Orchestrator (option json) :=
  match request with
  | JDict kvs =>
      if negb (dict_mem "token" kvs) then
        if eq_str (get_or "action" JNull kvs) "login" then handle_login kvs
        else mret (Some (error "Autenticação necessária"))
      else
        token ← getitem request "token";
        if negb (verify_token token) then
          mret (Some (error "Token inválido ou expirado"))
        else
          let action := get_or "action" JNull kvs in
          if eq_str action "submit_task" then handle_submit_task kvs uuid
          else if eq_str action "task_status" then handle_task_status kvs
          else mret None
  | JList xs =>
      if existsb (fun x => eq_str x "token") xs then raise TypeError
      else raise AttributeError
  | JStr s =>
      if substring_of "token" s then raise TypeError else raise AttributeError
  | _ => raise TypeError
  end.

(** What the writing of a response answers, [json.dumps(response)] and then
    [conn.sendall]: the response is written, or one of the two raises. *)
Inductive written : Type :=
| Written
| WriteRaises (e : exn).

(** [handle_client] on its connection, from the decoded request on: the
    handlers above, each of which writes its response as its last statement,
    and the [except] clause around them, which only logs. *)
Definition handle_client_conn (w : written) (request : json) (uuid : string)
  : M Orchestrator (option json) :=
  fun self =>
    let '(self1, r) :=
      (response ← handle_client request uuid;
       match response, w with
       | Some _, WriteRaises e => raise e
       | _, _ => mret response
       end) self in
    match r with
    | Exc e =>
        if existsb (fun h => bool_decide (h = e))
             [JSONDecodeError; ConnectionResetError; BrokenPipeError]
        then (self1, Ret None) else (self1, Exc e)
    | _ => (self1, r)
    end.

(** One datagram of [listen_for_workers], from the decoded message on;
    [addr] is its source and [now] the time of its arrival. *)
Definition handle_worker_message (message : json) (addr : state_manager.address)
    (now : float) : M Orchestrator unit :=
  match message with
  | JDict kvs =>
      let msg_type := get_or "type" JNull kvs in
      if eq_str msg_type "heartbeat" then
        worker_id ← getitem message "worker_id";
        match worker_id with
        | JStr w => on_store (state_manager.update_worker_heartbeat w addr now)
        | JList _ | JDict _ => raise TypeError
        | _ => untyped
        end
      else if eq_str msg_type "task_complete" then
        task_id ← getitem message "task_id";
        result ← getitem message "result";
        match task_id with
        | JStr t => on_store (state_manager.update_task_status t "COMPLETED" result)
        | JList _ | JDict _ => raise TypeError
        | _ => mret tt
        end
      else mret tt
  | _ => raise AttributeError
  end.

(** One turn of [monitor_workers], after its sleep. *)
Definition monitor_workers (now : float) : M Orchestrator unit :=
  modify (fun self =>
    let '(active_workers, s) :=
      state_manager.check_dead_workers now (state_manager self) in
    set_load_balancer
      (load_balancer.update_workers active_workers (load_balancer self))
      (set_state_manager s self)).

(** What the network answers to one attempt to send a task. *)
Inductive attempt : Type :=
| Delivered
| ConnectRaises (e : exn)     (* [s.connect] raises *)
| SendRaises (e : exn).       (* [s.sendall] raises *)

(** [worker_addr_info[0]] *)
Definition address_host (a : state_manager.address) : option json :=
  match a with
  | state_manager.SockAddr host _ => Some (JStr host)
  | state_manager.JsonAddr (JList (h :: _)) => Some h
  | state_manager.JsonAddr _ => None
  end.

(** [task.assigned_worker = w] on the task the loop holds. *)
Definition assign (l : state_manager.loc) (w : option string) : M Orchestrator unit :=
  on_store (state_manager.update_obj l (models.set_assigned_worker w)).

(** The first statement of the loop body: [task = get_next_task()]. *)
Definition distribute_fetch : M Orchestrator unit :=
  modify (fun self =>
    let '(t, s) := state_manager.get_next_task (state_manager self) in
    set_task t (set_state_manager s self)).

(** The rest of the loop body, under the answer [net] of the network.  The
    turn ends with it, whatever happens: the loop goes round ([continue], or
    the end of the body) or the thread dies of an exception it does not catch,
    and the local variable [task] is gone. *)
Definition distribute_route (net : attempt) : M Orchestrator unit :=
  held ← gets task;
  modify (set_task None);;
  match held with
  | None => mret tt
  | Some task =>
      worker_id ← (fun self =>
                     let '(w, b) := load_balancer.get_next_worker (load_balancer self) in
                     (set_load_balancer b self, Ret w));
      match worker_id with
      | None | Some "" =>
          on_store (state_manager.add_task task)
      | Some worker_id =>
          try_except
            (entry ← gets (fun self =>
                 dict_get worker_id (state_manager.workers (state_manager self)));
             match entry with
             | None => raise KeyError
             | Some data =>
                 _ ← typed (address_host (state_manager.addr data));
                 match int_of_str (last_segment worker_id) with
                 | None => raise ValueError
                 | Some _ =>
                     match net with
                     | ConnectRaises e => raise e
                     | SendRaises e => assign task (Some worker_id);; raise e
                     | Delivered => assign task (Some worker_id)
                     end
                 end
             end)
            [KeyError; ConnectionRefusedError]
            (assign task None;; on_store (state_manager.add_task task))
      end
  end.

(** One turn of the loop [distribute_tasks]. *)
Definition distribute_tasks (net : attempt) : M Orchestrator unit :=
  distribute_fetch;; distribute_route net.

(** The steps the threads of a primary take. *)
Inductive event : Type :=
| ClientRequest (request : json) (uuid : string)
| WorkerMessage (message : json) (addr : state_manager.address) (now : float)
| MonitorTurn (now : float)
| DistributeFetch
| DistributeRoute (net : attempt).

Definition step (e : event) : M Orchestrator (option json) :=
  match e with
  | ClientRequest request uuid => handle_client request uuid
  | WorkerMessage message addr now => handle_worker_message message addr now;; mret None
  | MonitorTurn now => monitor_workers now;; mret None
  | DistributeFetch => distribute_fetch;; mret None
  | DistributeRoute net => distribute_route net;; mret None
  end.

Definition run (es : list event) (self : Orchestrator) : Orchestrator :=
  fold_left (fun o e => fst (step e o)) es self.

(** The [lamport_ts] of the task the table holds under [task_id]. *)
Definition lamport_ts_of (task_id : string) (self : Orchestrator) : option Z :=
  l ← dict_get task_id (state_manager.tasks (state_manager self));
  t ← state_manager.heap (state_manager self) !! l;
  Some (models.lamport_ts t).

(** The task id in an answer [{"status": "Tarefa recebida", "task_id": i}],
    the answer that accepts a submission. *)
Definition accepted_id (r : outcome (option json)) : option string :=
  match r with
  | Ret (Some (JDict [ (k1, JStr v1); (k2, JStr i) ])) =>
      if String.eqb k1 "status" && String.eqb v1 "Tarefa recebida"
         && String.eqb k2 "task_id"
      then Some i else None
  | _ => None
  end.

(** The Lamport timestamps given to the submissions a run accepts, in
    order: for each request answered "Tarefa recebida", the [lamport_ts] of
    the task it created. *)
Fixpoint submitted_ts (es : list event) (self : Orchestrator) : list Z :=
  match es with
  | [] => []
  | e :: es' =>
      let '(self1, r) := step e self in
      match accepted_id r ≫= (fun i => lamport_ts_of i self1) with
      | Some ts => ts :: submitted_ts es' self1
      | None => submitted_ts es' self1
      end
  end.

End Endpoints.

(** One datagram of [listen_for_workers].  [data] is what [s.recvfrom(1024)]
    returned: the datagram, or its first 1024 bytes when it is longer. *)
Definition listen_for_workers {bytes} `{JsonCodec bytes} (data : bytes)
    (addr : state_manager.address) (now : float) : M Orchestrator unit :=
  message ← decode data;
  handle_worker_message message addr now.

(** *** The operations on the store, one by one

    The store together with the task the dispatch loop holds, and the
    operations the threads apply to them: the methods of the state store and
    what the loop [distribute_tasks] does with its task. *)
Definition dispatching : Type := state_manager.StateManager * option state_manager.loc.

Inductive op : Type :=
| AddTask (t : models.Task)        (* [add_task(Task(...))], a new object *)
| GetNextTask                      (* [task = get_next_task()] *)
| CheckDeadWorkers (now : float)
| UpdateTaskStatus (task_id status : string) (result : json)
| UpdateWorkerHeartbeat (worker_id : string) (addr : state_manager.address) (now : float)
| Assign (w : option string)       (* [task.assigned_worker = w] *)
| Requeue                          (* [add_task(task)] *)
| Release.                         (* the turn of the loop ends *)

Definition apply (o : op) (st : dispatching) : dispatching :=
  let '(s, held) := st in
  match o with
  | AddTask t =>
      let '(l, s1) := state_manager.alloc t s in (state_manager.add_task l s1, held)
  | GetNextTask =>
      let '(t, s1) := state_manager.get_next_task s in (s1, t)
  | CheckDeadWorkers now => (snd (state_manager.check_dead_workers now s), held)
  | UpdateTaskStatus task_id status result =>
      (state_manager.update_task_status task_id status result s, held)
  | UpdateWorkerHeartbeat worker_id addr now =>
      (state_manager.update_worker_heartbeat worker_id addr now s, held)
  | Assign w =>
      match held with
      | Some l => (state_manager.update_obj l (models.set_assigned_worker w) s, held)
      | None => st
      end
  | Requeue =>
      match held with
      | Some l => (state_manager.add_task l s, held)
      | None => st
      end
  | Release => (s, None)
  end.

Definition apply_all (ops : list op) (st : dispatching) : dispatching :=
  fold_left (fun st o => apply o st) ops st.

(** The states reached from the empty store by operations that [allowed]
    admits in the state they are applied to. *)
Inductive reachable (allowed : dispatching -> op -> Prop) : dispatching -> Prop :=
| reachable_init : reachable allowed (state_manager.init, None)
| reachable_step st o :
    reachable allowed st -> allowed st o -> reachable allowed (apply o st).

(** Every operation, with any argument. *)
Definition any_op : dispatching -> op -> Prop := fun _ _ => True.

(** No re-queue by the dispatch loop; tasks are added under ids the table
    does not have yet; the statuses written by [add_task] and
    [update_task_status] satisfy [P]. *)
Definition disciplined (P : string -> Prop) : dispatching -> op -> Prop :=
  fun st o =>
    match o with
    | AddTask t =>
        P (models.status t) /\ dict_get (models.id t) (state_manager.tasks (fst st)) = None
    | UpdateTaskStatus _ status _ => P status
    | Requeue => False
    | _ => True
    end.

(** The status of the task the table holds under [task_id]. *)
Definition status_of (task_id : string) (s : state_manager.StateManager) : option string :=
  l ← dict_get task_id (state_manager.tasks s);
  t ← state_manager.heap s !! l;
  Some (models.status t).

(** Every queued id is a key of the task table. *)
Definition queued_are_keys (s : state_manager.StateManager) : Prop :=
  forall task_id,
    task_id ∈ state_manager.pending_tasks s -> task_id ∈ dict_keys (state_manager.tasks s).

(** Every queued id is the key of a task whose status satisfies [P]. *)
Definition queued_have (P : string -> Prop) (s : state_manager.StateManager) : Prop :=
  forall task_id,
    task_id ∈ state_manager.pending_tasks s ->
    exists x, status_of task_id s = Some x /\ P x.

(** The task table has distinct keys and holds distinct objects of the store. *)
Definition table_ok (s : state_manager.StateManager) : Prop :=
  NoDup (dict_keys (state_manager.tasks s))
  /\ NoDup (map snd (state_manager.tasks s))
  /\ (forall k l, (k, l) ∈ state_manager.tasks s -> l < length (state_manager.heap s)).

(** What an orchestrator shows of the store and of the task of its loop. *)
Definition dispatching_of (self : Orchestrator) : dispatching :=
  (state_manager self, task self).

(** The shape of the store and of the task the loop holds: the dictionaries
    have distinct keys, every entry of the task table refers to an object of
    the store whose [id] is the key, and so does the task held. *)
Definition shaped (st : dispatching) : Prop :=
  NoDup (dict_keys (state_manager.tasks (fst st)))
  /\ NoDup (dict_keys (state_manager.workers (fst st)))
  /\ (forall k l, dict_get k (state_manager.tasks (fst st)) = Some l ->
        exists t, state_manager.heap (fst st) !! l = Some t /\ models.id t = k)
  /\ (forall l, snd st = Some l -> l < length (state_manager.heap (fst st))).

(** The objects of [h] are those of [h'], with the ids they had. *)
Definition same_ids (h h' : list models.Task) : Prop :=
  forall l t, h !! l = Some t -> exists t', h' !! l = Some t' /\ models.id t' = models.id t.

(** The objects of [h] are those of [h'], with the [id], the [client_id], the
    [data] and the [lamport_ts] they had. *)
Definition same_payload (h h' : list models.Task) : Prop :=
  forall l t, h !! l = Some t ->
    exists t', h' !! l = Some t'
               /\ models.id t' = models.id t
               /\ models.client_id t' = models.client_id t
               /\ models.data t' = models.data t
               /\ models.lamport_ts t' = models.lamport_ts t.

(** The invariant of the pending queue for the statuses [P]. *)
Definition queue_inv (P : string -> Prop) (s : state_manager.StateManager) : Prop :=
  table_ok s /\ NoDup (state_manager.pending_tasks s) /\ queued_have P s.

End main.

(** ** worker/main.py *)
Module worker.

(** [worker_id = f"{host}_{port}"], with [port = int(sys.argv[2])]. *)
Definition worker_id (host : string) (port : Z) : string :=
  host ++ "_" ++ pretty port.

(** The message [send_heartbeat] hands to [json.dumps]. *)
Definition heartbeat_message (worker_id : string) : json :=
  JDict [ ("type", JStr "heartbeat"); ("worker_id", JStr worker_id) ].

(** The message [notify_task_completion] hands to [json.dumps]. *)
Definition completion_message (task_id result : json) : json :=
  JDict [ ("type", JStr "task_complete"); ("task_id", task_id); ("result", result) ].

Section Worker.
Context `{Interpreter} {W bytes : Type} `{JsonCodec bytes}.

(** [sleep] is what [time.sleep(duration)] answers: it returns, or raises. *)
Definition execute_task (sleep : json -> option exn) (task_data : json) : M W json :=
  i ← getitem task_data "id";
  match task_data with
  | JDict kvs =>
      match get_or "data" (JDict []) kvs with
      | JDict data =>
          match sleep (get_or "duration" (JInt 5) data) with
          | Some e => raise e
          | None =>
              name ← typed (py_str i);
              mret (JDict [ ("message",
                             JStr ("Tarefa " ++ name ++ " concluída com sucesso")) ])
          end
      | _ => raise AttributeError
      end
  | _ => raise TypeError
  end.

(** One connection of [listen_for_tasks].  [data] is what [conn.recv(4096)]
    returned: nothing ([None], and the loop goes on), or what was sent, cut
    after 4096 bytes when it is longer.  The result is what
    [notify_task_completion] sends to the orchestrator, if anything.  No
    exception is caught. *)
Definition listen_for_tasks (sleep : json -> option exn) (data : option bytes)
  : M W (option bytes) :=
  match data with
  | None => mret None
  | Some data =>
      task_data ← decode data;
      result ← execute_task sleep task_data;
      task_id ← getitem task_data "id";
      mret (Some (json_dumps (completion_message task_id result)))
  end.

End Worker.

End worker.

(** ** A codec for closed examples

    A byte string stands for what [json.loads(b.decode('utf-8'))] makes of it:
    a value, or one of the two decoding errors. *)
#[global] Instance denoted_bytes : JsonCodec decoded := {|
  json_dumps v := Decoded v;
  json_loads b := b
|}.


(** ** Sample data for closed examples *)
Module sample.

Definition t1 : models.Task :=
  models.new_Task "t1" "user1" (JDict [ ("duration", JInt 1) ]) 1.

Definition t2 : models.Task :=
  models.mkTask "t2" "user2" "COMPLETED" (JDict []) 2 (Some "localhost_60001")
                (JDict [ ("message", JStr "ok") ]).

(** A store with [t1] queued and [t2] completed, and one worker seen at
    time 100. *)
Definition store : state_manager.StateManager :=
  state_manager.mkState
    [ t1; t2 ]
    [ ("t1", 0); ("t2", 1) ]
    [ "t1" ]
    [ ("localhost_60001",
       state_manager.mkWorker (state_manager.SockAddr "127.0.0.1" 40000) 100%float) ].

Definition t3 : models.Task :=
  models.mkTask "t3" "user1" "IN_PROGRESS" (JDict []) 3 (Some "localhost_60001") JNull.

(** The same with a third task in progress on the worker last seen at time
    100, and a second worker seen at time 198. *)
Definition busy_store : state_manager.StateManager :=
  state_manager.mkState
    [ t1; t2; t3 ]
    [ ("t1", 0); ("t2", 1); ("t3", 2) ]
    [ "t1" ]
    [ ("localhost_60001",
       state_manager.mkWorker (state_manager.SockAddr "127.0.0.1" 40000) 100%float);
      ("localhost_60002",
       state_manager.mkWorker (state_manager.SockAddr "127.0.0.1" 40001) 198%float) ].

(** A task is submitted and sent to a worker last heard of at time 100; at
    time 200 the monitor finds the worker dead. *)
Definition rescue_trace : list main.op :=
  [ main.AddTask t1;
    main.UpdateWorkerHeartbeat "localhost_60001"
      (state_manager.SockAddr "127.0.0.1" 40000) 100%float;
    main.GetNextTask;
    main.Assign (Some "localhost_60001");
    main.Release;
    main.CheckDeadWorkers 200%float ].

(** An interpreter for closed examples.  The digest of a text is left
    symbolic, the text itself under a mark; [int] reads the unsigned decimal
    numerals, the only texts the examples give it. *)
Definition digit (c : ascii) : option Z :=
  let n := (Z.of_N (N_of_ascii c) - 48)%Z in
  if ((0 <=? n) && (n <=? 9))%Z then Some n else None.

Fixpoint decimal (acc : Z) (s : string) : option Z :=
  match s with
  | EmptyString => Some acc
  | String c s' => d ← digit c; decimal (10 * acc + d) s'
  end.

Definition interpreter : Interpreter := {|
  sha256_hexdigest s := "sha256:" ++ s;
  float_repr _ := "0.0";
  int_of_str s := match s with EmptyString => None | _ => decimal 0 s end
|}.

(** The requests of [user1], with the token that interpreter gives. *)
Definition login_request : list (string * json) :=
  [ ("action", JStr "login"); ("username", JStr "user1"); ("password", JStr "pass1") ].

Definition submit_request : list (string * json) :=
  [ ("action", JStr "submit_task");
    ("token", JStr (@main.expected_token interpreter "user1"));
    ("data", JDict [ ("description", JStr "demo"); ("duration", JInt 1) ]) ].

Definition status_request (task_id : string) : list (string * json) :=
  [ ("action", JStr "task_status");
    ("token", JStr (@main.expected_token interpreter "user2"));
    ("task_id", JStr task_id) ].

(** An orchestrator over the sample store whose balancer knows the worker of
    the store. *)
Definition orchestrator : main.Orchestrator :=
  main.mkOrch store lamport_clock.init (load_balancer.mkLB [ "localhost_60001" ] 0) None.

(** A snapshot whose only task record has no [client_id]. *)
Definition headless_snapshot : decoded :=
  Decoded (JDict [ ("tasks", JDict [ ("t9", JDict [ ("id", JStr "t9") ]) ]);
                   ("pending_tasks", JList []);
                   ("workers", JDict []) ]).

End sample.

(** * Properties *)

(** ** Dictionaries *)
Section DictFacts.
Context {V : Type}.
Implicit Types (d : dict V) (k : string) (v : V).

Lemma dict_get_set_eq k v d : dict_get k (dict_set k v d) = Some v.
Proof.
  induction d as [|[k' v'] d IH]; simpl.
  - by rewrite String.eqb_refl.
  - destruct (String.eqb k k') eqn:E; simpl; rewrite ?String.eqb_refl, ?E; done.
Qed.

Lemma dict_get_set_ne k k' v d : k <> k' -> dict_get k' (dict_set k v d) = dict_get k' d.
Proof.
  intros Hne. induction d as [|[k0 v0] d IH]; simpl.
  - destruct (String.eqb k' k) eqn:E; [apply String.eqb_eq in E; congruence | done].
  - destruct (String.eqb k k0) eqn:E; simpl.
    + apply String.eqb_eq in E; subst k0.
      destruct (String.eqb k' k) eqn:E'; [apply String.eqb_eq in E'; congruence | done].
    + by rewrite IH.
Qed.

Lemma dict_get_Some_elem k v d : dict_get k d = Some v -> (k, v) ∈ d.
Proof.
  induction d as [|[k' v'] d IH]; simpl; [done|].
  destruct (String.eqb k k') eqn:E.
  - apply String.eqb_eq in E; subst. intros [= ->]. left.
  - intros ?. right. auto.
Qed.

Lemma dict_get_is_Some k d : is_Some (dict_get k d) <-> k ∈ dict_keys d.
Proof.
  unfold dict_keys. induction d as [|[k' v'] d IH]; simpl.
  - split; [intros [? [=]] | intros ?%elem_of_nil; done].
  - destruct (String.eqb k k') eqn:E.
    + apply String.eqb_eq in E; subst. split; [left | eauto].
    + apply String.eqb_neq in E. rewrite IH, elem_of_cons.
      split; [auto | intros [?|?]; [congruence | done]].
Qed.

Lemma dict_get_None k d : dict_get k d = None <-> k ∉ dict_keys d.
Proof. rewrite <- dict_get_is_Some, eq_None_not_Some. done. Qed.

Lemma dict_keys_set k v d : forall k', k' ∈ dict_keys d -> k' ∈ dict_keys (dict_set k v d).
Proof.
  intros k' Hk. apply dict_get_is_Some. apply dict_get_is_Some in Hk.
  destruct (decide (k = k')) as [->|Hne].
  - rewrite dict_get_set_eq. eauto.
  - by rewrite dict_get_set_ne.
Qed.

Lemma dict_set_fresh k v d : dict_get k d = None -> dict_set k v d = (d ++ [(k, v)])%list.
Proof.
  induction d as [|[k' v'] d IH]; simpl; [done|].
  destruct (String.eqb k k'); [done|]. intros ?. by rewrite IH.
Qed.

Lemma dict_get_elem_NoDup k v d :
  NoDup (dict_keys d) -> (k, v) ∈ d -> dict_get k d = Some v.
Proof.
  unfold dict_keys. induction d as [|[k' v'] d IH]; simpl.
  - intros _ ?%elem_of_nil. done.
  - rewrite NoDup_cons. intros [Hk Hd] [[= -> ->] | Hin]%elem_of_cons.
    + by rewrite String.eqb_refl.
    + destruct (String.eqb k k') eqn:E; [|auto].
      apply String.eqb_eq in E; subst k'. exfalso. apply Hk.
      apply list_elem_of_fmap. by exists (k, v).
Qed.

End DictFacts.

(** ** Lamport clock *)

Lemma increments_above n c :
  Forall (fun t => (lamport_clock.time c < t)%Z) (fst (lamport_clock.increments n c)).
Proof.
  revert c. induction n as [|n IH]; intros c; simpl; [constructor|].
  destruct (lamport_clock.increments n _) as [ts c2] eqn:E. simpl.
  constructor; [lia|].
  specialize (IH (lamport_clock.mkClock (lamport_clock.time c + 1))).
  rewrite E in IH. simpl in IH.
  eapply Forall_impl; [exact IH|]. simpl. intros; lia.
Qed.

Lemma increments_sorted n c :
  StronglySorted Z.lt (fst (lamport_clock.increments n c)).
Proof.
  revert c. induction n as [|n IH]; intros c; simpl; [constructor|].
  pose proof (increments_above n (lamport_clock.mkClock (lamport_clock.time c + 1))) as Ha.
  specialize (IH (lamport_clock.mkClock (lamport_clock.time c + 1))).
  destruct (lamport_clock.increments n _) as [ts c2]. simpl in *.
  constructor; [done|]. exact Ha.
Qed.

(** ** Running a method body *)

Lemma bind_run {W A B} (c : M W A) (f : A -> M W B) (w w1 : W) (a : A) :
  c w = (w1, Ret a) -> (c ≫= f) w = f a w1.
Proof. intros Hc. unfold mbind, M_bind. by rewrite Hc. Qed.

Lemma bind_exc {W A B} (c : M W A) (f : A -> M W B) (w w1 : W) (e : exn) :
  c w = (w1, Exc e) -> (c ≫= f) w = (w1, Exc e).
Proof. intros Hc. unfold mbind, M_bind. by rewrite Hc. Qed.

Lemma try_except_ret {W} (body : M W unit) handled handler (w w1 : W) :
  body w = (w1, Ret tt) -> try_except body handled handler w = (w1, Ret tt).
Proof. intros Hb. unfold try_except. by rewrite Hb. Qed.

Lemma try_except_exc {W} (body : M W unit) handled handler (w w1 : W) (e : exn) :
  body w = (w1, Exc e) ->
  try_except body handled handler w
  = if existsb (fun h => bool_decide (h = e)) handled then handler w1 else (w1, Exc e).
Proof. intros Hb. unfold try_except. by rewrite Hb. Qed.

(** ** State store: writes through a reference *)

Lemma update_obj_compose l f g s :
  state_manager.update_obj l f (state_manager.update_obj l g s)
  = state_manager.update_obj l (f ∘ g) s.
Proof.
  unfold state_manager.update_obj, state_manager.set_heap. simpl.
  by rewrite list_alter_alter_eq.
Qed.

Lemma update_obj_ext l f g s :
  (forall t, f t = g t) -> state_manager.update_obj l f s = state_manager.update_obj l g s.
Proof.
  intros Hfg. unfold state_manager.update_obj. f_equal.
  apply list_alter_ext; [intros; apply Hfg | done].
Qed.

Lemma update_obj_tasks l f s :
  state_manager.tasks (state_manager.update_obj l f s) = state_manager.tasks s.
Proof. done. Qed.

Lemma update_obj_lookup l f s t :
  state_manager.heap s !! l = Some t ->
  state_manager.heap (state_manager.update_obj l f s) !! l = Some (f t).
Proof.
  intros Hl. unfold state_manager.update_obj, state_manager.set_heap.
  cbn [state_manager.heap]. rewrite list_lookup_alter_eq. by rewrite Hl.
Qed.

Lemma update_obj_lookup_ne l l' f s :
  l <> l' ->
  state_manager.heap (state_manager.update_obj l f s) !! l' = state_manager.heap s !! l'.
Proof.
  intros Hne. unfold state_manager.update_obj, state_manager.set_heap.
  cbn [state_manager.heap]. by rewrite list_lookup_alter_ne.
Qed.

Lemma add_new_task_eq (t : models.Task) (s : state_manager.StateManager) :
  (let '(l, s1) := state_manager.alloc t s in state_manager.add_task l s1)
  = state_manager.mkState
      (state_manager.heap s ++ [t])
      (dict_set (models.id t) (length (state_manager.heap s)) (state_manager.tasks s))
      (state_manager.pending_tasks s ++ [models.id t])
      (state_manager.workers s).
Proof.
  unfold state_manager.alloc, state_manager.add_task. simpl.
  by rewrite list_lookup_middle.
Qed.

(** C8. Applying [update_task_status(task_id, "COMPLETED", result)] a second
    time changes nothing: the state after two applications is the state after
    one; and for a [task_id] the task table does not have, the state is left
    as it was. *)
Theorem task_complete_idempotent (task_id : string) (result : json)
    (s : state_manager.StateManager) :
  let once := state_manager.update_task_status task_id "COMPLETED" result s in
  state_manager.update_task_status task_id "COMPLETED" result once = once
  /\ (dict_get task_id (state_manager.tasks s) = None -> once = s).
Proof.
  simpl. split.
  - unfold state_manager.update_task_status.
    destruct (dict_get task_id (state_manager.tasks s)) as [l|] eqn:E.
    + rewrite !update_obj_tasks, E. rewrite !update_obj_compose.
      apply update_obj_ext. by intros [].
    + by rewrite E.
  - intros E. unfold state_manager.update_task_status. by rewrite E.
Qed.

(** C10. For a [task_id] of the task table, [update_task_status] overwrites
    the result of the task on every call, with whatever it is given; called
    without a result it writes [None], whatever result the task had. *)
Theorem update_task_status_overwrites_result (task_id status : string)
    (s : state_manager.StateManager) (l : state_manager.loc) (t : models.Task) :
  dict_get task_id (state_manager.tasks s) = Some l ->
  state_manager.heap s !! l = Some t ->
  (forall result,
     state_manager.heap (state_manager.update_task_status task_id status result s) !! l
     = Some (models.mkTask (models.id t) (models.client_id t) status (models.data t)
               (models.lamport_ts t) (models.assigned_worker t) result))
  /\ state_manager.heap (state_manager.update_task_status_default task_id status s) !! l
     = Some (models.mkTask (models.id t) (models.client_id t) status (models.data t)
               (models.lamport_ts t) (models.assigned_worker t) JNull).
Proof.
  intros Hk Hl.
  assert (forall result,
     state_manager.heap (state_manager.update_task_status task_id status result s) !! l
     = Some (models.mkTask (models.id t) (models.client_id t) status (models.data t)
               (models.lamport_ts t) (models.assigned_worker t) result)) as Hall.
  { intros result. unfold state_manager.update_task_status. rewrite Hk.
    rewrite update_obj_compose. by rewrite (update_obj_lookup _ _ _ t). }
  split; [exact Hall | apply Hall].
Qed.

(** The completed task [t2] of the sample store loses its result when only
    its status is written. *)
Lemma update_task_status_overwrites_result_witness :
  state_manager.heap
    (state_manager.update_task_status_default "t2" "FAILED" sample.store) !! 1
  = Some (models.mkTask "t2" "user2" "FAILED" (JDict []) 2 (Some "localhost_60001") JNull).
Proof.
  apply (update_task_status_overwrites_result "t2" "FAILED" sample.store 1 sample.t2);
    reflexivity.
Defined.

(** ** Round-robin dispatcher *)
Section RoundRobin.
Import load_balancer.
Implicit Types (l : list string) (c k : nat) (w : string).

Lemma get_next_workers_app a b (self : RoundRobinLoadBalancer) :
  get_next_workers (a + b) self =
  let '(o1, s1) := get_next_workers a self in
  let '(o2, s2) := get_next_workers b s1 in
  ((o1 ++ o2)%list, s2).
Proof.
  revert self. induction a as [|a IH]; intros self; simpl.
  - by destruct (get_next_workers b self).
  - destruct (get_next_worker self) as [r s1]. rewrite IH.
    destruct (get_next_workers a s1) as [o1 s2].
    by destruct (get_next_workers b s2).
Qed.

Lemma get_next_worker_at l c x :
  l !! c = Some x ->
  get_next_worker (mkLB l c) = (Some x, mkLB l ((c + 1) mod length l)).
Proof.
  intros Hx. pose proof (lookup_lt_Some _ _ _ Hx) as Hlt.
  unfold get_next_worker. simpl. destruct l as [|y l']; [done|].
  destruct (decide _) as [Hle|_]; [simpl in *; lia|]. by rewrite Hx.
Qed.

(** From the cursor [c], the next calls walk the list to its end. *)
Lemma get_next_workers_tail l k c :
  c < length l -> c + k <= length l ->
  get_next_workers k (mkLB l c) =
  (Some <$> take k (drop c l), mkLB l ((c + k) mod length l)).
Proof.
  revert c. induction k as [|k IH]; intros c Hc Hk.
  - simpl. rewrite Nat.add_0_r. by rewrite Nat.mod_small.
  - destruct (lookup_lt_is_Some_2 l c Hc) as [x Hx].
    cbn [get_next_workers]. rewrite (get_next_worker_at l c x Hx).
    rewrite (drop_S l x c Hx). cbn [take fmap list_fmap].
    destruct (decide (c + 1 = length l)) as [Hend|Hmid].
    + assert (k = 0) as -> by lia. rewrite Hend, Nat.Div0.mod_same. simpl.
      done.
    + rewrite (Nat.mod_small (c + 1)) by lia.
      rewrite IH by lia. replace (c + 1 + k) with (c + S k) by lia.
      by replace (S c) with (c + 1) by lia.
Qed.

Lemma get_next_workers_turn l k c :
  c < length l -> k <= length l ->
  get_next_workers k (mkLB l c) =
  (Some <$> take k (turn c l), mkLB l ((c + k) mod length l)).
Proof.
  intros Hc Hk. unfold turn.
  destruct (decide (c + k <= length l)) as [Hle|Hgt].
  - rewrite get_next_workers_tail by done.
    by rewrite take_app_le by (rewrite length_drop; lia).
  - replace k with ((length l - c) + (k - (length l - c))) at 1 by lia.
    rewrite get_next_workers_app.
    rewrite get_next_workers_tail by lia.
    replace (c + (length l - c)) with (length l) by lia.
    rewrite Nat.Div0.mod_same.
    rewrite get_next_workers_tail by lia.
    rewrite drop_0, Nat.add_0_l.
    rewrite (take_ge (drop c l)) by (rewrite length_drop; lia).
    rewrite take_app_ge by (rewrite length_drop; lia).
    rewrite length_drop, take_take, fmap_app.
    rewrite Nat.min_l by lia.
    f_equal. f_equal.
    replace (c + k) with ((k - (length l - c)) + 1 * length l) by lia.
    by rewrite Nat.Div0.mod_add.
Qed.

Lemma times_app w (o1 o2 : list (option string)) :
  times w (o1 ++ o2) = times w o1 + times w o2.
Proof. unfold times. by rewrite List.filter_app, length_app. Qed.

Lemma times_notin w l : w ∉ l -> times w (Some <$> l) = 0.
Proof.
  induction l as [|x l IH]; [done|]. rewrite not_elem_of_cons. intros [Hne Hl].
  unfold times in *. simpl. rewrite bool_decide_eq_false_2 by congruence. auto.
Qed.

Lemma times_NoDup_le w l : NoDup l -> times w (Some <$> l) <= 1.
Proof.
  induction 1 as [|x l Hx Hl IH]; [unfold times; simpl; lia|].
  change (Some <$> x :: l) with ([Some x] ++ (Some <$> l))%list. rewrite times_app.
  destruct (decide (x = w)) as [->|Hne].
  - rewrite (times_notin w l) by done. unfold times. simpl.
    rewrite bool_decide_eq_true_2 by done. simpl. lia.
  - unfold times at 1. simpl. rewrite bool_decide_eq_false_2 by congruence. simpl. lia.
Qed.

Lemma times_NoDup_in w l : NoDup l -> w ∈ l -> times w (Some <$> l) = 1.
Proof.
  induction 1 as [|x l Hx Hl IH]; [intros ?%elem_of_nil; done|].
  change (Some <$> x :: l) with ([Some x] ++ (Some <$> l))%list. rewrite times_app.
  intros [<-|Hin]%elem_of_cons.
  - rewrite (times_notin w l) by done. unfold times. simpl.
    by rewrite bool_decide_eq_true_2.
  - rewrite IH by done. unfold times. simpl.
    rewrite bool_decide_eq_false_2; [done|]. intros [= ->]. done.
Qed.

Lemma turn_Permutation c l : turn c l ≡ₚ l.
Proof.
  unfold turn. rewrite (Permutation_app_comm (drop c l)). by rewrite take_drop.
Qed.

(** [k] calls from the cursor [c]: the worker [w] of the list is answered
    [k / N] times, or once more; exactly [k / N] times when [N] divides [k]. *)
Lemma times_get_next_workers l c w k :
  NoDup l -> w ∈ l -> c < length l ->
  let n := times w (fst (get_next_workers k (mkLB l c))) in
  k / length l <= n <= k / length l + 1
  /\ (k mod length l = 0 -> n = k / length l).
Proof.
  intros Hnd Hw Hc. simpl.
  induction k as [k IH] using lt_wf_ind.
  destruct (decide (k < length l)) as [Hlt|Hge].
  - rewrite get_next_workers_turn by lia. simpl.
    rewrite Nat.div_small by lia. rewrite (Nat.mod_small k) by lia.
    assert (NoDup (take k (turn c l))) as Hnd'.
    { eapply sublist_NoDup; [|apply sublist_take]. by rewrite turn_Permutation. }
    pose proof (times_NoDup_le w _ Hnd'). split; [lia|].
    intros ->. done.
  - assert (get_next_workers k (mkLB l c) =
            let '(o2, s2) := get_next_workers (k - length l) (mkLB l c) in
            (((Some <$> turn c l) ++ o2)%list, s2)) as ->.
    { replace k with (length l + (k - length l)) at 1 by lia.
      rewrite get_next_workers_app.
      rewrite (get_next_workers_turn l (length l) c) by lia.
      replace (c + length l) with (c + 1 * length l) by lia.
      rewrite Nat.Div0.mod_add, (Nat.mod_small c) by lia.
      rewrite take_ge; [done|].
      unfold turn. rewrite length_app, length_drop, length_take. lia. }
    destruct (IH (k - length l)) as [Hb Hz]; [lia|].
    destruct (get_next_workers (k - length l) (mkLB l c)) as [o2 s2]. simpl in *.
    rewrite times_app.
    rewrite times_NoDup_in; [|by rewrite turn_Permutation|by rewrite turn_Permutation].
    assert (k / length l = 1 + (k - length l) / length l) as Hq.
    { replace k with ((k - length l) + 1 * length l) at 1 by lia.
      rewrite Nat.div_add by lia. lia. }
    assert (k mod length l = (k - length l) mod length l) as Hr.
    { replace k with ((k - length l) + 1 * length l) at 1 by lia.
      by rewrite Nat.Div0.mod_add. }
    rewrite Hq, Hr. split; [lia|]. intros Hz'. rewrite (Hz Hz'). done.
Qed.

Lemma update_workers_spec ws (b0 : RoundRobinLoadBalancer) :
  exists c, update_workers ws b0 = mkLB (sorted ws) c
            /\ (sorted ws <> [] -> c < length (sorted ws)).
Proof.
  unfold update_workers. destruct (decide _) as [Hle|Hgt].
  - exists 0. split; [done|]. destruct (sorted ws); [done|simpl; lia].
  - exists (current_index b0). split; [done|lia].
Qed.

Lemma sorted_Permutation ws : sorted ws ≡ₚ ws.
Proof. apply merge_sort_Permutation. Qed.

Lemma get_next_worker_None (b : RoundRobinLoadBalancer) :
  fst (get_next_worker b) = None <-> workers b = [].
Proof.
  unfold get_next_worker. destruct (workers b) as [|x l] eqn:E; [done|].
  split; [|done].
  destruct (decide _) as [Hle|Hgt]; [done|].
  destruct (lookup_lt_is_Some_2 (x :: l) (current_index b)) as [y ->]; [lia|done].
Qed.

(** S4 of the specification: three workers, six dispatches. *)
Lemma round_robin_scenario :
  fst (get_next_workers 6
         (update_workers ["localhost_60002"; "localhost_60003"; "localhost_60001"] init))
  = [ Some "localhost_60001"; Some "localhost_60002"; Some "localhost_60003";
      Some "localhost_60001"; Some "localhost_60002"; Some "localhost_60003" ].
Proof. vm_compute. reflexivity. Qed.

(** C6. After [update_workers] installs a non-empty list of [N] distinct
    worker ids, [K] calls of [get_next_worker] in a row answer each worker
    either floor(K/N) or ceil(K/N) times (for every [K], so for [K >= N]);
    and [get_next_worker] answers [None] exactly when the installed list is
    empty.  Worker ids are the keys of the worker table, hence distinct. *)
Theorem round_robin_fairness (ws : list string) (b0 : RoundRobinLoadBalancer) (K : nat) :
  NoDup ws -> ws <> [] ->
  (forall w, w ∈ ws ->
     times w (fst (get_next_workers K (update_workers ws b0))) = K / length ws
     \/ times w (fst (get_next_workers K (update_workers ws b0)))
        = (K + length ws - 1) / length ws)
  /\ (forall ws' b', fst (get_next_worker (update_workers ws' b')) = None <-> ws' = []).
Proof.
  intros Hnd Hne. split.
  - intros w Hw.
    destruct (update_workers_spec ws b0) as (c & -> & Hc).
    pose proof (sorted_Permutation ws) as Hp.
    assert (length (sorted ws) = length ws) as Hlen by by rewrite Hp.
    assert (length ws <> 0) as Hpos by (destruct ws; simpl; [done|lia]).
    destruct (times_get_next_workers (sorted ws) c w K) as [Hb Hz].
    { by rewrite Hp. } { by rewrite Hp. }
    { apply Hc. intros E. rewrite E in Hlen. simpl in Hlen. lia. }
    rewrite Hlen in *.
    set (n := times w _) in *. clearbody n.
    destruct (decide (K mod length ws = 0)) as [Hr|Hr]; [left; auto|].
    assert ((K + length ws - 1) / length ws = K / length ws + 1) as ->; [|lia].
    symmetry. apply (Nat.div_unique _ _ _ (K mod length ws - 1)).
    + pose proof (Nat.mod_upper_bound K (length ws) Hpos). lia.
    + pose proof (Nat.div_mod_eq K (length ws)). lia.
  - intros ws' b'. rewrite get_next_worker_None.
    destruct (update_workers_spec ws' b') as (c & -> & _). simpl.
    pose proof (sorted_Permutation ws') as Hp. split.
    + intros E. rewrite E in Hp. by apply Permutation_nil_l in Hp.
    + intros ->. done.
Qed.

(** Seven dispatches over three workers: each is chosen 2 or 3 times. *)
Lemma round_robin_fairness_witness :
  (forall w, w ∈ ["localhost_60002"; "localhost_60003"; "localhost_60001"] ->
     times w (fst (get_next_workers 7
        (update_workers ["localhost_60002"; "localhost_60003"; "localhost_60001"] init)))
     = 7 / 3
     \/ times w (fst (get_next_workers 7
        (update_workers ["localhost_60002"; "localhost_60003"; "localhost_60001"] init)))
        = (7 + 3 - 1) / 3)
  /\ (forall ws' b', fst (get_next_worker (update_workers ws' b')) = None <-> ws' = []).
Proof.
  apply (round_robin_fairness
           ["localhost_60002"; "localhost_60003"; "localhost_60001"] init 7).
  - apply (bool_decide_unpack (NoDup _)). vm_compute. exact I.
  - discriminate.
Defined.

End RoundRobin.

(** ** Client endpoint and the events of a primary *)
Section Primary.
Context `{Interpreter}.
Import main.

(** Unfolds the monadic plumbing of a method body. *)
Ltac run_body :=
  unfold mbind, M_bind, mret, M_ret, raise, gets, modify, typed, untyped,
    on_store, getitem, log_only in *; simpl in *.

Lemma handle_submit_task_spec request uuid self :
  exists token,
    dict_get "token" request = Some token /\
    handle_submit_task request uuid self =
    (let '(ts, c) := lamport_clock.increment (lamport_clock self) in
     let t := models.new_Task uuid (get_user_from_token token)
                (get_or "data" (JDict []) request) ts in
     let '(l, s1) := state_manager.alloc t (state_manager self) in
     (set_state_manager (state_manager.add_task l s1) (set_lamport_clock c self),
      Ret (Some (JDict [ ("status", JStr "Tarefa recebida"); ("task_id", JStr uuid) ]))))
  \/ dict_get "token" request = None /\
     handle_submit_task request uuid self = (self, Exc KeyError).
Proof.
  unfold handle_submit_task. run_body.
  destruct (dict_get "token" request) as [token|] eqn:E.
  - exists token. left. split; [done|]. done.
  - exists JNull. right. done.
Qed.

Ltac crunch := repeat (run_body; first [ case_match | progress simplify_eq/= ]).

(** The answer that accepts a submission. *)
Local Abbreviation accepted i :=
  (Ret (Some (JDict [ ("status", JStr "Tarefa recebida"); ("task_id", JStr i) ]))).

Lemma handle_login_pure request self self1 r :
  handle_login request self = (self1, r) -> self1 = self /\ forall i, r <> accepted i.
Proof.
  unfold handle_login, USERS_get. intros Hs. crunch; split; done.
Qed.

Lemma handle_task_status_pure request self self1 r :
  handle_task_status request self = (self1, r) -> self1 = self /\ forall i, r <> accepted i.
Proof.
  unfold handle_task_status, state_manager.get_task_status, models.to_dict, error.
  intros Hs. crunch; split; try done.
  all: intros i Hi; simplify_eq/=.
  all: repeat match goal with
       | Hx : context [dict_get ?k ?d] |- _ => destruct (dict_get k d); simpl in Hx
       | Hx : context [?h !! ?l] |- _ => destruct (h !! l); simpl in Hx
       end; simplify_eq.
Qed.

Lemma handle_worker_message_clock message addr now self self1 r :
  handle_worker_message message addr now self = (self1, r) ->
  lamport_clock self1 = lamport_clock self.
Proof. unfold handle_worker_message. intros Hs. crunch; done. Qed.

Lemma monitor_workers_clock now self self1 r :
  monitor_workers now self = (self1, r) -> lamport_clock self1 = lamport_clock self.
Proof. unfold monitor_workers. intros Hs. crunch; done. Qed.

Lemma distribute_fetch_clock self self1 r :
  distribute_fetch self = (self1, r) -> lamport_clock self1 = lamport_clock self.
Proof. unfold distribute_fetch. intros Hs. crunch; done. Qed.

Lemma distribute_route_clock net self self1 r :
  distribute_route net self = (self1, r) -> lamport_clock self1 = lamport_clock self.
Proof.
  unfold distribute_route, try_except, assign. intros Hs. crunch; done.
Qed.

Lemma quiet_step {A} (c : M Orchestrator A) self s1 r1 :
  (forall s2 r2, c self = (s2, r2) -> lamport_clock s2 = lamport_clock self) ->
  (c;; mret None) self = (s1, r1) ->
  lamport_clock s1 = lamport_clock self /\ forall i, r1 <> accepted i.
Proof.
  intros Hc Hrun. run_body.
  destruct (c self) as [s2 [a| |]] eqn:E; simplify_eq/=;
    (split; [by eapply Hc|done]).
Qed.

Lemma step_submission e self self1 r :
  step e self = (self1, r) ->
  (lamport_clock.time (lamport_clock self)
   <= lamport_clock.time (lamport_clock self1))%Z
  /\ forall i,
       r = accepted i ->
       lamport_ts_of i self1 = Some (lamport_clock.time (lamport_clock self1))
       /\ (lamport_clock.time (lamport_clock self)
           < lamport_clock.time (lamport_clock self1))%Z.
Proof.
  intros Hs.
  destruct e as [request uuid|message addr now|now| |net]; simpl in Hs.
  - unfold handle_client in Hs.
    destruct request as [| | | | |xs|kvs]; crunch;
      try (split; [lia|intros; discriminate]).
    + apply handle_login_pure in Hs as [-> Hr]. split; [lia|]. intros i ->. by destruct (Hr i).
    + destruct (handle_submit_task_spec kvs uuid o) as (tok & [[Htok Hrun]|[Htok Hrun]]);
        [|congruence]. rewrite Hrun in Hs.
      cbn zeta in Hs. unfold lamport_clock.increment in Hs. cbn zeta in Hs.
      unfold state_manager.alloc, state_manager.add_task in Hs. simpl in Hs.
      rewrite list_lookup_middle in Hs by done. simplify_eq/=. split; [lia|].
      intros i [= <-]. split; [|lia].
      unfold lamport_ts_of. simpl. rewrite dict_get_set_eq. simpl.
      by rewrite list_lookup_middle.
    + apply handle_task_status_pure in Hs as [-> Hr]. split; [lia|]. intros i ->. by destruct (Hr i).
  - eapply quiet_step in Hs as [-> Hr]; [|intros; by eapply handle_worker_message_clock].
    split; [lia|]. intros i ->. by destruct (Hr i).
  - eapply quiet_step in Hs as [-> Hr]; [|intros; by eapply monitor_workers_clock].
    split; [lia|]. intros i ->. by destruct (Hr i).
  - eapply quiet_step in Hs as [-> Hr]; [|intros; by eapply distribute_fetch_clock].
    split; [lia|]. intros i ->. by destruct (Hr i).
  - eapply quiet_step in Hs as [-> Hr]; [|intros; by eapply distribute_route_clock].
    split; [lia|]. intros i ->. by destruct (Hr i).
Qed.

Lemma accepted_id_Some r i : accepted_id r = Some i -> r = accepted i.
Proof.
  unfold accepted_id. intros Hr.
  repeat (case_match; simplify_eq/=).
  repeat match goal with
         | Hx : _ && _ = true |- _ => apply andb_true_iff in Hx as [? ?]
         | Hx : String.eqb _ _ = true |- _ => apply String.eqb_eq in Hx
         end.
  by subst.
Qed.

Lemma submitted_ts_above es self :
  Forall (fun t => (lamport_clock.time (lamport_clock self) < t)%Z) (submitted_ts es self).
Proof.
  revert self. induction es as [|e es IH]; intros self; simpl; [constructor|].
  destruct (step e self) as [self1 r] eqn:Hs.
  destruct (step_submission e self self1 r Hs) as [Hle Hacc].
  assert (Forall (fun t => (lamport_clock.time (lamport_clock self) < t)%Z)
                 (submitted_ts es self1)) as Hrest.
  { eapply Forall_impl; [apply IH|]. simpl. intros; lia. }
  destruct (accepted_id r) as [i|] eqn:Hr; simpl; [|exact Hrest].
  apply accepted_id_Some in Hr. destruct (Hacc i Hr) as [-> Hlt]. by constructor.
Qed.

Lemma submitted_ts_sorted es self : StronglySorted Z.lt (submitted_ts es self).
Proof.
  revert self. induction es as [|e es IH]; intros self; simpl; [constructor|].
  destruct (step e self) as [self1 r] eqn:Hs.
  destruct (step_submission e self self1 r Hs) as [Hle Hacc].
  destruct (accepted_id r) as [i|] eqn:Hr; simpl; [|apply IH].
  apply accepted_id_Some in Hr. destruct (Hacc i Hr) as [-> Hlt].
  constructor; [apply IH | apply submitted_ts_above].
Qed.

(** Two submissions by [user1], a heartbeat between them: timestamps 1 and 2. *)
Lemma submitted_ts_example :
  let submit uuid :=
    ClientRequest (JDict [ ("action", JStr "submit_task");
                           ("token", JStr (expected_token "user1"));
                           ("data", JDict [ ("duration", JInt 1) ]) ]) uuid in
  submitted_ts
    [ submit "u1";
      WorkerMessage (JDict [ ("type", JStr "heartbeat"); ("worker_id", JStr "localhost_60001") ])
                    (state_manager.SockAddr "127.0.0.1" 40000) 100%float;
      submit "u2" ] init
  = [1%Z; 2%Z].
Proof.
  assert (verify_token (JStr (sha256_hexdigest ("user1" +:+ config.SECRET_KEY))) = true)
    as Hv.
  { unfold verify_token, expected_token. simpl. by rewrite String.eqb_refl. }
  unfold expected_token.
  repeat first [ rewrite Hv | progress run_body | progress unfold handle_submit_task ].
  reflexivity.
Qed.

(** C5. The timestamps returned by any number of [increment()] calls in a row
    on one Lamport clock are strictly increasing; and so are the [lamport_ts]
    given to the submissions one orchestrator accepts, whatever other requests,
    worker messages, monitor turns and dispatch steps come in between. *)
Theorem lamport_timestamps_strictly_increase :
  (forall n c, StronglySorted Z.lt (fst (lamport_clock.increments n c)))
  /\ (forall es self, StronglySorted Z.lt (submitted_ts es self)).
Proof. split; [apply increments_sorted | apply submitted_ts_sorted]. Qed.

(** *** Authentication *)

(** A login whose [username] and [password] are both strings is answered with
    the token of the user exactly when [USERS] maps the one to the other, and
    with "Credenciais inválidas" otherwise. *)
Lemma login_with_credentials kvs u p uuid self :
  dict_get "token" kvs = None ->
  dict_get "action" kvs = Some (JStr "login") ->
  dict_get "username" kvs = Some (JStr u) ->
  dict_get "password" kvs = Some (JStr p) ->
  handle_client (JDict kvs) uuid self =
  (self, Ret (Some (if bool_decide (dict_get u config.USERS = Some p)
                    then JDict [ ("token", JStr (expected_token u)) ]
                    else error "Credenciais inválidas"))).
Proof.
  intros Ht Ha Hu Hp. unfold handle_client, dict_mem, handle_login, get_or.
  rewrite Ht, Ha, Hu, Hp. unfold USERS_get, expected_token.
  generalize (dict_get u config.USERS). intros stored. simpl. run_body.
  destruct stored as [pw|]; simpl; [|done].
  destruct (String.eqb p pw) eqn:Epw.
  - apply String.eqb_eq in Epw; subst. by rewrite bool_decide_eq_true_2.
  - apply String.eqb_neq in Epw. rewrite bool_decide_eq_false_2; [done|congruence].
Qed.

(** A request without a [token] that is no login is refused. *)
Lemma request_without_token kvs uuid self :
  dict_get "token" kvs = None ->
  eq_str (get_or "action" JNull kvs) "login" = false ->
  handle_client (JDict kvs) uuid self
  = (self, Ret (Some (error "Autenticação necessária"))).
Proof.
  intros Ht Ha. unfold handle_client, dict_mem. rewrite Ht, Ha. done.
Qed.

(** A request whose [token] is the token of no user is refused, whatever its
    action. *)
Lemma request_with_unknown_token kvs token uuid self :
  dict_get "token" kvs = Some token ->
  (forall user, user ∈ dict_keys config.USERS -> token <> JStr (expected_token user)) ->
  handle_client (JDict kvs) uuid self
  = (self, Ret (Some (error "Token inválido ou expirado"))).
Proof.
  intros Ht Hno. unfold handle_client, dict_mem. rewrite Ht. simpl. run_body.
  rewrite Ht.
  assert (verify_token token = false) as ->; [|done].
  unfold verify_token. apply not_true_is_false. intros Hex.
  apply existsb_exists in Hex as (user & Hin & Heq).
  apply (Hno user); [by apply list_elem_of_In|].
  destruct token; simpl in Heq; try done. apply String.eqb_eq in Heq. by subst.
Qed.

(** C9, at the input where it fails.  [USERS] has no user "ghost", and the
    login request names no password: [USERS.get("ghost")] and
    [request.get("password")] are both [None], the comparison holds, and the
    endpoint answers with a token for "ghost" instead of
    "Credenciais inválidas". *)
Theorem login_without_password_yields_token (uuid : string) (self : Orchestrator) :
  dict_get "ghost" config.USERS = None
  /\ handle_client (JDict [ ("action", JStr "login"); ("username", JStr "ghost") ]) uuid self
     = (self, Ret (Some (JDict [ ("token", JStr (expected_token "ghost")) ]))).
Proof. split; reflexivity. Qed.

End Primary.

(** ** Replication snapshots *)
Section Snapshots.
Import state_manager.
Context {bytes : Type} `{JsonCodec bytes}.

Ltac run_body :=
  unfold mbind, M_bind, mret, M_ret, raise, gets, modify, typed, untyped,
    on_state, on_clock, getitem, items, log_only in *; simpl in *.

Lemma Task_init_to_dict (t : models.Task) (w : world) :
  models.Task_init (models.to_dict t) w = (w, Ret t).
Proof.
  destruct t as [i c st d ts aw r]. unfold models.Task_init, models.to_dict. simpl.
  destruct aw; reflexivity.
Qed.

Lemma traverse_to_dict (l : list (string * models.Task)) (w : world) :
  traverse (fun kv => t ← models.Task_init (snd kv); mret (fst kv, t))
           (map (fun kt => (fst kt, models.to_dict (snd kt))) l) w
  = (w, Ret l).
Proof.
  induction l as [|[k t] l IH]; [done|].
  cbn [map traverse fst snd]. unfold mbind, M_bind, mret, M_ret in *. cbv beta in *.
  rewrite Task_init_to_dict. cbv beta iota. rewrite IH. done.
Qed.

Lemma as_str_list_JStr (p : list string) : as_str_list (JList (map JStr p)) = Some p.
Proof.
  unfold as_str_list. apply mapM_Some_2.
  induction p as [|x p IH]; constructor; done.
Qed.

Lemma as_workers_to_json (ws : list (string * worker)) :
  as_workers (JDict (map (fun kw => (fst kw, worker_to_json (snd kw))) ws))
  = Some (map (fun kw => (fst kw, reloaded (snd kw))) ws).
Proof.
  unfold as_workers. apply mapM_Some_2.
  induction ws as [|[k w] ws IH]; constructor; done.
Qed.

(** The objects [install_tasks] creates go to the end of the store, in
    order; the table maps each key to its object. *)
Lemma install_fold (new : list (string * models.Task)) (s : StateManager) :
  NoDup (dict_keys (tasks s) ++ dict_keys new) ->
  fold_left
    (fun s kt => let '(l, s1) := alloc (snd kt) s in
                 set_tasks (dict_set (fst kt) l (tasks s1)) s1)
    new s
  = mkState (heap s ++ map snd new)
            (tasks s ++ zip (map fst new) (seq (length (heap s)) (length new)))
            (pending_tasks s) (workers s).
Proof.
  revert s. induction new as [|[k t] new IH]; intros s Hnd.
  - simpl. rewrite !app_nil_r. by destruct s.
  - cbn [fold_left]. rewrite IH.
    + unfold alloc, set_tasks, set_heap. cbn.
      rewrite dict_set_fresh.
      * rewrite length_app, <- !app_assoc. cbn. by rewrite Nat.add_1_r.
      * apply dict_get_None. unfold dict_keys in *. cbn in Hnd.
        apply NoDup_app in Hnd as (_ & Hdis & _). intros Hin.
        apply (Hdis k Hin). left.
    + unfold alloc, set_tasks, set_heap. cbn.
      rewrite dict_set_fresh.
      * unfold dict_keys in *. rewrite map_app. cbn.
        rewrite <- app_assoc. exact Hnd.
      * apply dict_get_None. unfold dict_keys in *. cbn in Hnd.
        apply NoDup_app in Hnd as (_ & Hdis & _). intros Hin.
        apply (Hdis k Hin). left.
Qed.

Lemma task_items_installed (new : list (string * models.Task)) (h : list models.Task) :
  omap (fun kl : string * nat => t ← (h ++ map snd new)%list !! snd kl; Some (fst kl, t))
       (zip (map fst new) (seq (length h) (length new)))
  = new.
Proof.
  revert h. induction new as [|[k t] new IH]; intros h; [done|].
  cbn. rewrite list_lookup_middle by done. cbn. f_equal.
  specialize (IH (h ++ [t])%list). rewrite length_app, <- app_assoc in IH. cbn in IH.
  rewrite Nat.add_1_r in IH. exact IH.
Qed.

Lemma task_items_install_tasks (new : list (string * models.Task)) (s : StateManager) :
  NoDup (dict_keys new) ->
  task_items (install_tasks new s) = new
  /\ pending_tasks (install_tasks new s) = pending_tasks s
  /\ workers (install_tasks new s) = workers s.
Proof.
  intros Hnd. unfold install_tasks. rewrite install_fold by done.
  unfold task_items. cbn. split; [|done]. apply task_items_installed.
Qed.

Lemma task_items_NoDup (s : StateManager) :
  NoDup (dict_keys (tasks s)) -> NoDup (dict_keys (task_items s)).
Proof.
  unfold task_items, dict_keys. generalize (heap s). intros h.
  induction (tasks s) as [|[k l] d IH]; cbn; [constructor|].
  rewrite NoDup_cons. intros [Hk Hd]. destruct (h !! l) as [t|]; cbn; [|auto].
  apply NoDup_cons. split; [|auto].
  intros Hin. apply Hk. apply list_elem_of_fmap in Hin as ([k' t'] & -> & Hin).
  apply list_elem_of_omap in Hin as ([k2 l2] & Hin2 & Heq).
  cbn in Heq. destruct (h !! l2); simplify_eq/=.
  apply list_elem_of_fmap. by exists (k', l2).
Qed.

(** [max_ts] is an upper bound of the timestamps, and one of them or 0. *)
Lemma max_lamport_ts_spec (ts : list models.Task) :
  Forall (fun t => (models.lamport_ts t <= max_lamport_ts ts)%Z) ts
  /\ (max_lamport_ts ts = 0%Z
      \/ exists t, t ∈ ts /\ models.lamport_ts t = max_lamport_ts ts).
Proof.
  unfold max_lamport_ts.
  assert (forall m0,
    let m := fold_left (fun max_ts task =>
               if (max_ts <? models.lamport_ts task)%Z
               then models.lamport_ts task else max_ts) ts m0 in
    (m0 <= m)%Z /\ Forall (fun t => (models.lamport_ts t <= m)%Z) ts
    /\ (m = m0 \/ exists t, t ∈ ts /\ models.lamport_ts t = m)) as Hgen.
  { induction ts as [|t ts IH]; intros m0; cbn.
    - split; [lia|]. split; [constructor|by left].
    - destruct (IH (if (m0 <? models.lamport_ts t)%Z then models.lamport_ts t else m0))
        as (Hle & Hall & Hor).
      destruct (Z.ltb_spec m0 (models.lamport_ts t)).
      + split; [lia|]. split; [constructor; [lia|done]|].
        right. destruct Hor as [->|(t' & Hin & <-)].
        * exists t. split; [left|done].
        * exists t'. split; [by right|done].
      + split; [lia|]. split; [constructor; [lia|done]|].
        destruct Hor as [->|(t' & Hin & <-)]; [by left|].
        right. exists t'. split; [by right|done]. }
  destruct (Hgen 0%Z) as (_ & Hall & Hor). split; [exact Hall|exact Hor].
Qed.

Lemma load_state_snapshot_decoded (b : bytes) (state : json) (w0 : world) :
  json_loads b = Decoded state ->
  load_state_snapshot b w0 =
  try_except
    (tasks_json ← getitem state "tasks";
     tasks_items ← items tasks_json;
     new ← traverse (fun kv => t ← models.Task_init (snd kv); mret (fst kv, t)) tasks_items;
     on_state (install_tasks new);;
     pending_json ← getitem state "pending_tasks";
     pending ← typed (as_str_list pending_json);
     on_state (set_pending_tasks pending);;
     workers_json ← getitem state "workers";
     ws ← typed (as_workers workers_json);
     on_state (set_workers ws);;
     max_ts ← gets (fun w => max_lamport_ts (map snd (task_items (fst w))));
     on_clock (lamport_clock.set_time max_ts))
    [JSONDecodeError; KeyError] log_only w0.
Proof.
  intros Hb. unfold load_state_snapshot, try_except, loads. rewrite Hb.
  unfold mbind at 1, M_bind at 1. unfold mret at 1, M_ret at 1. done.
Qed.

Lemma snapshot_round_trip_state `{!JsonRoundTrip bytes} (S : StateManager) (w0 : world) :
  NoDup (dict_keys (tasks S)) ->
  load_state_snapshot (get_state_snapshot S) w0
  = ((set_workers (map (fun kw => (fst kw, reloaded (snd kw))) (workers S))
        (set_pending_tasks (pending_tasks S)
           (install_tasks (task_items S) (fst w0))),
      lamport_clock.mkClock (max_lamport_ts (map snd (task_items S)))),
     Ret tt).
Proof.
  intros Hnd.
  rewrite (load_state_snapshot_decoded _ (snapshot_dict S)) by apply loads_dumps.
  apply try_except_ret. unfold snapshot_dict.
  erewrite bind_run by reflexivity.
  erewrite bind_run by reflexivity.
  erewrite bind_run by apply traverse_to_dict.
  erewrite bind_run by reflexivity.
  erewrite bind_run by reflexivity.
  erewrite bind_run by (rewrite as_str_list_JStr; reflexivity).
  erewrite bind_run by reflexivity.
  erewrite bind_run by reflexivity.
  erewrite bind_run by (rewrite as_workers_to_json; reflexivity).
  erewrite bind_run by reflexivity.
  erewrite bind_run by reflexivity.
  unfold on_clock, modify. cbn [fst snd].
  change (task_items (set_workers ?a (set_pending_tasks ?b ?X))) with (task_items X).
  destruct (task_items_install_tasks (task_items S) (fst w0)) as (-> & _ & _);
    [by apply task_items_NoDup|].
  reflexivity.
Qed.

(** C4, amended.  Loading the snapshot of a store [S] (whose task table has
    distinct keys, as every dictionary has) into any store succeeds and yields
    a store with the tasks and the pending queue of [S]; its workers are those
    of [S] with every address tuple turned into the list [json.dumps] wrote
    for it; and the clock is set to the greatest [lamport_ts] of the tasks of
    [S], or to 0 when no task has a positive one. *)
Theorem snapshot_round_trip `{!JsonRoundTrip bytes} (S : StateManager) (w0 : world) :
  NoDup (dict_keys (tasks S)) ->
  exists (S' : StateManager) (max_ts : Z),
    load_state_snapshot (get_state_snapshot S) w0
    = ((S', lamport_clock.mkClock max_ts), Ret tt)
    /\ task_items S' = task_items S
    /\ pending_tasks S' = pending_tasks S
    /\ workers S' = map (fun kw => (fst kw, reloaded (snd kw))) (workers S)
    /\ Forall (fun t => (models.lamport_ts t <= max_ts)%Z) (map snd (task_items S))
    /\ (max_ts = 0%Z
        \/ exists t, t ∈ map snd (task_items S) /\ models.lamport_ts t = max_ts).
Proof.
  intros Hnd. eexists _, _. split; [by apply snapshot_round_trip_state|].
  destruct (task_items_install_tasks (task_items S) (fst w0)) as (Ht & Hp & Hw);
    [by apply task_items_NoDup|].
  destruct (max_lamport_ts_spec (map snd (task_items S))) as [Hall Hor].
  repeat split; try done.
Qed.

(** *** Snapshots that are rejected, and one that is not *)

Lemma load_state_snapshot_not_json (b : bytes) (w0 : world) :
  json_loads b = NotJson -> load_state_snapshot b w0 = (w0, Ret tt).
Proof. intros Hb. unfold load_state_snapshot, try_except, loads. by rewrite Hb. Qed.

Lemma load_state_snapshot_not_utf8 (b : bytes) (w0 : world) :
  json_loads b = NotUtf8 -> load_state_snapshot b w0 = (w0, Exc UnicodeDecodeError).
Proof. intros Hb. unfold load_state_snapshot, try_except, loads. by rewrite Hb. Qed.

Lemma load_state_snapshot_without_tasks (b : bytes) kvs (w0 : world) :
  json_loads b = Decoded (JDict kvs) -> dict_get "tasks" kvs = None ->
  load_state_snapshot b w0 = (w0, Ret tt).
Proof.
  intros Hb Hk. rewrite (load_state_snapshot_decoded _ _ _ Hb).
  erewrite try_except_exc by (apply bind_exc; unfold getitem; by rewrite Hk).
  reflexivity.
Qed.

(** A snapshot with [tasks] and without [pending_tasks]: the task table has
    been replaced when the KeyError is raised, and stays so. *)
Lemma load_state_snapshot_without_pending_tasks (b : bytes) kvs (w0 : world) :
  json_loads b = Decoded (JDict kvs) ->
  dict_get "tasks" kvs = Some (JDict []) ->
  dict_get "pending_tasks" kvs = None ->
  load_state_snapshot b w0 = ((set_tasks [] (fst w0), snd w0), Ret tt).
Proof.
  intros Hb Ht Hp. rewrite (load_state_snapshot_decoded _ _ _ Hb).
  erewrite try_except_exc; cycle 1.
  { erewrite bind_run by (unfold getitem; rewrite Ht; reflexivity).
    erewrite bind_run by reflexivity.
    erewrite bind_run by reflexivity.
    erewrite bind_run by reflexivity.
    apply bind_exc. unfold getitem. rewrite Hp. reflexivity. }
  reflexivity.
Qed.

End Snapshots.

#[global] Instance denoted_bytes_round_trip : JsonRoundTrip decoded.
Proof. intros v. reflexivity. Qed.

(** The sample store, loaded from its own snapshot into an empty store. *)
Lemma snapshot_round_trip_witness :
  exists (S' : state_manager.StateManager) (max_ts : Z),
    state_manager.load_state_snapshot
      (state_manager.get_state_snapshot sample.store)
      (state_manager.init, lamport_clock.init)
    = ((S', lamport_clock.mkClock max_ts), Ret tt)
    /\ state_manager.task_items S' = state_manager.task_items sample.store
    /\ state_manager.pending_tasks S' = state_manager.pending_tasks sample.store
    /\ state_manager.workers S'
       = map (fun kw => (fst kw, state_manager.reloaded (snd kw)))
             (state_manager.workers sample.store)
    /\ Forall (fun t => (models.lamport_ts t <= max_ts)%Z)
              (map snd (state_manager.task_items sample.store))
    /\ (max_ts = 0%Z
        \/ exists t, t ∈ map snd (state_manager.task_items sample.store)
                     /\ models.lamport_ts t = max_ts).
Proof.
  apply (snapshot_round_trip sample.store (state_manager.init, lamport_clock.init)).
  apply (bool_decide_unpack (NoDup _)). vm_compute. exact I.
Defined.

(** C4 as stated fails: the worker of the sample store is kept with the
    address tuple [("127.0.0.1", 40000)]; after the round trip the store holds
    the list [["127.0.0.1", 40000]] in its place, a different value. *)
Lemma snapshot_round_trip_changes_address :
  let loaded :=
    fst (fst (state_manager.load_state_snapshot
                (state_manager.get_state_snapshot sample.store)
                (state_manager.init, lamport_clock.init))) in
  state_manager.workers sample.store
  = [ ("localhost_60001",
       state_manager.mkWorker (state_manager.SockAddr "127.0.0.1" 40000) 100%float) ]
  /\ state_manager.workers loaded
     = [ ("localhost_60001",
          state_manager.mkWorker
            (state_manager.JsonAddr (JList [JStr "127.0.0.1"; JInt 40000])) 100%float) ]
  /\ state_manager.workers loaded <> state_manager.workers sample.store.
Proof.
  cbv zeta. split; [reflexivity|]. split; [reflexivity|]. intros [=].
Qed.

(** C1, at an input where it fails: the byte string [{"tasks": {}}] decodes
    to a JSON object without [pending_tasks].  The call returns normally, the
    KeyError caught; the pending queue, the workers and the clock are as before,
    but the task table is now empty, with "t1" still queued. *)
Theorem snapshot_without_pending_tasks_empties_tasks (clock : lamport_clock.LamportClock) :
  state_manager.load_state_snapshot
    (Decoded (JDict [ ("tasks", JDict []) ])) (sample.store, clock)
  = ((state_manager.mkState
        (state_manager.heap sample.store) []
        (state_manager.pending_tasks sample.store)
        (state_manager.workers sample.store), clock),
     Ret tt)
  /\ state_manager.tasks sample.store = [ ("t1", 0); ("t2", 1) ]
  /\ state_manager.pending_tasks sample.store = [ "t1" ].
Proof. split; [|split]; reflexivity. Qed.

(** ** Liveness of the workers *)
Section DeadWorkers.
Import state_manager.
Implicit Types (s : StateManager) (w : string) (l : nat) (t : models.Task).

(** What the inner loop for the worker [w] does to a task. *)
Local Abbreviation taken_from w := (fun t => if held_by w t then reset t else t).

Lemma held_by_reset w t : held_by w (reset t) = false.
Proof. unfold held_by, reset. simpl. by rewrite ?andb_false_r. Qed.

Lemma held_by_other w w' t : w <> w' -> held_by w t = true -> held_by w' t = false.
Proof.
  unfold held_by. intros Hne [Ha _]%andb_true_iff.
  apply bool_decide_eq_true in Ha. rewrite bool_decide_eq_false_2; [done|congruence].
Qed.

Lemma held_by_taken_from w w' t : w <> w' -> held_by w' (taken_from w t) = held_by w' t.
Proof.
  intros Hne. cbv beta. destruct (held_by w t) eqn:E; [|done].
  rewrite held_by_reset. symmetry. by apply (held_by_other w w' t).
Qed.

Lemma rescue_spec w s task_id l :
  tasks (rescue w s (task_id, l)) = tasks s
  /\ workers (rescue w s (task_id, l)) = workers s
  /\ heap (rescue w s (task_id, l)) = alter (taken_from w) l (heap s)
  /\ pending_tasks (rescue w s (task_id, l))
     = match heap s !! l with
       | Some t => if held_by w t then task_id :: pending_tasks s else pending_tasks s
       | None => pending_tasks s
       end.
Proof.
  unfold rescue. destruct (heap s !! l) as [t|] eqn:E.
  - destruct (held_by w t) eqn:Eh; cbn.
    + repeat split. apply list_alter_ext; [|done]. intros t' Ht'. simplify_eq. by rewrite Eh.
    + repeat split. symmetry. apply list_eq. intros i.
      destruct (decide (i = l)) as [->|Hne].
      * rewrite list_lookup_alter_eq, E. cbn. by rewrite Eh.
      * by rewrite list_lookup_alter_ne.
  - repeat split. symmetry. apply list_eq. intros i.
    destruct (decide (i = l)) as [->|Hne].
    + by rewrite list_lookup_alter_eq, E.
    + by rewrite list_lookup_alter_ne.
Qed.

(** The keys of the items of [tbl] whose task the worker holds, read in [h]. *)
Local Abbreviation holds_in h w :=
  (fun kl : string * nat =>
     match h !! snd kl with Some t => held_by w t | None => false end).

Lemma rescue_fold w (tbl : list (string * nat)) s :
  NoDup (map snd tbl) ->
  tasks (fold_left (rescue w) tbl s) = tasks s
  /\ workers (fold_left (rescue w) tbl s) = workers s
  /\ (forall l, heap (fold_left (rescue w) tbl s) !! l
                = if bool_decide (l ∈ map snd tbl)
                  then taken_from w <$> heap s !! l else heap s !! l)
  /\ pending_tasks (fold_left (rescue w) tbl s)
     = (rev (map fst (List.filter (holds_in (heap s) w) tbl)) ++ pending_tasks s)%list.
Proof.
  revert s. induction tbl as [|[task_id l] tbl IH]; intros s Hnd.
  - cbn. repeat split. 
  - cbn [map snd] in Hnd. apply NoDup_cons in Hnd as [Hl Hnd].
    cbn [fold_left].
    destruct (rescue_spec w s task_id l) as (Ht & Hw & Hh & Hp).
    destruct (IH (rescue w s (task_id, l)) Hnd) as (Ht' & Hw' & Hh' & Hp').
    split; [congruence|]. split; [congruence|]. split.
    + intros l'. rewrite Hh', Hh. cbn [map snd].
      destruct (decide (l' = l)) as [->|Hne].
      * rewrite (bool_decide_eq_false_2 (l ∈ map snd tbl)) by done.
        rewrite bool_decide_eq_true_2 by left.
        by rewrite list_lookup_alter_eq.
      * rewrite list_lookup_alter_ne by done.
        destruct (decide (l' ∈ map snd tbl)) as [Hin|Hnin].
        -- rewrite !bool_decide_eq_true_2; [done|by right|done].
        -- rewrite !bool_decide_eq_false_2; [done| |done].
           rewrite elem_of_cons. intros [?|?]; done.
    + rewrite Hp', Hp, Hh.
      assert (List.filter (holds_in (alter (taken_from w) l (heap s)) w) tbl
              = List.filter (holds_in (heap s) w) tbl) as ->.
      { apply List.filter_ext_in. intros [k l'] Hin. cbn.
        rewrite list_lookup_alter_ne; [done|]. intros ->. apply Hl.
        apply list_elem_of_fmap. exists (k, l'). split; [done|].
        by apply list_elem_of_In. }
      cbn [List.filter snd]. destruct (heap s !! l) as [t|]; [|done].
      destruct (held_by w t); [|done].
      cbn [map rev fst]. by rewrite <- app_assoc.
Qed.

Lemma holds_in_task_items w (h : list models.Task) (tbl : list (string * nat)) :
  map fst (List.filter (holds_in h w) tbl)
  = map fst (List.filter (fun kt => held_by w (snd kt))
               (omap (fun kl : string * nat => t ← h !! snd kl; Some (fst kl, t)) tbl)).
Proof.
  induction tbl as [|[k l] tbl IH]; [done|]. cbn.
  destruct (h !! l) as [t|]; cbn; [|done].
  destruct (held_by w t); cbn; by rewrite IH.
Qed.

(** One dead worker: it leaves the table, and its tasks return to the queue. *)
Lemma remove_worker_spec w s :
  NoDup (map snd (tasks s)) ->
  tasks (remove_worker s w) = tasks s
  /\ workers (remove_worker s w) = dict_del w (workers s)
  /\ (forall l, heap (remove_worker s w) !! l
                = if bool_decide (l ∈ map snd (tasks s))
                  then taken_from w <$> heap s !! l else heap s !! l)
  /\ pending_tasks (remove_worker s w) = (rev (held_ids w s) ++ pending_tasks s)%list.
Proof.
  intros Hnd. unfold remove_worker.
  destruct (rescue_fold w (tasks (set_workers (dict_del w (workers s)) s))
              (set_workers (dict_del w (workers s)) s) Hnd) as (Ht & Hw & Hh & Hp).
  split; [done|]. split; [done|]. split; [done|].
  rewrite Hp. unfold held_ids, task_items. by rewrite holds_in_task_items.
Qed.

(** What the whole of [check_dead_workers] does to a task, [ws] being the
    dead workers. *)
Local Abbreviation taken_from_any ws :=
  (fun t => if existsb (fun w => held_by w t) ws then reset t else t).

Lemma taken_from_any_cons w ws t :
  taken_from_any ws (taken_from w t) = taken_from_any (w :: ws) t.
Proof.
  cbn. destruct (held_by w t) eqn:E; cbn; [|done].
  assert (existsb (fun w0 => held_by w0 (reset t)) ws = false) as ->; [|done].
  induction ws as [|w' ws IH]; [done|]. cbn. by rewrite held_by_reset.
Qed.

Lemma task_items_altered (f : models.Task -> models.Task) s s1 :
  tasks s1 = tasks s ->
  (forall l, l ∈ map snd (tasks s) -> heap s1 !! l = f <$> heap s !! l) ->
  task_items s1 = map (fun kt => (fst kt, f (snd kt))) (task_items s).
Proof.
  unfold task_items. intros -> Hh. induction (tasks s) as [|[k l] d IH]; [done|].
  cbn. rewrite Hh by left. destruct (heap s !! l) as [t|]; cbn.
  - f_equal. apply IH. intros l' Hl'. apply Hh. by right.
  - apply IH. intros l' Hl'. apply Hh. by right.
Qed.

Lemma held_ids_altered w w' s s1 :
  w <> w' ->
  task_items s1 = map (fun kt => (fst kt, taken_from w (snd kt))) (task_items s) ->
  held_ids w' s1 = held_ids w' s.
Proof.
  intros Hne Hitems. unfold held_ids. rewrite Hitems. clear Hitems.
  induction (task_items s) as [|[k t] its IH]; [done|].
  cbn [map List.filter fst snd]. rewrite (held_by_taken_from w w' t Hne).
  destruct (held_by w' t); cbn; by rewrite IH.
Qed.

Lemma remove_workers_fold (ws : list string) s :
  NoDup ws -> NoDup (map snd (tasks s)) ->
  tasks (fold_left remove_worker ws s) = tasks s
  /\ workers (fold_left remove_worker ws s)
     = fold_left (fun d w => dict_del w d) ws (workers s)
  /\ (forall l, heap (fold_left remove_worker ws s) !! l
                = if bool_decide (l ∈ map snd (tasks s))
                  then taken_from_any ws <$> heap s !! l else heap s !! l)
  /\ pending_tasks (fold_left remove_worker ws s)
     = (rev (flat_map (fun w => held_ids w s) ws) ++ pending_tasks s)%list.
Proof.
  revert s. induction ws as [|w ws IH]; intros s Hws Hnd.
  - cbn. split; [done|]. split; [done|]. split; [|done].
    intros l. case_bool_decide; [|done]. by destruct (heap s !! l).
  - apply NoDup_cons in Hws as [Hw Hws]. cbn [fold_left].
    destruct (remove_worker_spec w s Hnd) as (Ht & Hwk & Hh & Hp).
    destruct (IH (remove_worker s w) Hws) as (Ht' & Hwk' & Hh' & Hp');
      [by rewrite Ht|].
    split; [congruence|]. split; [by rewrite Hwk', Hwk|]. split.
    + intros l. rewrite Hh', Ht, Hh. case_bool_decide; [|done].
      destruct (heap s !! l) as [t|]; [|done]. cbn [fmap option_fmap option_map].
      f_equal. apply taken_from_any_cons.
    + rewrite Hp', Hp. cbn [flat_map]. rewrite rev_app_distr, <- app_assoc.
      f_equal. f_equal.
      assert (task_items (remove_worker s w)
              = map (fun kt => (fst kt, taken_from w (snd kt))) (task_items s)) as Hitems.
      { apply (task_items_altered (taken_from w)); [done|]. intros l Hl. rewrite Hh.
        by rewrite bool_decide_eq_true_2. }
      clear -Hw Hitems. induction ws as [|w' ws IH]; [done|].
      apply not_elem_of_cons in Hw as [Hne Hw]. cbn [flat_map].
      rewrite (held_ids_altered w w' s _ Hne Hitems). by rewrite IH.
Qed.

Lemma filter_filter {A} (p q : A -> bool) (l : list A) :
  List.filter p (List.filter q l) = List.filter (fun x => q x && p x) l.
Proof.
  induction l as [|x l IH]; [done|]. cbn.
  destruct (q x); cbn; [destruct (p x)|]; by rewrite IH.
Qed.

Lemma dict_del_all {V} (ws : list string) (d : list (string * V)) :
  fold_left (fun d w => dict_del w d) ws d
  = List.filter (fun kv => negb (bool_decide (fst kv ∈ ws))) d.
Proof.
  revert d. induction ws as [|w ws IH]; intros d; cbn [fold_left].
  - symmetry. apply forallb_filter_id. apply forallb_forall. intros kv _.
    rewrite bool_decide_eq_false_2; [done|]. apply not_elem_of_nil.
  - rewrite IH. unfold dict_del. rewrite filter_filter.
    apply List.filter_ext. intros [k v]. cbn.
    destruct (String.eqb w k) eqn:E; cbn.
    + apply String.eqb_eq in E. subst. rewrite bool_decide_eq_true_2; [done|left].
    + apply String.eqb_neq in E. f_equal. apply bool_decide_ext.
      rewrite elem_of_cons. split; [auto | intros [->|?]; done].
Qed.

Lemma dict_value_unique {V} (d : list (string * V)) k v v' :
  NoDup (dict_keys d) -> (k, v) ∈ d -> (k, v') ∈ d -> v = v'.
Proof.
  intros Hnd H1 H2. apply (dict_get_elem_NoDup _ _ _ Hnd) in H1.
  apply (dict_get_elem_NoDup _ _ _ Hnd) in H2. congruence.
Qed.

Lemma filter_keys_NoDup {V} (p : string * V -> bool) (d : list (string * V)) :
  NoDup (dict_keys d) -> NoDup (dict_keys (List.filter p d)).
Proof.
  unfold dict_keys. induction d as [|[k v] d IH]; cbn [map List.filter fst].
  - constructor.
  - rewrite NoDup_cons. intros [Hk Hd]. destruct (p (k, v)); cbn [map fst]; [|auto].
    apply NoDup_cons. split; [|auto]. intros Hin. apply Hk.
    apply list_elem_of_fmap in Hin as ([k' v'] & -> & Hin).
    apply list_elem_of_In, List.filter_In in Hin as [Hin _].
    apply list_elem_of_fmap. exists (k', v'). split; [done|]. by apply list_elem_of_In.
Qed.

Lemma dead_workers_NoDup now s :
  NoDup (dict_keys (workers s)) -> NoDup (dead_workers now s).
Proof. apply filter_keys_NoDup. Qed.

Lemma dead_workers_removed now s :
  NoDup (dict_keys (workers s)) ->
  fold_left (fun d w => dict_del w d) (dead_workers now s) (workers s)
  = List.filter (fun kv => negb (timed_out now (snd kv))) (workers s).
Proof.
  intros Hnd. rewrite dict_del_all. apply List.filter_ext_in. intros [k v] Hin.
  cbn [fst snd]. f_equal. apply list_elem_of_In in Hin.
  destruct (timed_out now v) eqn:E.
  - apply bool_decide_eq_true_2. unfold dead_workers.
    apply list_elem_of_fmap. exists (k, v). split; [done|].
    apply list_elem_of_In, List.filter_In. split; [by apply list_elem_of_In|done].
  - apply bool_decide_eq_false_2. unfold dead_workers. intros Hd.
    apply list_elem_of_fmap in Hd as ([k' v'] & Hk & Hd). cbn in Hk. subst k'.
    apply list_elem_of_In, List.filter_In in Hd as [Hd Ht]. cbn [snd] in Ht.
    apply list_elem_of_In in Hd.
    rewrite (dict_value_unique _ _ _ _ Hnd Hin Hd) in E. congruence.
Qed.

(** What [check_dead_workers] does, in the terms of its loops: the test of
    the comprehension, the test and the assignments of the inner loop. *)
Lemma check_dead_workers_effect (now : float) s :
  NoDup (dict_keys (workers s)) -> NoDup (map snd (tasks s)) ->
  workers (snd (check_dead_workers now s))
  = List.filter (fun kv => negb (timed_out now (snd kv))) (workers s)
  /\ fst (check_dead_workers now s) = dict_keys (workers (snd (check_dead_workers now s)))
  /\ tasks (snd (check_dead_workers now s)) = tasks s
  /\ (forall task_id l t,
        (task_id, l) ∈ tasks s -> heap s !! l = Some t ->
        heap (snd (check_dead_workers now s)) !! l
        = Some (if existsb (fun w => held_by w t) (dead_workers now s)
                then reset t else t))
  /\ pending_tasks (snd (check_dead_workers now s))
     = (rev (flat_map (fun w => held_ids w s) (dead_workers now s))
        ++ pending_tasks s)%list.
Proof.
  intros Hw Hl. unfold check_dead_workers. cbn [fst snd].
  destruct (remove_workers_fold (dead_workers now s) s) as (Ht & Hwk & Hh & Hp);
    [by apply dead_workers_NoDup|done|].
  split; [by rewrite Hwk, dead_workers_removed|]. split; [done|].
  split; [done|]. split; [|done].
  intros task_id l t Hin Hlt. rewrite Hh, Hlt.
  rewrite bool_decide_eq_true_2; [done|].
  apply list_elem_of_fmap. by exists (task_id, l).
Qed.

(** S5 of the specification: at time 200 the worker last seen at time 100 is
    dead; its task in progress goes back to the head of the queue, the task it
    completed stays as it is. *)
Lemma check_dead_workers_scenario :
  check_dead_workers 200%float sample.busy_store
  = ([ "localhost_60002" ],
     mkState
       [ sample.t1; sample.t2;
         models.mkTask "t3" "user1" "PENDING" (JDict []) 3 None JNull ]
       [ ("t1", 0); ("t2", 1); ("t3", 2) ]
       [ "t3"; "t1" ]
       [ ("localhost_60002", mkWorker (SockAddr "127.0.0.1" 40001) 198%float) ]).
Proof. vm_compute. reflexivity. Qed.

(** C7. [check_dead_workers] removes from the worker table exactly the
    workers with [now - last_heartbeat > 5.0] ([WORKER_TIMEOUT]), and returns
    the ids of those that remain.  The task table keeps its entries; a task of
    the table whose [status] is "IN_PROGRESS" and whose [assigned_worker] is a
    removed worker gets the status "PENDING" and the assigned worker [None],
    its other fields kept, and every other task is left as it is; and the
    keys of the tasks so reset are put in front of the pending queue, one by
    one (dead worker after dead worker, each worker's tasks in table order).
    The dictionaries have distinct keys and the table holds distinct
    objects. *)
Theorem check_dead_workers_spec (now : float) s :
  NoDup (dict_keys (workers s)) -> NoDup (map snd (tasks s)) ->
  let dead (data : worker) :=
    PrimFloat.ltb 5%float (PrimFloat.sub now (last_heartbeat data)) in
  let dead_ids := map fst (List.filter (fun kv => dead (snd kv)) (workers s)) in
  let held (w : string) (t : models.Task) :=
    bool_decide (models.assigned_worker t = Some w)
    && String.eqb (models.status t) "IN_PROGRESS" in
  let s' := snd (check_dead_workers now s) in
  workers s' = List.filter (fun kv => negb (dead (snd kv))) (workers s)
  /\ fst (check_dead_workers now s) = map fst (workers s')
  /\ tasks s' = tasks s
  /\ (forall task_id l t,
        (task_id, l) ∈ tasks s -> heap s !! l = Some t ->
        heap s' !! l
        = Some (if existsb (fun w => held w t) dead_ids
                then models.mkTask (models.id t) (models.client_id t) "PENDING"
                       (models.data t) (models.lamport_ts t) None (models.result t)
                else t))
  /\ pending_tasks s'
     = (rev (flat_map
               (fun w => map fst (List.filter
                                    (fun kl : string * nat =>
                                       match heap s !! snd kl with
                                       | Some t => held w t
                                       | None => false
                                       end)
                                    (tasks s)))
               dead_ids)
        ++ pending_tasks s)%list.
Proof.
  intros Hw Hl. cbv zeta.
  destruct (check_dead_workers_effect now s Hw Hl) as (Hws & Hr & Ht & Hh & Hp).
  split; [exact Hws|]. split; [exact Hr|]. split; [exact Ht|]. split.
  - intros task_id l t Hin Hlt. rewrite (Hh task_id l t Hin Hlt). done.
  - rewrite Hp. f_equal. f_equal. unfold dead_workers.
    apply flat_map_ext. intros w. unfold held_ids, task_items.
    symmetry. apply holds_in_task_items.
Qed.

(** S5 of the specification again: at time 200 the worker last heard of at
    time 100 is removed, the one heard of at 198 stays; "t3", in progress on
    the removed worker, is PENDING with no worker and heads the queue; "t2",
    completed on that worker, is as it was. *)
Lemma check_dead_workers_spec_witness :
  workers (snd (check_dead_workers 200%float sample.busy_store))
  = [ ("localhost_60002", mkWorker (SockAddr "127.0.0.1" 40001) 198%float) ]
  /\ fst (check_dead_workers 200%float sample.busy_store) = [ "localhost_60002" ]
  /\ tasks (snd (check_dead_workers 200%float sample.busy_store))
     = [ ("t1", 0); ("t2", 1); ("t3", 2) ]
  /\ heap (snd (check_dead_workers 200%float sample.busy_store)) !! 2
     = Some (models.mkTask "t3" "user1" "PENDING" (JDict []) 3 None JNull)
  /\ heap (snd (check_dead_workers 200%float sample.busy_store)) !! 1
     = Some (models.mkTask "t2" "user2" "COMPLETED" (JDict []) 2 (Some "localhost_60001")
               (JDict [ ("message", JStr "ok") ]))
  /\ pending_tasks (snd (check_dead_workers 200%float sample.busy_store)) = [ "t3"; "t1" ].
Proof.
  destruct (check_dead_workers_spec 200%float sample.busy_store)
    as (Hws & Hr & Ht & Hh & Hp).
  - apply (bool_decide_unpack (NoDup _)). vm_compute. exact I.
  - apply (bool_decide_unpack (NoDup _)). vm_compute. exact I.
  - split; [rewrite Hws; reflexivity|]. split; [rewrite Hr, Hws; reflexivity|].
    split; [rewrite Ht; reflexivity|].
    split; [rewrite (Hh "t3" 2 sample.t3); [reflexivity|by repeat constructor|reflexivity]|].
    split; [rewrite (Hh "t2" 1 sample.t2); [reflexivity|by repeat constructor|reflexivity]|].
    rewrite Hp. reflexivity.
Defined.

End DeadWorkers.

(** ** The pending queue and the task table *)
Section Queue.
Import state_manager main.
Implicit Types (s : StateManager) (l : nat) (t : models.Task) (st : dispatching).

(** *** Queued ids are keys, under every operation *)

Lemma rescue_keys w s task_id l :
  (task_id, l) ∈ tasks s -> queued_are_keys s -> queued_are_keys (rescue w s (task_id, l)).
Proof.
  intros Hin Hq. destruct (rescue_spec w s task_id l) as (Ht & _ & _ & Hp).
  intros i. rewrite Ht, Hp. intros Hi.
  assert (i = task_id \/ i ∈ pending_tasks s) as [->|Hi'].
  { destruct (heap s !! l) as [t|]; [destruct (held_by w t)|]; auto.
    apply elem_of_cons in Hi. exact Hi. }
  - apply list_elem_of_fmap. by exists (task_id, l).
  - by apply Hq.
Qed.

Lemma rescue_fold_keys w (tbl : list (string * nat)) s :
  (forall kl, kl ∈ tbl -> kl ∈ tasks s) ->
  queued_are_keys s ->
  tasks (fold_left (rescue w) tbl s) = tasks s
  /\ queued_are_keys (fold_left (rescue w) tbl s).
Proof.
  revert s. induction tbl as [|[k l] tbl IH]; intros s Hsub Hq; [done|].
  cbn [fold_left].
  destruct (rescue_spec w s k l) as (Ht & _).
  destruct (IH (rescue w s (k, l))) as [Ht' Hq'].
  - intros kl Hkl. rewrite Ht. apply Hsub. by right.
  - apply rescue_keys; [apply Hsub; left|done].
  - split; [congruence|done].
Qed.

Lemma check_dead_workers_keys now s :
  queued_are_keys s -> queued_are_keys (snd (check_dead_workers now s)).
Proof.
  unfold check_dead_workers. cbn [snd]. generalize (dead_workers now s). intros ws.
  revert s. induction ws as [|w ws IH]; intros s Hq; [done|].
  cbn [fold_left]. apply IH. unfold remove_worker.
  apply rescue_fold_keys; [done|]. exact Hq.
Qed.

Lemma add_task_keys l s : queued_are_keys s -> queued_are_keys (add_task l s).
Proof.
  intros Hq. unfold add_task. destruct (heap s !! l) as [t|]; [|done].
  intros i. cbn. rewrite elem_of_app, list_elem_of_singleton. intros [Hi| ->].
  - apply dict_keys_set. by apply Hq.
  - apply dict_get_is_Some. rewrite dict_get_set_eq. eauto.
Qed.

Lemma apply_keys o st : queued_are_keys (fst st) -> queued_are_keys (fst (apply o st)).
Proof.
  destruct st as [s held]. cbn [fst]. intros Hq.
  destruct o; cbn [apply].
  - cbn [alloc fst]. apply add_task_keys. exact Hq.
  - unfold get_next_task. destruct (pending_tasks s) as [|i rest] eqn:E; [done|].
    assert (queued_are_keys (set_pending_tasks rest s)) as Hq'.
    { intros j Hj. apply Hq. rewrite E. by right. }
    cbn. destruct (dict_get i (tasks s)); exact Hq'.
  - cbn [fst]. by apply check_dead_workers_keys.
  - cbn [fst]. unfold update_task_status. by destruct (dict_get task_id (tasks s)).
  - exact Hq.
  - destruct held; exact Hq.
  - destruct held; [|exact Hq]. cbn [fst]. by apply add_task_keys.
  - exact Hq.
Qed.

Lemma reachable_keys st : reachable any_op st -> queued_are_keys (fst st).
Proof.
  induction 1 as [|st o _ IH _]; [|by apply apply_keys].
  intros i Hi. cbn in Hi. by apply elem_of_nil in Hi.
Qed.

(** *** Queued tasks keep a status in [P], as long as the loop does not
    re-queue *)

Lemma status_of_Some task_id s x :
  status_of task_id s = Some x <->
  exists l t, dict_get task_id (tasks s) = Some l /\ heap s !! l = Some t
              /\ models.status t = x.
Proof.
  unfold status_of. split.
  - intros Hs. destruct (dict_get task_id (tasks s)) as [l|]; [|done]. cbn in Hs.
    destruct (heap s !! l) as [t|] eqn:Ht; [|done]. cbn in Hs. simplify_eq.
    by exists l, t.
  - intros (l & t & -> & Ht & <-). cbn. by rewrite Ht.
Qed.

Lemma loc_key_unique {V} (d : list (string * V)) k k' v :
  NoDup (map snd d) -> (k, v) ∈ d -> (k', v) ∈ d -> k = k'.
Proof.
  induction d as [|[k0 v0] d IH]; cbn.
  - intros _ Hin. by apply elem_of_nil in Hin.
  - rewrite NoDup_cons. intros [Hv Hd] [[= -> ->]|H1]%elem_of_cons [[= -> ]|H2]%elem_of_cons.
    + done.
    + exfalso. apply Hv. apply list_elem_of_fmap. by exists (k', v0).
    + subst. exfalso. apply Hv. apply list_elem_of_fmap. by exists (k, v0).
    + by apply IH.
Qed.

Lemma queued_loc_ne s task_id l i l' :
  table_ok s -> (task_id, l) ∈ tasks s -> i <> task_id ->
  dict_get i (tasks s) = Some l' -> l' <> l.
Proof.
  intros (_ & Hlocs & _) Hin Hne Hi ->. apply Hne.
  apply dict_get_Some_elem in Hi. by apply (loc_key_unique (tasks s) i task_id l).
Qed.

Lemma table_ok_update_obj l f s : table_ok s -> table_ok (update_obj l f s).
Proof.
  intros (Hk & Hl & Hv). split; [done|]. split; [done|].
  intros k l' Hin. cbn. rewrite length_alter. by apply (Hv k).
Qed.

(** A write through a reference keeps the queue in order when it keeps in [P]
    the status of whatever queued task it writes to. *)
Lemma queued_have_update_obj P l f s :
  queued_have P s ->
  (forall i t, i ∈ pending_tasks s -> dict_get i (tasks s) = Some l ->
               heap s !! l = Some t -> P (models.status (f t))) ->
  queued_have P (update_obj l f s).
Proof.
  intros Hq Hf i Hi. change (pending_tasks (update_obj l f s)) with (pending_tasks s) in Hi.
  destruct (Hq i Hi) as (x & (l' & t & Hget & Ht & <-)%status_of_Some & HP).
  destruct (decide (l' = l)) as [->|Hne].
  - exists (models.status (f t)). split; [|by eapply Hf].
    apply status_of_Some. exists l, (f t). split; [done|]. split; [|done].
    by apply update_obj_lookup.
  - exists (models.status t). split; [|done].
    apply status_of_Some. exists l', t. split; [done|]. split; [|done].
    by rewrite update_obj_lookup_ne.
Qed.

Section Statuses.
Variable P : string -> Prop.
Hypothesis P_pending : P "PENDING".
Hypothesis P_not_in_progress : ~ P "IN_PROGRESS".

Lemma held_by_in_progress w t : held_by w t = true -> models.status t = "IN_PROGRESS".
Proof. unfold held_by. intros [_ Hs]%andb_true_iff. by apply String.eqb_eq. Qed.

Lemma rescue_inv w s task_id l :
  (task_id, l) ∈ tasks s -> queue_inv P s -> queue_inv P (rescue w s (task_id, l)).
Proof.
  intros Hin (Htab & Hnd & Hq). unfold rescue.
  destruct (heap s !! l) as [t|] eqn:Ht; [|done].
  destruct (held_by w t) eqn:Hheld; [|done].
  assert (dict_get task_id (tasks s) = Some l) as Hget.
  { destruct Htab as (Hk & _). by apply dict_get_elem_NoDup. }
  assert (task_id ∉ pending_tasks s) as Hfresh.
  { intros Hi. destruct (Hq _ Hi) as (x & (l' & t' & Hg & Ht' & <-)%status_of_Some & HP).
    simplify_eq. apply held_by_in_progress in Hheld. rewrite Hheld in HP.
    by apply P_not_in_progress. }
  split; [by apply table_ok_update_obj|]. split; [by apply NoDup_cons|].
  intros i [->|Hi]%elem_of_cons.
  - exists "PENDING". split; [|done]. apply status_of_Some.
    exists l, (reset t). split; [done|]. split; [|done].
    change (heap (set_pending_tasks ?p ?x)) with (heap x). by apply update_obj_lookup.
  - destruct (Hq i Hi) as (x & (l' & t' & Hg & Ht' & <-)%status_of_Some & HP).
    exists (models.status t'). split; [|done]. apply status_of_Some.
    exists l', t'. split; [done|]. split; [|done].
    change (heap (set_pending_tasks ?p ?x)) with (heap x).
    rewrite update_obj_lookup_ne; [done|]. intros <-.
    apply (queued_loc_ne s task_id l i l); try done. by intros ->.
Qed.

Lemma rescue_fold_inv w (tbl : list (string * nat)) s :
  (forall kl, kl ∈ tbl -> kl ∈ tasks s) ->
  queue_inv P s -> queue_inv P (fold_left (rescue w) tbl s).
Proof.
  revert s. induction tbl as [|[k l] tbl IH]; intros s Hsub Hinv; [done|].
  cbn [fold_left]. destruct (rescue_spec w s k l) as (Ht & _).
  apply IH.
  - intros kl Hkl. rewrite Ht. apply Hsub. by right.
  - apply rescue_inv; [apply Hsub; left|done].
Qed.

Lemma check_dead_workers_inv now s :
  queue_inv P s -> queue_inv P (snd (check_dead_workers now s)).
Proof.
  unfold check_dead_workers. cbn [snd]. generalize (dead_workers now s). intros ws.
  revert s. induction ws as [|w ws IH]; intros s Hinv; [done|].
  cbn [fold_left]. apply IH. unfold remove_worker.
  apply rescue_fold_inv; [done|]. exact Hinv.
Qed.

Lemma get_next_task_inv s : queue_inv P s -> queue_inv P (snd (get_next_task s)).
Proof.
  intros (Htab & Hnd & Hq). unfold get_next_task.
  destruct (pending_tasks s) as [|i rest] eqn:E; [by rewrite <- E in Hnd|].
  apply NoDup_cons in Hnd as [Hi Hnd].
  assert (queue_inv P (set_pending_tasks rest s)) as Hinv.
  { split; [done|]. split; [done|]. intros j Hj. apply Hq. rewrite E. by right. }
  cbn [tasks set_pending_tasks].
  destruct (dict_get i (tasks s)) as [l|] eqn:Hget; [|exact Hinv]. cbn [snd].
  destruct Hinv as (Htab' & Hnd' & Hq').
  split; [by apply table_ok_update_obj|]. split; [done|].
  apply queued_have_update_obj; [done|].
  intros j t Hj Hgetj _. exfalso. cbn in Hj, Hgetj.
  apply (queued_loc_ne s i l j l); try done.
  - by apply dict_get_Some_elem.
  - by intros ->.
Qed.

Lemma add_new_task_inv t s :
  P (models.status t) -> dict_get (models.id t) (tasks s) = None ->
  queue_inv P s ->
  queue_inv P (let '(l, s1) := alloc t s in add_task l s1).
Proof.
  intros HP Hfresh ((Hk & Hl & Hv) & Hnd & Hq). rewrite add_new_task_eq.
  assert (forall i, i ∈ pending_tasks s -> i <> models.id t) as Hne.
  { intros i Hi ->. destruct (Hq _ Hi) as (x & (l & _ & Hg & _)%status_of_Some & _).
    congruence. }
  split; [|split].
  - rewrite dict_set_fresh by done. unfold table_ok, dict_keys. cbn.
    rewrite !map_app. cbn. split; [|split].
    + apply NoDup_app. split; [done|]. split; [|apply NoDup_singleton].
      intros k Hin ->%list_elem_of_singleton. by apply dict_get_None in Hfresh.
    + apply NoDup_app. split; [done|]. split; [|apply NoDup_singleton].
      intros l Hin ->%list_elem_of_singleton.
      apply list_elem_of_fmap in Hin as ([k l'] & Heq & Hin). cbn in Heq.
      apply Hv in Hin. lia.
    + intros k l. rewrite elem_of_app, list_elem_of_singleton, length_app. cbn.
      intros [Hin|[= -> ->]]; [apply Hv in Hin|]; lia.
  - cbn. apply NoDup_app. split; [done|]. split; [|apply NoDup_singleton].
    intros i Hi ->%list_elem_of_singleton. by apply (Hne _ Hi).
  - intros i Hi. cbn [pending_tasks] in Hi.
    apply elem_of_app in Hi as [Hi| ->%list_elem_of_singleton].
    + destruct (Hq i Hi) as (x & (l & t' & Hg & Ht & <-)%status_of_Some & HPx).
      exists (models.status t'). split; [|done]. apply status_of_Some.
      exists l, t'. cbn [tasks heap]. split; [|split; [|done]].
      * rewrite dict_get_set_ne; [done|]. intros Heq. by apply (Hne i).
      * by apply lookup_app_l_Some.
    + exists (models.status t). split; [|done]. apply status_of_Some.
      exists (length (heap s)), t. cbn [tasks heap]. rewrite dict_get_set_eq.
      split; [done|]. split; [|done]. by apply list_lookup_middle.
Qed.

Lemma update_task_status_inv task_id status result s :
  P status -> queue_inv P s -> queue_inv P (update_task_status task_id status result s).
Proof.
  intros HP (Htab & Hnd & Hq). unfold update_task_status.
  destruct (dict_get task_id (tasks s)) as [l|]; [|done].
  rewrite update_obj_compose.
  split; [by apply table_ok_update_obj|]. split; [done|].
  apply queued_have_update_obj; [done|]. intros. exact HP.
Qed.

Lemma assign_inv l w s :
  queue_inv P s -> queue_inv P (update_obj l (models.set_assigned_worker w) s).
Proof.
  intros (Htab & Hnd & Hq).
  split; [by apply table_ok_update_obj|]. split; [done|].
  apply queued_have_update_obj; [done|]. intros i t Hi Hg Ht. cbn.
  destruct (Hq i Hi) as (x & (l' & t' & Hg' & Ht' & <-)%status_of_Some & HPx).
  by simplify_eq.
Qed.

Lemma apply_inv o st :
  disciplined P st o -> queue_inv P (fst st) -> queue_inv P (fst (apply o st)).
Proof.
  destruct st as [s held]. cbn [fst]. intros Hok Hinv.
  destruct o; cbn [apply disciplined fst] in *.
  - destruct Hok as [HP Hfresh].
    pose proof (add_new_task_inv t s HP Hfresh Hinv) as Hinv'.
    by destruct (alloc t s).
  - pose proof (get_next_task_inv s Hinv) as Hinv'. by destruct (get_next_task s).
  - by apply check_dead_workers_inv.
  - by apply update_task_status_inv.
  - exact Hinv.
  - destruct held; [|exact Hinv]. by apply assign_inv.
  - done.
  - exact Hinv.
Qed.

Lemma reachable_inv st : reachable (disciplined P) st -> queue_inv P (fst st).
Proof.
  induction 1 as [|st o _ IH Hok]; [|by apply apply_inv].
  split; [|split].
  - split; [constructor|]. split; [constructor|]. intros k l Hin. by apply elem_of_nil in Hin.
  - constructor.
  - intros i Hi. by apply elem_of_nil in Hi.
Qed.

End Statuses.

(** *** The shape of the store, under every operation *)

Lemma dict_keys_set_eq {V} k (v : V) (d : list (string * V)) :
  dict_keys (dict_set k v d)
  = match dict_get k d with
    | Some _ => dict_keys d
    | None => (dict_keys d ++ [k])%list
    end.
Proof.
  unfold dict_keys. induction d as [|[k0 v0] d IH]; cbn; [done|].
  destruct (String.eqb k k0) eqn:E; cbn.
  - apply String.eqb_eq in E. by subst.
  - rewrite IH. by destruct (dict_get k d).
Qed.

Lemma dict_set_NoDup {V} k (v : V) (d : list (string * V)) :
  NoDup (dict_keys d) -> NoDup (dict_keys (dict_set k v d)).
Proof.
  intros Hnd. rewrite dict_keys_set_eq. destruct (dict_get k d) eqn:E; [done|].
  apply NoDup_app. split; [done|]. split; [|apply NoDup_singleton].
  intros k' Hin ->%list_elem_of_singleton. by apply dict_get_None in E.
Qed.

Lemma same_ids_refl h : same_ids h h.
Proof. intros l t Ht. by exists t. Qed.

Lemma same_ids_trans h1 h2 h3 : same_ids h1 h2 -> same_ids h2 h3 -> same_ids h1 h3.
Proof.
  intros H12 H23 l t Ht. destruct (H12 l t Ht) as (t2 & Ht2 & Hid2).
  destruct (H23 l t2 Ht2) as (t3 & Ht3 & Hid3). exists t3. split; [done|congruence].
Qed.

Lemma same_ids_alter (f : models.Task -> models.Task) l h :
  (forall t, models.id (f t) = models.id t) -> same_ids h (alter f l h).
Proof.
  intros Hf l' t Ht. destruct (decide (l' = l)) as [->|Hne].
  - exists (f t). split; [|done]. by rewrite list_lookup_alter_eq, Ht.
  - exists t. split; [|done]. by rewrite list_lookup_alter_ne.
Qed.

Lemma same_ids_length h h' l : same_ids h h' -> l < length h -> l < length h'.
Proof.
  intros Hs Hl. destruct (lookup_lt_is_Some_2 h l Hl) as [t Ht].
  destruct (Hs l t Ht) as (t' & Ht' & _). by apply lookup_lt_Some in Ht'.
Qed.

(** A step that keeps the task table and the ids of the objects keeps the
    shape. *)
Lemma shaped_frame s s' held :
  tasks s' = tasks s -> NoDup (dict_keys (workers s')) ->
  same_ids (heap s) (heap s') ->
  shaped (s, held) -> shaped (s', held).
Proof.
  intros Ht Hw Hids (Hk & _ & Hobj & Hheld). unfold shaped. cbn [fst snd] in *.
  rewrite Ht. split; [done|]. split; [done|]. split.
  - intros k l Hget. destruct (Hobj k l Hget) as (t & Hl & Hid).
    destruct (Hids l t Hl) as (t' & Hl' & Hid'). exists t'. split; [done|congruence].
  - intros l Hl. eapply same_ids_length; [done|]. by apply Hheld.
Qed.

Lemma rescue_fold_frame w (tbl : list (string * nat)) s :
  tasks (fold_left (rescue w) tbl s) = tasks s
  /\ workers (fold_left (rescue w) tbl s) = workers s
  /\ same_ids (heap s) (heap (fold_left (rescue w) tbl s)).
Proof.
  revert s. induction tbl as [|[k l] tbl IH]; intros s.
  - split; [done|]. split; [done|]. apply same_ids_refl.
  - cbn [fold_left]. destruct (rescue_spec w s k l) as (Ht & Hw & Hh & _).
    destruct (IH (rescue w s (k, l))) as (Ht' & Hw' & Hids').
    split; [congruence|]. split; [congruence|].
    eapply same_ids_trans; [|exact Hids']. rewrite Hh.
    apply same_ids_alter. intros t. by destruct (held_by w t).
Qed.

Lemma check_dead_workers_frame now s :
  NoDup (dict_keys (workers s)) ->
  tasks (snd (check_dead_workers now s)) = tasks s
  /\ NoDup (dict_keys (workers (snd (check_dead_workers now s))))
  /\ same_ids (heap s) (heap (snd (check_dead_workers now s))).
Proof.
  unfold check_dead_workers. cbn [snd]. generalize (dead_workers now s). intros ws.
  revert s. induction ws as [|w ws IH]; intros s Hw.
  - split; [done|]. split; [done|]. apply same_ids_refl.
  - cbn [fold_left].
    destruct (rescue_fold_frame w (tasks (set_workers (dict_del w (workers s)) s))
                (set_workers (dict_del w (workers s)) s)) as (Ht & Hwk & Hids).
    fold (remove_worker s w) in Ht, Hwk, Hids. cbn [tasks workers heap set_workers] in *.
    destruct (IH (remove_worker s w)) as (Ht' & Hwk' & Hids').
    { rewrite Hwk. by apply filter_keys_NoDup. }
    split; [congruence|]. split; [done|]. by eapply same_ids_trans.
Qed.

Lemma shaped_add_task l s held :
  l < length (heap s) -> shaped (s, held) -> shaped (add_task l s, held).
Proof.
  intros Hl (Hk & Hw & Hobj & Hheld). unfold add_task.
  destruct (heap s !! l) as [t|] eqn:Ht; [|done].
  unfold shaped. cbn [fst snd tasks workers heap set_tasks set_pending_tasks] in *.
  split; [by apply dict_set_NoDup|]. split; [done|]. split; [|done].
  intros k l' Hget. destruct (decide (models.id t = k)) as [<-|Hne].
  - rewrite dict_get_set_eq in Hget. simplify_eq. by exists t.
  - rewrite dict_get_set_ne in Hget by done. by apply Hobj.
Qed.

Lemma apply_shaped o st : shaped st -> shaped (apply o st).
Proof.
  destruct st as [s held]. intros Hsh. pose proof Hsh as (Hk & Hw & Hobj & Hheld).
  cbn [fst snd] in *. destruct o; cbn [apply].
  - (* add_task(Task(...)) *)
    cbn [alloc]. apply shaped_add_task.
    + cbn. rewrite length_app. cbn. lia.
    + unfold shaped. cbn [fst snd tasks workers heap set_heap].
      split; [done|]. split; [done|]. split.
      * intros k l Hget. destruct (Hobj k l Hget) as (t' & Hl & Hid).
        exists t'. split; [by apply lookup_app_l_Some|done].
      * intros l Hl. rewrite length_app. apply Hheld in Hl. lia.
  - (* get_next_task *)
    unfold get_next_task. destruct (pending_tasks s) as [|i rest]; [|].
    { unfold shaped. cbn [fst snd]. repeat split; try done. }
    cbn [tasks set_pending_tasks].
    destruct (dict_get i (tasks s)) as [l|] eqn:Hget.
    + destruct (Hobj i l Hget) as (t & Hl & _).
      assert (shaped (update_obj l (models.set_status "IN_PROGRESS")
                        (set_pending_tasks rest s), Some l)) as Hsh'; [|exact Hsh'].
      apply (shaped_frame s); try done.
      * by apply same_ids_alter.
      * unfold shaped. cbn [fst snd]. repeat split; try done.
        intros l' [= <-]. by apply lookup_lt_Some in Hl.
    + unfold shaped. cbn [fst snd]. repeat split; try done.
  - (* check_dead_workers *)
    destruct (check_dead_workers_frame now s Hw) as (Ht & Hw' & Hids).
    by apply (shaped_frame s).
  - (* update_task_status *)
    unfold update_task_status. destruct (dict_get task_id (tasks s)); [|done].
    rewrite update_obj_compose. apply (shaped_frame s); try done.
    by apply same_ids_alter.
  - (* update_worker_heartbeat *)
    apply (shaped_frame s); try done.
    + by apply dict_set_NoDup.
    + apply same_ids_refl.
  - (* task.assigned_worker = w *)
    destruct held as [l|]; [|done]. apply (shaped_frame s); try done.
    by apply same_ids_alter.
  - (* add_task(task) *)
    destruct held as [l|]; [|done]. apply shaped_add_task; [|done]. by apply Hheld.
  - unfold shaped. cbn [fst snd]. repeat split; try done.
Qed.

Lemma reachable_shaped st : reachable any_op st -> shaped st.
Proof.
  induction 1 as [|st o _ IH _]; [|by apply apply_shaped].
  unfold shaped. cbn. repeat split; try constructor; done.
Qed.

(** In a shaped store the task table holds distinct objects. *)
Lemma shaped_distinct_objects st : shaped st -> NoDup (map snd (tasks (fst st))).
Proof.
  intros (Hk & _ & Hobj & _). revert Hk Hobj. generalize (heap (fst st)). intros h.
  generalize (tasks (fst st)). intros d Hk Hobj.
  assert (forall k l, (k, l) ∈ d -> exists t, h !! l = Some t /\ models.id t = k) as Hin.
  { intros k l Hkl. apply Hobj. by apply dict_get_elem_NoDup. }
  clear Hobj. induction d as [|[k l] d IH]; cbn; [constructor|].
  unfold dict_keys in Hk. cbn in Hk. apply NoDup_cons in Hk as [Hk Hd].
  apply NoDup_cons. split.
  - intros Hl. apply list_elem_of_fmap in Hl as ([k' l'] & Heq & Hl). cbn in Heq. subst l'.
    destruct (Hin k l) as (t & Ht & Hid); [left|].
    destruct (Hin k' l) as (t' & Ht' & Hid'); [by right|].
    assert (k = k') as <- by congruence.
    apply Hk. apply list_elem_of_fmap. by exists (k, l).
  - apply IH; [done|]. intros k' l' Hkl. apply Hin. by right.
Qed.

Lemma reachable_apply_all ops st : reachable any_op st -> reachable any_op (apply_all ops st).
Proof.
  revert st. induction ops as [|o ops IH]; intros st Hst; [done|].
  cbn. apply IH. by constructor.
Qed.




End Queue.

(** ** The dispatch loop *)
Section Dispatch.
Context `{Interpreter}.
Import main.

(** C2, at inputs where it fails.  The sample store has "t1" queued and
    PENDING.  One turn of the dispatch loop with no worker installed, or with
    a worker chosen that has no entry in the worker table (KeyError), puts
    "t1" back in the queue with no assigned worker, but with the status
    IN_PROGRESS that [get_next_task] gave it. *)
Theorem requeue_leaves_task_in_progress (net : attempt) (clock : lamport_clock.LamportClock) :
  let idle := mkOrch sample.store clock load_balancer.init None in
  let stale := mkOrch sample.store clock (load_balancer.mkLB [ "localhost_60009" ] 0) None in
  let in_progress :=
    models.mkTask "t1" "user1" "IN_PROGRESS" (JDict [ ("duration", JInt 1) ]) 1 None JNull in
  status_of "t1" sample.store = Some "PENDING"
  /\ state_manager.pending_tasks sample.store = [ "t1" ]
  /\ distribute_tasks net idle
     = (mkOrch (state_manager.mkState [ in_progress; sample.t2 ]
                  [ ("t1", 0); ("t2", 1) ] [ "t1" ]
                  (state_manager.workers sample.store))
               clock load_balancer.init None,
        Ret tt)
  /\ distribute_tasks net stale
     = (mkOrch (state_manager.mkState [ in_progress; sample.t2 ]
                  [ ("t1", 0); ("t2", 1) ] [ "t1" ]
                  (state_manager.workers sample.store))
               clock (load_balancer.mkLB [ "localhost_60009" ] 0) None,
        Ret tt).
Proof. cbv zeta. repeat split. Qed.

(** The same when the connection to the chosen worker is refused. *)
Lemma requeue_after_refused_connection (clock : lamport_clock.LamportClock) port :
  int_of_str "60001" = Some port ->
  distribute_tasks (ConnectRaises ConnectionRefusedError)
    (mkOrch sample.store clock (load_balancer.mkLB [ "localhost_60001" ] 0) None)
  = (mkOrch (state_manager.mkState
               [ models.mkTask "t1" "user1" "IN_PROGRESS" (JDict [ ("duration", JInt 1) ])
                               1 None JNull; sample.t2 ]
               [ ("t1", 0); ("t2", 1) ] [ "t1" ]
               (state_manager.workers sample.store))
            clock (load_balancer.mkLB [ "localhost_60001" ] 0) None,
     Ret tt).
Proof.
  intros Hport. vm_compute in Hport |- *. rewrite Hport. reflexivity.
Qed.

Ltac run_body :=
  unfold mbind, M_bind, mret, M_ret, raise, gets, modify, typed, untyped,
    on_store, getitem, log_only in *; simpl in *.

Ltac crunch := repeat (run_body; first [ case_match | progress simplify_eq/= ]).

(** Every step of a thread is a sequence of operations on the store. *)
Lemma step_is_operations e (self self1 : Orchestrator) r :
  step e self = (self1, r) ->
  exists ops, dispatching_of self1 = apply_all ops (dispatching_of self).
Proof.
  intros Hs. destruct e as [request uuid|message addr now|now| |net]; cbn [step] in Hs.
  - unfold handle_client, handle_login, USERS_get, handle_task_status, handle_submit_task in Hs.
    crunch.
    all: first [ by exists [] | by eexists [AddTask _] ].
  - unfold handle_worker_message in Hs. crunch.
    all: first [ by exists []
               | by eexists [UpdateWorkerHeartbeat _ _ _]
               | by eexists [UpdateTaskStatus _ _ _] ].
  - unfold monitor_workers in Hs. crunch. by eexists [CheckDeadWorkers _].
  - unfold distribute_fetch in Hs. crunch. exists [GetNextTask].
    unfold dispatching_of. cbn.
    match goal with Hx : state_manager.get_next_task _ = _ |- _ => by rewrite Hx end.
  - unfold distribute_route, try_except, assign in Hs. crunch.
    all: unfold dispatching_of;
      try match goal with Hx : task _ = _ |- _ => rewrite Hx end.
    all: first [ by exists [Release]
               | by exists [Requeue; Release]
               | by exists [Assign None; Requeue; Release]
               | by eexists [Assign (Some _); Release]
               | by eexists [Assign (Some _); Assign None; Requeue; Release] ].
Qed.

(** The states a primary goes through are reachable by these operations. *)
Lemma run_reachable (es : list event) (self : Orchestrator) :
  reachable any_op (dispatching_of self) ->
  reachable any_op (dispatching_of (run es self)).
Proof.
  revert self. induction es as [|e es IH]; intros self Hr; [done|].
  cbn [run fold_left]. apply IH.
  destruct (step e self) as [self1 r] eqn:Hs. cbn [fst].
  destruct (step_is_operations e self self1 r Hs) as [ops ->].
  by apply reachable_apply_all.
Qed.

(** So, whatever the threads of a primary have done since it started, the
    worker table has distinct keys, the task table holds distinct objects,
    and every queued id is a key of the task table. *)
Lemma run_from_init_shaped (es : list event) :
  NoDup (dict_keys (state_manager.workers (state_manager (run es init))))
  /\ NoDup (map snd (state_manager.tasks (state_manager (run es init))))
  /\ queued_are_keys (state_manager (run es init)).
Proof.
  assert (reachable any_op (dispatching_of (run es init))) as Hr.
  { apply run_reachable. constructor. }
  pose proof (reachable_shaped _ Hr) as Hsh.
  split; [apply Hsh|]. split; [by apply (shaped_distinct_objects _ Hsh)|].
  by apply (reachable_keys _ Hr).
Qed.

End Dispatch.

(** * Further properties *)

(** ** Lamport clock: [increment] and [update] together *)
Section Clock.
Import lamport_clock.

Lemma perform_above c (self : LamportClock) :
  (time self < fst (perform c self))%Z
  /\ time (snd (perform c self)) = fst (perform c self)
  /\ match c with Increment => True | Update r => (r < fst (perform c self))%Z end.
Proof. destruct c; simpl; repeat split; lia. Qed.

Lemma calls_above cs (self : LamportClock) :
  Forall (fun t => (time self < t)%Z) (fst (calls cs self))
  /\ (time self <= time (snd (calls cs self)))%Z.
Proof.
  revert self. induction cs as [|c cs IH]; intros self; simpl; [split; [constructor|lia]|].
  destruct (perform_above c self) as (Hlt & Ht & _).
  destruct (perform c self) as [t self1]. simpl in *.
  destruct (IH self1) as [Hall Hle].
  destruct (calls cs self1) as [ts self2]. simpl in *.
  split; [|lia]. constructor; [done|].
  eapply Forall_impl; [exact Hall|]. simpl. intros; lia.
Qed.

(** X1. Whatever mix of [increment()] and [update(received_time)] calls is
    made on one clock, the timestamps they return are strictly increasing and
    all above the time the clock had before; every [update(r)] returns a
    timestamp above [r]; and [get_time()] afterwards is the last timestamp
    returned (the time the clock had, if no call was made). *)
Theorem clock_calls_increase (cs : list call) (self : LamportClock) :
  StronglySorted Z.lt (fst (calls cs self))
  /\ Forall (fun t => (time self < t)%Z) (fst (calls cs self))
  /\ Forall2 (fun c t => match c with Increment => True | Update r => (r < t)%Z end)
             cs (fst (calls cs self))
  /\ get_time (snd (calls cs self)) = default (time self) (last (fst (calls cs self))).
Proof.
  split; [|split; [apply calls_above|]].
  - revert self. induction cs as [|c cs IH]; intros self; simpl; [constructor|].
    destruct (perform_above c self) as (Hlt & Ht & _).
    destruct (perform c self) as [t self1]. simpl in *.
    pose proof (calls_above cs self1) as [Hall _]. specialize (IH self1).
    destruct (calls cs self1) as [ts self2]. simpl in *.
    constructor; [done|]. by rewrite <- Ht.
  - revert self. induction cs as [|c cs IH]; intros self; simpl; [split; [constructor|done]|].
    destruct (perform_above c self) as (Hlt & Ht & Hr).
    destruct (perform c self) as [t self1]. simpl in *.
    destruct (IH self1) as [Hf Hg].
    destruct (calls cs self1) as [ts self2]. simpl in *.
    split; [constructor; done|].
    rewrite last_cons, Hg, Ht. by destruct (last ts).
Qed.
End Clock.

(** ** Round-robin dispatcher: turns, membership, order of the list *)
Section RoundRobinMore.
Import load_balancer.

Lemma get_next_worker_member (b : RoundRobinLoadBalancer) :
  workers (snd (get_next_worker b)) = workers b
  /\ match fst (get_next_worker b) with
     | Some w => w ∈ workers b
     | None => workers b = []
     end.
Proof.
  unfold get_next_worker. destruct (workers b) as [|x l] eqn:E; [done|].
  set (i := if decide _ then 0 else current_index b).
  destruct (lookup_lt_is_Some_2 (x :: l) i) as [y Hy].
  { unfold i. destruct (decide _); simpl in *; lia. }
  rewrite Hy. simpl. split; [done|]. by eapply list_elem_of_lookup_2.
Qed.

(** X3. After [update_workers(ws)], every answer of [get_next_worker], however
    many calls are made, is a worker of [ws] (never one that an earlier list
    had and [ws] has not), and is [None] only when [ws] is empty; after the
    calls the list of the balancer is the very list [update_workers]
    installed, which holds the ids of [ws]. *)
Theorem get_next_worker_answers_installed (ws : list string)
    (b0 : RoundRobinLoadBalancer) (K : nat) :
  Forall (fun r => match r with Some w => w ∈ ws | None => ws = [] end)
         (fst (get_next_workers K (update_workers ws b0)))
  /\ workers (snd (get_next_workers K (update_workers ws b0)))
     = workers (update_workers ws b0)
  /\ workers (update_workers ws b0) ≡ₚ ws.
Proof.
  assert (forall k b,
    Forall (fun r => match r with Some w => w ∈ workers b | None => workers b = [] end)
           (fst (get_next_workers k b))
    /\ workers (snd (get_next_workers k b)) = workers b) as Hgen.
  { induction k as [|k IH]; intros b; simpl; [split; [constructor|done]|].
    destruct (get_next_worker_member b) as [Hw Hr].
    destruct (get_next_worker b) as [r b1]. simpl in *.
    destruct (IH b1) as [Hall Hws]. destruct (get_next_workers k b1) as [rs b2].
    simpl in *. rewrite Hw in *. split; [|done]. constructor; done. }
  destruct (Hgen K (update_workers ws b0)) as [Hall Hws].
  destruct (update_workers_spec ws b0) as (c & E & _). rewrite E in *. simpl in *.
  pose proof (sorted_Permutation ws) as Hp.
  split; [|split; [exact Hws|exact Hp]].
  eapply Forall_impl; [exact Hall|]. intros [w|]; simpl.
  - by rewrite Hp.
  - intros Hnil. rewrite Hnil in Hp. by apply Permutation_nil_l in Hp.
Qed.

(** X2. After [update_workers(ws)], as many calls of [get_next_worker] as
    [ws] has workers answer the sorted list once round from the cursor, every
    worker of [ws] exactly once, and bring the balancer back to the state it
    was in. *)
Theorem round_robin_full_turn (ws : list string) (b0 : RoundRobinLoadBalancer) :
  let b := update_workers ws b0 in
  get_next_workers (length ws) b = (Some <$> turn (current_index b) (workers b), b)
  /\ turn (current_index b) (workers b) ≡ₚ ws.
Proof.
  cbv zeta. destruct (update_workers_spec ws b0) as (c & -> & Hc). simpl.
  pose proof (sorted_Permutation ws) as Hp.
  assert (length (sorted ws) = length ws) as Hlen by by rewrite Hp.
  split; [|by rewrite turn_Permutation].
  destruct (decide (sorted ws = [])) as [Hnil|Hne].
  - rewrite Hnil in *. simpl in Hlen. rewrite <- Hlen. simpl.
    unfold turn. by rewrite drop_nil, take_nil.
  - specialize (Hc Hne). rewrite <- Hlen.
    rewrite get_next_workers_turn by lia.
    rewrite take_ge by (unfold turn; rewrite length_app, length_drop, length_take; lia).
    replace (c + length (sorted ws)) with (c + 1 * length (sorted ws)) by lia.
    by rewrite Nat.Div0.mod_add, Nat.mod_small.
Qed.

Lemma compare_not_Gt_trans (s1 s2 s3 : string) :
  String.compare s1 s2 <> Gt -> String.compare s2 s3 <> Gt -> String.compare s1 s3 <> Gt.
Proof.
  revert s2 s3. induction s1 as [|c1 s1 IH]; intros [|c2 s2] [|c3 s3]; simpl; try done.
  unfold Ascii.compare.
  destruct (N.compare_spec (N_of_ascii c1) (N_of_ascii c2)) as [E12|L12|G12]; [| |done].
  - rewrite E12.
    destruct (N.compare_spec (N_of_ascii c2) (N_of_ascii c3)) as [E23|L23|G23]; try done.
    apply IH.
  - intros _.
    destruct (N.compare_spec (N_of_ascii c2) (N_of_ascii c3)) as [E23|L23|G23]; [| |done].
    + rewrite <- E23. intros _. by rewrite (proj2 (N.compare_lt_iff _ _) L12).
    + intros _. rewrite (proj2 (N.compare_lt_iff _ _)); [done|]. by etrans.
Qed.

Lemma str_le_unfold a b : str_le a b <-> String.compare a b <> Gt.
Proof. unfold str_le, String.leb. destruct (String.compare a b); split; done. Qed.

#[local] Instance str_le_trans : Transitive str_le.
Proof. intros a b c. rewrite !str_le_unfold. apply compare_not_Gt_trans. Qed.

#[local] Instance str_le_antisym : AntiSymm (=) str_le.
Proof. intros a b. apply String.leb_antisym. Qed.

#[local] Instance str_le_total : Total str_le.
Proof. intros a b. apply String.leb_total. Qed.

Lemma sorted_unique (ws ws' : list string) : ws ≡ₚ ws' -> sorted ws = sorted ws'.
Proof.
  intros Hp. apply (Sorted_unique str_le); [apply Sorted_merge_sort, _ ..|].
  unfold sorted. by rewrite !merge_sort_Permutation.
Qed.

(** X4. The order in which [update_workers] receives the worker ids does not
    matter: two lists with the same ids leave the balancer in the same state,
    with its list sorted. *)
Theorem update_workers_any_order (ws ws' : list string) (b0 : RoundRobinLoadBalancer) :
  ws ≡ₚ ws' ->
  update_workers ws b0 = update_workers ws' b0
  /\ Sorted str_le (workers (update_workers ws b0)).
Proof.
  intros Hp. unfold update_workers. rewrite (sorted_unique ws ws' Hp).
  split; [done|]. destruct (decide _); simpl; apply Sorted_merge_sort, _.
Qed.

Lemma update_workers_any_order_witness :
  update_workers [ "localhost_60002"; "localhost_60001" ] init
  = update_workers [ "localhost_60001"; "localhost_60002" ] init
  /\ Sorted str_le (workers (update_workers [ "localhost_60002"; "localhost_60001" ] init)).
Proof.
  apply (update_workers_any_order [ "localhost_60002"; "localhost_60001" ]
           [ "localhost_60001"; "localhost_60002" ] init).
  apply perm_swap.
Defined.
End RoundRobinMore.

(** ** Task records *)
Section TaskRecords.
Context {W : Type}.

Lemma is_field (k : string) :
  existsb (String.eqb k) models.fields = true <-> k ∈ models.fields.
Proof.
  rewrite existsb_exists. split.
  - intros (x & Hx & ->%String.eqb_eq). by apply list_elem_of_In.
  - intros Hk. exists k. split; [by apply list_elem_of_In|apply String.eqb_refl].
Qed.

Lemma forallb_false {A} (p : A -> bool) (l : list A) :
  forallb p l = false -> exists x, x ∈ l /\ p x = false.
Proof.
  induction l as [|x l IH]; [done|]. simpl. destruct (p x) eqn:Ex.
  - intros (y & Hy & Hp)%IH. exists y. split; [by right|done].
  - intros _. exists x. split; [left|done].
Qed.

(** X5. [Task( **task.__dict__)] builds a task equal to [task]; a record with
    [id] and [client_id] only gets the defaults of the dataclass; and the
    constructor raises TypeError exactly when [id] or [client_id] is missing
    or a key is no field of [Task]. *)
Theorem Task_init_spec :
  (forall (t : models.Task) (w : W), models.Task_init (models.to_dict t) w = (w, Ret t))
  /\ (forall (i c : string) (w : W),
        models.Task_init (JDict [ ("id", JStr i); ("client_id", JStr c) ]) w
        = (w, Ret (models.mkTask i c "PENDING" (JDict []) 0 None JNull)))
  /\ (forall (kw : list (string * json)) (w : W),
        models.Task_init (JDict kw) w = (w, Exc TypeError)
        <-> (dict_get "id" kw = None \/ dict_get "client_id" kw = None
             \/ exists k, k ∈ dict_keys kw /\ k ∉ models.fields)).
Proof.
  split; [|split].
  - intros [i c st d ts aw r] w. unfold models.Task_init, models.to_dict. simpl.
    destruct aw; reflexivity.
  - reflexivity.
  - intros kw w. unfold models.Task_init.
    destruct (forallb _ kw) eqn:Ef.
    + assert (~ exists k, k ∈ dict_keys kw /\ k ∉ models.fields) as Hno.
      { intros (k & Hk & Hf). apply Hf. apply is_field.
        apply list_elem_of_fmap in Hk as ([k' v] & -> & Hin).
        rewrite forallb_forall in Ef. apply (Ef (k', v)). by apply list_elem_of_In. }
      destruct (dict_get "id" kw) as [i|], (dict_get "client_id" kw) as [c|].
      * split; [|intros [?|[?|?]]; done]. unfold typed. destruct (_ ≫= _); intros [=].
      * split; [auto|done].
      * split; [auto|done].
      * split; [auto|done].
    + split; [|done]. intros _. right. right.
      apply forallb_false in Ef as ([k v] & Hin & Hk). exists k. split.
      * apply list_elem_of_fmap. by exists (k, v).
      * intros Hf%is_field. cbn [fst] in Hk. congruence.
Qed.
End TaskRecords.

(** ** The pending queue is first in, first out *)
Section Fifo.
Import state_manager.
Implicit Types (s : StateManager).

Lemma get_next_task_spec s :
  get_next_task s
  = match pending_tasks s with
    | [] => (None, s)
    | task_id :: rest =>
        (dict_get task_id (tasks s),
         mkState (match dict_get task_id (tasks s) with
                  | Some l => alter (models.set_status "IN_PROGRESS") l (heap s)
                  | None => heap s
                  end)
                 (tasks s) rest (workers s))
    end.
Proof.
  unfold get_next_task. destruct (pending_tasks s) as [|i q]; [done|]. simpl.
  destruct (dict_get i (tasks s)); done.
Qed.

(** [k] calls serve the first [k] queued ids, in order; the objects handed out
    are IN_PROGRESS, the others are untouched. *)
Lemma get_next_tasks_spec k s :
  k <= length (pending_tasks s) ->
  fst (get_next_tasks k s) = map (fun i => dict_get i (tasks s)) (take k (pending_tasks s))
  /\ pending_tasks (snd (get_next_tasks k s)) = drop k (pending_tasks s)
  /\ tasks (snd (get_next_tasks k s)) = tasks s
  /\ workers (snd (get_next_tasks k s)) = workers s
  /\ forall l, heap (snd (get_next_tasks k s)) !! l
       = (fun t => if bool_decide (Some l ∈ fst (get_next_tasks k s))
                   then models.set_status "IN_PROGRESS" t else t) <$> heap s !! l.
Proof.
  revert s. induction k as [|k IH]; intros s Hk.
  - simpl. repeat split; try done. intros l.
    by destruct (heap s !! l).
  - cbn [get_next_tasks]. rewrite get_next_task_spec.
    destruct (pending_tasks s) as [|i q] eqn:Eq; [simpl in Hk; lia|].
    set (s1 := mkState _ _ _ _).
    destruct (IH s1) as (Hr & Hp & Ht & Hw & Hh); [simpl in *; lia|].
    destruct (get_next_tasks k s1) as [rs s2]. simpl in *.
    subst rs. rewrite Hp, Ht, Hw. repeat split; try done.
    intros l. rewrite Hh.
    destruct (dict_get i (tasks s)) as [l0|] eqn:Ei.
    + destruct (decide (l = l0)) as [->|Hne].
      * rewrite list_lookup_alter_eq. rewrite (bool_decide_eq_true_2 (Some l0 ∈ Some l0 :: _)) by left.
        destruct (heap s !! l0) as [t|]; simpl; [|done].
        by destruct (bool_decide _).
      * rewrite list_lookup_alter_ne by done.
        destruct (heap s !! l) as [t|]; simpl; [|done]. f_equal.
        erewrite bool_decide_ext; [reflexivity|]. rewrite elem_of_cons. split; [auto|].
        intros [[=]|?]; [congruence|done].
    + destruct (heap s !! l) as [t|]; simpl; [|done]. f_equal.
      erewrite bool_decide_ext; [reflexivity|]. rewrite elem_of_cons. split; [auto|].
      intros [[=]|?]; done.
Qed.

(** X6. The pending queue is served first in, first out.  As many calls of
    [get_next_task] as there are queued ids return, in queue order, the task
    the table holds under each id ([None] for an id the table does not have,
    which is dropped), leave the queue empty, and a further call returns
    [None] and changes nothing; and a task added by [add_task] is returned
    after all those that were queued before it. *)
Theorem get_next_tasks_fifo (t : models.Task) s :
  let n := length (pending_tasks s) in
  (fst (get_next_tasks n s) = map (fun i => dict_get i (tasks s)) (pending_tasks s)
   /\ pending_tasks (snd (get_next_tasks n s)) = []
   /\ get_next_task (snd (get_next_tasks n s)) = (None, snd (get_next_tasks n s)))
  /\ (let s2 := (let '(l, s1) := alloc t s in add_task l s1) in
      fst (get_next_tasks (S n) s2)
      = (map (fun i => dict_get i (tasks s2)) (pending_tasks s)
         ++ [Some (length (heap s))])%list).
Proof.
  cbv zeta. split.
  - destruct (get_next_tasks_spec (length (pending_tasks s)) s) as (Hr & Hp & _); [done|].
    rewrite firstn_all in Hr. rewrite drop_all in Hp. repeat split; try done.
    rewrite get_next_task_spec, Hp. done.
  - rewrite add_new_task_eq.
    set (s2 := mkState _ _ _ _).
    destruct (get_next_tasks_spec (S (length (pending_tasks s))) s2) as (Hr & _).
    { subst s2. simpl. rewrite length_app. simpl. lia. }
    rewrite Hr. subst s2. cbn [pending_tasks tasks].
    rewrite take_ge by (rewrite length_app; simpl; lia).
    rewrite map_app. cbn [map]. by rewrite dict_get_set_eq.
Qed.
End Fifo.

(** ** Liveness check, twice *)
Section DeadWorkersMore.
Import state_manager.
Implicit Types (s : StateManager).

Lemma remove_workers_workers (ws : list string) s :
  workers (fold_left remove_worker ws s) = fold_left (fun d w => dict_del w d) ws (workers s).
Proof.
  revert s. induction ws as [|w ws IH]; intros s; [done|].
  cbn [fold_left]. rewrite IH. f_equal. unfold remove_worker.
  by destruct (rescue_fold_frame w (tasks (set_workers (dict_del w (workers s)) s))
                 (set_workers (dict_del w (workers s)) s)) as (_ & -> & _).
Qed.

Lemma filter_none {A} (p : A -> bool) (l : list A) :
  (forall x, x ∈ l -> p x = false) -> List.filter p l = [].
Proof.
  induction l as [|x l IH]; intros Hp; [done|]. simpl.
  rewrite (Hp x) by left. apply IH. intros y Hy. apply Hp. by right.
Qed.

Lemma dead_workers_after now s :
  dead_workers now (snd (check_dead_workers now s)) = [].
Proof.
  unfold check_dead_workers. cbn [snd]. unfold dead_workers at 1.
  rewrite remove_workers_workers, dict_del_all, filter_filter.
  rewrite filter_none; [done|].
  intros [k d] Hin. cbn [fst snd].
  destruct (timed_out now d) eqn:Ed; [|by rewrite andb_false_r].
  rewrite bool_decide_eq_true_2; [done|].
  unfold dead_workers. apply list_elem_of_fmap. exists (k, d). split; [done|].
  apply list_elem_of_In, List.filter_In. split; [by apply list_elem_of_In|done].
Qed.

(** X7. A second [check_dead_workers] at the same instant finds no worker to
    remove and no task to put back: it returns the same list and leaves the
    store as the first call left it. *)
Theorem check_dead_workers_idempotent (now : float) s :
  check_dead_workers now (snd (check_dead_workers now s)) = check_dead_workers now s.
Proof.
  unfold check_dead_workers at 1. rewrite dead_workers_after. done.
Qed.
End DeadWorkersMore.

(** ** What no operation changes *)
Section Payload.
Import state_manager main.
Implicit Types (s : StateManager) (l : nat) (t : models.Task) (st : dispatching).

Lemma same_payload_refl h : same_payload h h.
Proof. intros l t Hl. by exists t. Qed.

Lemma same_payload_trans h1 h2 h3 :
  same_payload h1 h2 -> same_payload h2 h3 -> same_payload h1 h3.
Proof.
  intros H12 H23 l t Hl. destruct (H12 l t Hl) as (t2 & Hl2 & ? & ? & ? & ?).
  destruct (H23 l t2 Hl2) as (t3 & Hl3 & ? & ? & ? & ?).
  exists t3. repeat split; congruence.
Qed.

Lemma same_payload_alter (f : models.Task -> models.Task) l h :
  (forall t, models.id (f t) = models.id t /\ models.client_id (f t) = models.client_id t
             /\ models.data (f t) = models.data t
             /\ models.lamport_ts (f t) = models.lamport_ts t) ->
  same_payload h (alter f l h).
Proof.
  intros Hf l' t Hl. destruct (decide (l = l')) as [->|Hne].
  - exists (f t). rewrite list_lookup_alter_eq, Hl. split; [done|]. apply Hf.
  - exists t. rewrite list_lookup_alter_ne by done. done.
Qed.

Lemma same_payload_app h h' : same_payload h (h ++ h').
Proof. intros l t Hl. exists t. split; [|done]. by apply lookup_app_l_Some. Qed.

Lemma rescue_fold_payload w (tbl : list (string * nat)) s :
  same_payload (heap s) (heap (fold_left (rescue w) tbl s)).
Proof.
  revert s. induction tbl as [|[k l] tbl IH]; intros s; [apply same_payload_refl|].
  cbn [fold_left]. eapply same_payload_trans; [|apply IH].
  unfold rescue. destruct (heap s !! l) as [t|]; [|apply same_payload_refl].
  destruct (held_by w t); [|apply same_payload_refl].
  apply same_payload_alter. done.
Qed.

Lemma check_dead_workers_payload now s :
  same_payload (heap s) (heap (snd (check_dead_workers now s))).
Proof.
  unfold check_dead_workers. cbn [snd]. generalize (dead_workers now s). intros ws.
  revert s. induction ws as [|w ws IH]; intros s; [apply same_payload_refl|].
  cbn [fold_left]. eapply same_payload_trans; [|apply IH].
  unfold remove_worker. apply (rescue_fold_payload w _ (set_workers _ s)).
Qed.

Lemma apply_payload o st : same_payload (heap (fst st)) (heap (fst (apply o st))).
Proof.
  destruct st as [s held]. destruct o; cbn [apply fst].
  - unfold alloc, add_task. simpl. rewrite list_lookup_middle by done. simpl.
    apply same_payload_app.
  - rewrite get_next_task_spec. destruct (pending_tasks s); [apply same_payload_refl|].
    cbn [fst heap]. destruct (dict_get _ _); [|apply same_payload_refl].
    by apply same_payload_alter.
  - apply check_dead_workers_payload.
  - unfold update_task_status. destruct (dict_get _ _); [|apply same_payload_refl].
    eapply same_payload_trans; apply same_payload_alter; done.
  - apply same_payload_refl.
  - destruct held; [|apply same_payload_refl]. by apply same_payload_alter.
  - destruct held; [|apply same_payload_refl]. unfold add_task.
    destruct (heap s !! _); apply same_payload_refl.
  - apply same_payload_refl.
Qed.
End Payload.

Section Runs.
Context `{Interpreter}.
Import state_manager main.
Implicit Types (s : StateManager) (l : nat) (t : models.Task) (st : dispatching).

Lemma apply_all_payload ops st : same_payload (heap (fst st)) (heap (fst (apply_all ops st))).
Proof.
  revert st. induction ops as [|o ops IH]; intros st; [apply same_payload_refl|].
  cbn. eapply same_payload_trans; [apply apply_payload|apply IH].
Qed.

(** X8. No operation on the store, and no step of any thread of a primary,
    changes the [id], the [client_id], the [data] or the [lamport_ts] of a
    task object, or removes the object. *)
Theorem task_payload_is_kept :
  (forall ops st, same_payload (heap (fst st)) (heap (fst (apply_all ops st))))
  /\ (forall (es : list event) (self : Orchestrator),
        same_payload (heap (main.state_manager self))
                     (heap (main.state_manager (run es self)))).
Proof.
  split; [apply apply_all_payload|].
  intros es. induction es as [|e es IH]; intros self; [apply same_payload_refl|].
  cbn [run fold_left]. eapply same_payload_trans; [|apply IH].
  destruct (step e self) as [self1 r] eqn:Hs. cbn [fst].
  destruct (step_is_operations e self self1 r Hs) as [ops Hops].
  pose proof (apply_all_payload ops (dispatching_of self)) as Hp.
  rewrite <- Hops in Hp. exact Hp.
Qed.

Lemma apply_tasks_keys o st k :
  shaped st ->
  k ∈ dict_keys (tasks (fst st)) -> k ∈ dict_keys (tasks (fst (apply o st))).
Proof.
  intros Hsh Hk. destruct st as [s held]. destruct o; cbn [apply fst] in *.
  - unfold alloc, add_task. simpl. rewrite list_lookup_middle by done. simpl.
    by apply dict_keys_set.
  - rewrite get_next_task_spec. by destruct (pending_tasks s).
  - destruct (check_dead_workers_frame now s) as (-> & _); [apply Hsh|done].
  - unfold update_task_status. by destruct (dict_get _ _).
  - done.
  - by destruct held.
  - destruct held as [l|]; [|done]. unfold add_task. cbn [fst].
    destruct (heap s !! l); [|done]. simpl. by apply dict_keys_set.
  - done.
Qed.

Lemma apply_all_tasks_keys ops st k :
  shaped st ->
  k ∈ dict_keys (tasks (fst st)) -> k ∈ dict_keys (tasks (fst (apply_all ops st))).
Proof.
  revert st. induction ops as [|o ops IH]; intros st Hsh Hk; [done|].
  cbn. apply IH; [by apply apply_shaped|by apply apply_tasks_keys].
Qed.

Lemma apply_all_shaped ops st : shaped st -> shaped (apply_all ops st).
Proof.
  revert st. induction ops as [|o ops IH]; intros st Hsh; [done|].
  cbn. apply IH. by apply apply_shaped.
Qed.

Lemma run_tasks_keys es (self : Orchestrator) k :
  shaped (dispatching_of self) ->
  k ∈ dict_keys (tasks (main.state_manager self)) ->
  shaped (dispatching_of (run es self))
  /\ k ∈ dict_keys (tasks (main.state_manager (run es self))).
Proof.
  revert self. induction es as [|e es IH]; intros self Hsh Hk; [done|].
  cbn [run fold_left]. destruct (step e self) as [self1 r] eqn:Hs. cbn [fst].
  destruct (step_is_operations e self self1 r Hs) as [ops Hops].
  apply IH.
  - rewrite Hops. by apply apply_all_shaped.
  - change (main.state_manager self1) with (fst (dispatching_of self1)). rewrite Hops.
    by apply apply_all_tasks_keys.
Qed.

Lemma get_task_status_is_Some st k :
  shaped st -> is_Some (get_task_status k (fst st)) <-> k ∈ dict_keys (tasks (fst st)).
Proof.
  intros Hsh. rewrite <- dict_get_is_Some. unfold get_task_status. split.
  - intros [d Hd]. destruct (dict_get k (tasks st.1)); [eauto|done].
  - intros [l Hl]. rewrite Hl. simpl.
    destruct Hsh as (_ & _ & Hobj & _). destruct (Hobj k l Hl) as (t & -> & _). simpl. eauto.
Qed.

(** X9. A primary does not forget a task: once [get_task_status(task_id)]
    answers with a task, it does so after any further client requests, worker
    messages, monitor turns and dispatch steps. *)
Theorem known_task_stays_known (es1 es2 : list event) (task_id : string) :
  is_Some (get_task_status task_id (main.state_manager (run es1 main.init))) ->
  is_Some (get_task_status task_id (main.state_manager (run (es1 ++ es2) main.init))).
Proof.
  intros Hk. unfold run. rewrite fold_left_app. fold (run es1 main.init).
  fold (run es2 (run es1 main.init)).
  assert (shaped (dispatching_of (run es1 main.init))) as Hsh.
  { apply reachable_shaped, run_reachable. constructor. }
  apply (get_task_status_is_Some (dispatching_of _)) in Hk; [|done].
  destruct (run_tasks_keys es2 (run es1 main.init) task_id Hsh Hk) as [Hsh2 Hk2].
  by apply (get_task_status_is_Some (dispatching_of _)).
Qed.

End Runs.

Section QueueMore.
Import state_manager main.

(** X10. As long as the dispatch loop does not re-queue, tasks are added
    under ids the table does not have yet, and no task is added or updated
    with the status IN_PROGRESS, no id is in the pending queue twice. *)
Theorem pending_queue_has_no_duplicates (st : dispatching) :
  reachable (disciplined (fun x => x <> "IN_PROGRESS")) st ->
  NoDup (pending_tasks (fst st)).
Proof.
  intros Hst.
  apply (reachable_inv (fun x => x <> "IN_PROGRESS")) in Hst as (_ & Hnd & _); [done..|].
  intros Hne. by apply Hne.
Qed.

Lemma pending_queue_has_no_duplicates_witness :
  NoDup (pending_tasks (fst (apply_all sample.rescue_trace (state_manager.init, None)))).
Proof.
  apply pending_queue_has_no_duplicates.
  unfold sample.rescue_trace, apply_all. cbn [fold_left].
  repeat (apply reachable_step;
          [|vm_compute; first [exact I | split; [discriminate|reflexivity]]]).
  constructor.
Defined.
End QueueMore.

(** ** Snapshots: what replication keeps *)
Section SnapshotsMore.
Import state_manager.
Context {bytes : Type} `{JsonCodec bytes}.

(** X11. A store loaded from the snapshot of [S] has the snapshot of [S]: the
    bytes [get_state_snapshot] produces are the same on both sides of the
    replication (the task table of [S] has distinct keys, as every dictionary
    has). *)
Theorem snapshot_of_loaded_snapshot `{!JsonRoundTrip bytes} (S : StateManager) (w0 : world) :
  NoDup (dict_keys (tasks S)) ->
  get_state_snapshot (fst (fst (load_state_snapshot (get_state_snapshot S) w0)))
  = get_state_snapshot S.
Proof.
  intros Hnd. rewrite snapshot_round_trip_state by done. cbn [fst].
  unfold get_state_snapshot. f_equal. unfold snapshot_dict.
  change (task_items (set_workers ?a (set_pending_tasks ?b ?X))) with (task_items X).
  destruct (task_items_install_tasks (task_items S) (fst w0)) as (-> & _ & _);
    [by apply task_items_NoDup|].
  cbn [pending_tasks workers set_workers set_pending_tasks].
  rewrite map_map. repeat f_equal.
Qed.

Lemma Task_init_pure (t_data : json) (w : world) : fst (models.Task_init t_data w) = w.
Proof.
  unfold models.Task_init. destruct t_data; try done.
  destruct (forallb _ _); [|done].
  destruct (dict_get "id" kvs); [|done]. destruct (dict_get "client_id" kvs); [|done].
  unfold typed. by destruct (_ ≫= _).
Qed.

Lemma traverse_Task_init_pure (l : list (string * json)) (w : world) :
  fst (traverse (fun kv => t ← models.Task_init (snd kv); mret (fst kv, t)) l w) = w.
Proof.
  induction l as [|[k v] l IH]; [done|].
  cbn [traverse]. unfold mbind at 1, M_bind at 1. unfold mbind at 1, M_bind at 1.
  pose proof (Task_init_pure v w) as Hp. cbn [snd].
  destruct (models.Task_init v w) as [w1 [t| |]]; cbn in Hp; subst w1; try done.
  unfold mret at 1, M_ret at 1. unfold mbind at 1, M_bind at 1.
  destruct (traverse _ l w) as [w2 [ts| |]]; cbn in IH; subst w2; done.
Qed.

Lemma Task_init_raises (t_data : json) (w w1 : world) e :
  models.Task_init t_data w = (w1, Exc e) -> e = TypeError.
Proof.
  unfold models.Task_init. destruct t_data; try by intros [=].
  destruct (forallb _ _); [|by intros [=]].
  destruct (dict_get "id" kvs); [|by intros [=]].
  destruct (dict_get "client_id" kvs); [|by intros [=]].
  unfold typed. by destruct (_ ≫= _).
Qed.

Lemma traverse_Task_init_raises (l : list (string * json)) (w w1 : world) e :
  traverse (fun kv => t ← models.Task_init (snd kv); mret (fst kv, t)) l w = (w1, Exc e) ->
  e = TypeError.
Proof.
  revert w. induction l as [|[k v] l IH]; intros w; [by intros [=]|].
  cbn [traverse]. unfold mbind at 1, M_bind at 1. unfold mbind at 1, M_bind at 1.
  cbn [snd]. destruct (models.Task_init v w) as [w2 [t| |]] eqn:Ei.
  - unfold mret at 1, M_ret at 1. unfold mbind at 1, M_bind at 1.
    destruct (traverse _ l w2) as [w3 [ts| |]] eqn:Et; try by intros [=].
    intros [= <- <-]. by eapply IH.
  - intros [= <- <-]. by eapply Task_init_raises.
  - by intros [=].
Qed.

(** X12. Whenever [load_state_snapshot] raises, it has written nothing: the
    store and the clock are as they were before the call; and what it raises
    is neither JSONDecodeError nor KeyError, which its [except] clause
    catches.  (The exceptions come from [decode], from [json.loads], from
    [state["tasks"].items()] and from [Task( **t_data)], all before the first
    assignment.  A snapshot whose task fields carry values of other types
    than the dataclass annotates is not followed by the model: its outcome
    is [Untyped], not an exception.) *)
Theorem load_state_snapshot_raises_before_writing (b : bytes) (w w' : world) (e : exn) :
  load_state_snapshot b w = (w', Exc e) ->
  w' = w /\ e <> JSONDecodeError /\ e <> KeyError.
Proof.
  unfold load_state_snapshot, try_except, loads.
  destruct (json_loads b) as [state| | | |].
  - unfold mbind at 1, M_bind at 1. unfold mret at 1, M_ret at 1.
    unfold mbind at 1, M_bind at 1. unfold getitem at 1.
    destruct state as [| | | | | |kvs]; try (cbn; intros [= <- <-]; done).
    destruct (dict_get "tasks" kvs) as [tasks_json|]; [|cbn; intros [=]].
    unfold mret at 1, M_ret at 1. unfold mbind at 1, M_bind at 1. unfold items.
    destruct tasks_json as [| | | | | |tkvs]; try (cbn; intros [= <- <-]; done).
    unfold mret at 1, M_ret at 1. unfold mbind at 1, M_bind at 1.
    pose proof (traverse_Task_init_pure tkvs w) as Hp.
    destruct (traverse _ tkvs w) as [w1 [new| |]] eqn:Et; cbn in Hp; subst w1.
    + intros Hrun. exfalso. clear Et.
      unfold mbind, M_bind, on_state, on_clock, modify, gets, getitem, typed, untyped,
        raise, mret, M_ret, log_only in Hrun.
      cbn in Hrun. repeat (first [case_match | progress simplify_eq/=]).
    + apply traverse_Task_init_raises in Et as ->. cbn. intros [= <- <-]. done.
    + intros [=].
  - cbn. intros [= <- <-]. done.
  - cbn. intros [=].
  - cbn. intros [= <- <-]. done.
  - cbn. intros [= <- <-]. done.
Qed.
End SnapshotsMore.

Section Failover.
Import state_manager.
Context {bytes : Type} `{JsonCodec bytes}.

(** X13. After the snapshot of [S] has been loaded, the next [increment()] of
    the clock returns a timestamp above the [lamport_ts] of every task of the
    loaded store, which are the tasks of [S]. *)
Theorem timestamps_after_failover `{!JsonRoundTrip bytes} (S : StateManager) (w0 : world) :
  NoDup (dict_keys (tasks S)) ->
  let w1 := fst (load_state_snapshot (get_state_snapshot S) w0) in
  task_items (fst w1) = task_items S
  /\ Forall (fun t => (models.lamport_ts t < fst (lamport_clock.increment (snd w1)))%Z)
            (map snd (task_items (fst w1))).
Proof.
  intros Hnd. cbv zeta. rewrite snapshot_round_trip_state by done. cbn [fst snd].
  change (task_items (set_workers ?a (set_pending_tasks ?b ?X))) with (task_items X).
  destruct (task_items_install_tasks (task_items S) (fst w0)) as (-> & _ & _);
    [by apply task_items_NoDup|].
  split; [done|].
  destruct (max_lamport_ts_spec (map snd (task_items S))) as [Hall _].
  eapply Forall_impl; [exact Hall|]. cbn. intros; lia.
Qed.
End Failover.

(** ** Client requests *)
Section Requests.
Context `{Interpreter}.
Import main.

Ltac run_body :=
  unfold mbind, M_bind, mret, M_ret, raise, gets, modify, typed, untyped,
    on_store, getitem, log_only in *; simpl in *.

Ltac crunch := repeat (run_body; first [ case_match | progress simplify_eq/= ]).

Local Abbreviation accepted i :=
  (Ret (Some (JDict [ ("status", JStr "Tarefa recebida"); ("task_id", JStr i) ]))).

Lemma verify_token_user (token : json) :
  verify_token token = true ->
  get_user_from_token token ∈ dict_keys config.USERS
  /\ token = JStr (expected_token (get_user_from_token token)).
Proof.
  unfold verify_token, get_user_from_token. intros Hv.
  destruct (List.find _ _) as [user|] eqn:Ef.
  - apply find_some in Ef as [Hin Heq]. split; [by apply list_elem_of_In|].
    destruct token; try done. simpl in Heq. by apply String.eqb_eq in Heq as ->.
  - apply existsb_exists in Hv as (user & Hin & Heq).
    by rewrite (find_none _ _ Ef user Hin) in Heq.
Qed.



(** The store after the task [t] has been created and queued. *)
Lemma handle_client_submit kvs token uuid self :
  dict_get "token" kvs = Some token -> verify_token token = true ->
  eq_str (get_or "action" JNull kvs) "submit_task" = true ->
  handle_client (JDict kvs) uuid self
  = (let t := models.new_Task uuid (get_user_from_token token)
                (get_or "data" (JDict []) kvs)
                (lamport_clock.time (lamport_clock self) + 1) in
     (mkOrch (state_manager.mkState
                (state_manager.heap (state_manager self) ++ [t])
                (dict_set uuid (length (state_manager.heap (state_manager self)))
                   (state_manager.tasks (state_manager self)))
                (state_manager.pending_tasks (state_manager self) ++ [uuid])
                (state_manager.workers (state_manager self)))
             (lamport_clock.mkClock (lamport_clock.time (lamport_clock self) + 1))
             (load_balancer self) (task self),
      accepted uuid)).
Proof.
  intros Ht Hv Ha. unfold handle_client, dict_mem. rewrite Ht. cbn [negb].
  unfold getitem. rewrite Ht. unfold mbind at 1, M_bind at 1. unfold mret at 1, M_ret at 1.
  rewrite Hv, Ha. cbn [negb].
  destruct (handle_submit_task_spec kvs uuid self) as (tok & [[Htok ->]|[Htok _]]);
    [|congruence].
  assert (tok = token) as -> by congruence.
  unfold lamport_clock.increment. cbv zeta.
  pose proof (add_new_task_eq
    (models.new_Task uuid (get_user_from_token token) (get_or "data" (JDict []) kvs)
       (lamport_clock.time (lamport_clock self) + 1)) (state_manager self)) as Hadd.
  destruct (state_manager.alloc _ _) as [l s1]. rewrite Hadd. done.
Qed.

Lemma handle_client_answer request uuid self self1 r :
  handle_client request uuid self = (self1, r) ->
  (exists kvs token,
     request = JDict kvs /\ dict_get "token" kvs = Some token
     /\ verify_token token = true
     /\ eq_str (get_or "action" JNull kvs) "submit_task" = true)
  \/ (forall i, r <> accepted i).
Proof.
  intros Hs. unfold handle_client in Hs.
  destruct request as [| | | | |xs|kvs]; crunch; try (by right).
  - apply handle_login_pure in Hs as [_ Hr]. by right.
  - left. eexists _, _. repeat split; [done..| |done].
    by apply negb_false_iff.
  - apply handle_task_status_pure in Hs as [_ Hr]. by right.
Qed.

(** X15. A request answered "Tarefa recebida" carried the token of a user of
    [USERS]; the answer names the new id; under that id the store then holds
    a PENDING task owned by that user (never "unknown"), with the [data] of
    the request, no worker, no result and the timestamp the clock moved to,
    which is one more than before; and the id is last in the pending queue. *)
Theorem accepted_submission_creates_task (request : json) (uuid i : string)
    (self self1 : Orchestrator) :
  handle_client request uuid self = (self1, accepted i) ->
  i = uuid
  /\ exists kvs user,
       request = JDict kvs
       /\ user ∈ dict_keys config.USERS
       /\ dict_get "token" kvs = Some (JStr (expected_token user))
       /\ state_manager.get_task_status uuid (state_manager self1)
          = Some (models.to_dict
                    (models.new_Task uuid user (get_or "data" (JDict []) kvs)
                       (lamport_clock.time (lamport_clock self) + 1)))
       /\ state_manager.pending_tasks (state_manager self1)
          = (state_manager.pending_tasks (state_manager self) ++ [uuid])%list
       /\ lamport_clock.time (lamport_clock self1)
          = (lamport_clock.time (lamport_clock self) + 1)%Z.
Proof.
  intros Hs.
  destruct (handle_client_answer _ _ _ _ _ Hs) as [(kvs & token & -> & Ht & Hv & Ha)|Hno];
    [|by destruct (Hno i)].
  rewrite (handle_client_submit kvs token uuid self Ht Hv Ha) in Hs. cbv zeta in Hs.
  injection Hs as <- <-. split; [done|].
  destruct (verify_token_user token Hv) as [Hu Htok].
  exists kvs, (get_user_from_token token). split; [done|]. split; [done|].
  split; [congruence|]. split; [|done].
  unfold state_manager.get_task_status. cbn. rewrite dict_get_set_eq. cbn.
  by rewrite list_lookup_middle.
Qed.

(** The response [handle_task_status] prepares for a task just submitted. *)
Lemma handle_client_status_after_submit (kvs kvs2 : list (string * json))
    (token token2 : json) (uuid uuid2 : string) (self : Orchestrator) :
  dict_get "token" kvs = Some token -> verify_token token = true ->
  dict_get "action" kvs = Some (JStr "submit_task") ->
  dict_get "token" kvs2 = Some token2 -> verify_token token2 = true ->
  dict_get "action" kvs2 = Some (JStr "task_status") ->
  dict_get "task_id" kvs2 = Some (JStr uuid) ->
  let self1 := fst (handle_client (JDict kvs) uuid self) in
  handle_client (JDict kvs2) uuid2 self1
  = (self1,
     Ret (Some (JDict [ ("id", JStr uuid);
                        ("client_id", JStr (get_user_from_token token));
                        ("status", JStr "PENDING");
                        ("data", get_or "data" (JDict []) kvs);
                        ("lamport_ts", JInt (lamport_clock.time (lamport_clock self) + 1));
                        ("assigned_worker", JNull);
                        ("result", JNull) ]))).
Proof.
  intros Ht Hv Ha Ht2 Hv2 Ha2 Hid.
  rewrite (handle_client_submit kvs token uuid self Ht Hv)
    by (unfold get_or; by rewrite Ha).
  cbv zeta. cbn [fst].
  unfold handle_client, dict_mem. rewrite Ht2. cbn [negb].
  unfold getitem. rewrite Ht2. unfold mbind at 1, M_bind at 1. unfold mret at 1, M_ret at 1.
  rewrite Hv2. cbn [negb]. unfold get_or at 1 2. rewrite Ha2. cbn [eq_str String.eqb].
  cbn -[dict_get dict_set]. unfold handle_task_status, get_or. rewrite Hid.
  unfold gets, mbind, M_bind, state_manager.get_task_status.
  cbn [state_manager state_manager.tasks state_manager.heap].
  rewrite dict_get_set_eq. cbn [mbind option_bind].
  by rewrite list_lookup_middle.
Qed.

(** What the [except] clause of [handle_client] catches. *)
Local Abbreviation caught e :=
  (existsb (fun h => bool_decide (h = e))
     [JSONDecodeError; ConnectionResetError; BrokenPipeError]).

Lemma handle_client_conn_spec (w : written) request uuid self :
  handle_client_conn w request uuid self
  = (fst (handle_client request uuid self),
     match snd (handle_client request uuid self) with
     | Ret (Some response) =>
         match w with
         | Written => Ret (Some response)
         | WriteRaises e => if caught e then Ret None else Exc e
         end
     | Exc e => if caught e then Ret None else Exc e
     | r => r
     end).
Proof.
  unfold handle_client_conn, mbind, M_bind, mret, M_ret, raise.
  destruct (handle_client request uuid self) as [self1 [[response|]|e|]]; cbn [fst snd];
    try done.
  - destruct w as [|e]; [done|]. by destruct (caught e).
  - by destruct (caught e).
Qed.


(** X16. Submit, then ask: after a submission with a valid token, whatever
    became of the writing of its response, a [task_status] request for the
    new id with the valid token of any user changes nothing; when its
    response is written, it is the task as submitted (PENDING, owned by the
    submitter, no worker, no result); when [json.dumps] (RecursionError, on
    data nested too deep) or [conn.sendall] raises, nothing is answered:
    ConnectionResetError and BrokenPipeError are caught and logged, any
    other exception leaves [handle_client]. *)
Theorem submitted_task_status (w1 w2 : written) (kvs kvs2 : list (string * json))
    (token token2 : json) (uuid uuid2 : string) (self : Orchestrator) :
  dict_get "token" kvs = Some token -> verify_token token = true ->
  dict_get "action" kvs = Some (JStr "submit_task") ->
  dict_get "token" kvs2 = Some token2 -> verify_token token2 = true ->
  dict_get "action" kvs2 = Some (JStr "task_status") ->
  dict_get "task_id" kvs2 = Some (JStr uuid) ->
  let self1 := fst (handle_client_conn w1 (JDict kvs) uuid self) in
  handle_client_conn w2 (JDict kvs2) uuid2 self1
  = (self1,
     match w2 with
     | Written =>
         Ret (Some (JDict [ ("id", JStr uuid);
                            ("client_id", JStr (get_user_from_token token));
                            ("status", JStr "PENDING");
                            ("data", get_or "data" (JDict []) kvs);
                            ("lamport_ts",
                             JInt (lamport_clock.time (lamport_clock self) + 1));
                            ("assigned_worker", JNull);
                            ("result", JNull) ]))
     | WriteRaises e => if caught e then Ret None else Exc e
     end).
Proof.
  intros Ht Hv Ha Ht2 Hv2 Ha2 Hid. cbv zeta.
  rewrite (handle_client_conn_spec w1). cbn [fst].
  rewrite handle_client_conn_spec.
  pose proof (handle_client_status_after_submit kvs kvs2 token token2 uuid uuid2 self
                Ht Hv Ha Ht2 Hv2 Ha2 Hid) as Hq. cbv zeta in Hq.
  rewrite Hq. done.
Qed.

(** X17. The token a login returns for a user of [USERS] with the right
    password passes [verify_token], and [get_user_from_token] finds for it a
    user of [USERS] with that very token. *)
Theorem login_token_is_valid (kvs : list (string * json)) (u p uuid : string)
    (self : Orchestrator) :
  dict_get "token" kvs = None ->
  dict_get "action" kvs = Some (JStr "login") ->
  dict_get "username" kvs = Some (JStr u) ->
  dict_get "password" kvs = Some (JStr p) ->
  dict_get u config.USERS = Some p ->
  handle_client (JDict kvs) uuid self
  = (self, Ret (Some (JDict [ ("token", JStr (expected_token u)) ])))
  /\ verify_token (JStr (expected_token u)) = true
  /\ get_user_from_token (JStr (expected_token u)) ∈ dict_keys config.USERS
  /\ expected_token (get_user_from_token (JStr (expected_token u))) = expected_token u.
Proof.
  intros Ht Ha Hu Hp Hup.
  assert (verify_token (JStr (expected_token u)) = true) as Hv.
  { unfold verify_token. apply existsb_exists. exists u. split.
    - apply list_elem_of_In, dict_get_is_Some. eauto.
    - simpl. apply String.eqb_refl. }
  split; [|split; [done|]].
  - rewrite (login_with_credentials kvs u p uuid self Ht Ha Hu Hp).
    by rewrite bool_decide_eq_true_2.
  - destruct (verify_token_user _ Hv) as [Hin Heq]. split; [done|]. congruence.
Qed.

End Requests.

(** ** The dispatch loop, turn by turn *)
Section DispatchMore.
Context `{Interpreter}.
Import state_manager main.

(** The turn of the dispatch loop up to the answer of the network: the task
    at the head of the queue is fetched, a worker is chosen, its address is
    found. *)
Lemma distribute_tasks_reaches_network (net : attempt) (s : StateManager)
    (clock : lamport_clock.LamportClock) (lb lb' : load_balancer.RoundRobinLoadBalancer)
    (held : option nat) (i w : string) (q : list string) (l : nat)
    (d : worker) (h : json) (p : Z) :
  pending_tasks s = i :: q -> dict_get i (tasks s) = Some l ->
  load_balancer.get_next_worker lb = (Some w, lb') -> w <> "" ->
  dict_get w (workers s) = Some d -> address_host (addr d) = Some h ->
  int_of_str (last_segment w) = Some p ->
  let s1 := update_obj l (models.set_status "IN_PROGRESS") (set_pending_tasks q s) in
  let s2 := update_obj l (models.set_assigned_worker (Some w)) s1 in
  let s3 := add_task l (update_obj l (models.set_assigned_worker None) s2) in
  let handled e := existsb (fun h => bool_decide (h = e)) [KeyError; ConnectionRefusedError] in
  distribute_tasks net (mkOrch s clock lb held)
  = match net with
    | Delivered => (mkOrch s2 clock lb' None, Ret tt)
    | ConnectRaises e =>
        if handled e
        then (mkOrch (add_task l (update_obj l (models.set_assigned_worker None) s1))
                     clock lb' None, Ret tt)
        else (mkOrch s1 clock lb' None, Exc e)
    | SendRaises e =>
        if handled e then (mkOrch s3 clock lb' None, Ret tt)
        else (mkOrch s2 clock lb' None, Exc e)
    end.
Proof.
  intros Hq Hi Hlb Hw Hd Hh Hp. cbv zeta.
  unfold distribute_tasks, distribute_fetch, distribute_route.
  unfold mbind at 1, M_bind at 1. unfold modify at 1. cbn [main.state_manager].
  unfold get_next_task. rewrite Hq. cbn [tasks set_pending_tasks]. rewrite Hi.
  unfold mbind at 1, M_bind at 1. unfold gets at 1. cbn [task set_task].
  unfold mbind at 1, M_bind at 1. unfold modify at 1. cbn [set_task].
  unfold mbind at 1, M_bind at 1. unfold set_task, set_state_manager.
  cbn [main.load_balancer main.state_manager main.lamport_clock main.task]. rewrite Hlb.
  unfold mbind at 1, M_bind at 1.
  destruct w as [|c w']; [done|].
  unfold try_except, mbind, M_bind, gets, typed, mret, M_ret, raise, assign, on_store, modify.
  cbn [main.state_manager set_load_balancer workers update_obj set_heap].
  cbn [workers set_pending_tasks]. rewrite Hd, Hh, Hp.
  destruct net as [|e|e]; cbn; done.
Qed.

(** X18. A turn of the dispatch loop that reaches its worker: the task at the
    head of the queue leaves the queue and ends IN_PROGRESS and assigned to
    the worker the balancer chose; the other tasks, the task table and the
    worker table are untouched, the balancer has moved on. *)
Theorem dispatch_delivered (s : StateManager)
    (clock : lamport_clock.LamportClock) (lb lb' : load_balancer.RoundRobinLoadBalancer)
    (held : option nat) (i w : string) (q : list string) (l : nat) (t : models.Task)
    (d : worker) (h : json) (p : Z) :
  pending_tasks s = i :: q -> dict_get i (tasks s) = Some l -> heap s !! l = Some t ->
  load_balancer.get_next_worker lb = (Some w, lb') -> w <> "" ->
  dict_get w (workers s) = Some d -> address_host (addr d) = Some h ->
  int_of_str (last_segment w) = Some p ->
  exists s',
    distribute_tasks Delivered (mkOrch s clock lb held) = (mkOrch s' clock lb' None, Ret tt)
    /\ heap s' !! l
       = Some (models.mkTask (models.id t) (models.client_id t) "IN_PROGRESS" (models.data t)
                 (models.lamport_ts t) (Some w) (models.result t))
    /\ (forall l', l' <> l -> heap s' !! l' = heap s !! l')
    /\ tasks s' = tasks s /\ pending_tasks s' = q /\ workers s' = workers s.
Proof.
  intros Hq Hi Ht Hlb Hw Hd Hh Hp. eexists. split.
  - exact (distribute_tasks_reaches_network Delivered s clock lb lb' held i w q l d h p
             Hq Hi Hlb Hw Hd Hh Hp).
  - cbn. rewrite list_alter_alter_eq. split; [|split; [|done]].
    + rewrite list_lookup_alter_eq, Ht. done.
    + intros l' Hne. by rewrite list_lookup_alter_ne.
Qed.

(** X19. An exception of [connect] or [sendall] other than KeyError and
    ConnectionRefusedError is not caught and leaves the loop.  The task it
    was sending stays IN_PROGRESS and out of the queue, assigned to the
    worker when the exception came from [sendall], with the assignment it
    had when it came from [connect]. *)
Theorem dispatch_uncaught_error (e : exn) (s : StateManager)
    (clock : lamport_clock.LamportClock) (lb lb' : load_balancer.RoundRobinLoadBalancer)
    (held : option nat) (i w : string) (q : list string) (l : nat) (t : models.Task)
    (d : worker) (h : json) (p : Z) :
  e <> KeyError -> e <> ConnectionRefusedError ->
  pending_tasks s = i :: q -> dict_get i (tasks s) = Some l -> heap s !! l = Some t ->
  load_balancer.get_next_worker lb = (Some w, lb') -> w <> "" ->
  dict_get w (workers s) = Some d -> address_host (addr d) = Some h ->
  int_of_str (last_segment w) = Some p ->
  exists s1 s2,
    distribute_tasks (ConnectRaises e) (mkOrch s clock lb held)
    = (mkOrch s1 clock lb' None, Exc e)
    /\ distribute_tasks (SendRaises e) (mkOrch s clock lb held)
       = (mkOrch s2 clock lb' None, Exc e)
    /\ heap s1 !! l = Some (models.set_status "IN_PROGRESS" t)
    /\ heap s2 !! l
       = Some (models.set_assigned_worker (Some w) (models.set_status "IN_PROGRESS" t))
    /\ pending_tasks s1 = q /\ pending_tasks s2 = q.
Proof.
  intros He1 He2 Hq Hi Ht Hlb Hw Hd Hh Hp.
  pose proof (distribute_tasks_reaches_network (ConnectRaises e) s clock lb lb' held
                i w q l d h p Hq Hi Hlb Hw Hd Hh Hp) as Hc.
  pose proof (distribute_tasks_reaches_network (SendRaises e) s clock lb lb' held
                i w q l d h p Hq Hi Hlb Hw Hd Hh Hp) as Hs.
  cbv beta iota zeta in Hc, Hs.
  assert (existsb (fun h => bool_decide (h = e)) [KeyError; ConnectionRefusedError] = false)
    as Hno.
  { cbn. rewrite !bool_decide_eq_false_2 by congruence. done. }
  rewrite Hno in Hc, Hs. eexists _, _. split; [exact Hc|]. split; [exact Hs|].
  cbn. rewrite list_alter_alter_eq, !list_lookup_alter_eq, Ht. done.
Qed.
End DispatchMore.

Section Refused.
Context `{Interpreter}.
Import state_manager main.

(** X20. When the connection to the chosen worker is refused, the turn ends
    normally with the task back in the table under its id, last in the
    pending queue (behind the tasks queued after it) and with no assigned
    worker. *)
Theorem dispatch_refused_requeues_last (s : StateManager)
    (clock : lamport_clock.LamportClock) (lb lb' : load_balancer.RoundRobinLoadBalancer)
    (held : option nat) (i w : string) (q : list string) (l : nat) (t : models.Task)
    (d : worker) (h : json) (p : Z) :
  pending_tasks s = i :: q -> dict_get i (tasks s) = Some l -> heap s !! l = Some t ->
  load_balancer.get_next_worker lb = (Some w, lb') -> w <> "" ->
  dict_get w (workers s) = Some d -> address_host (addr d) = Some h ->
  int_of_str (last_segment w) = Some p ->
  exists s',
    distribute_tasks (ConnectRaises ConnectionRefusedError) (mkOrch s clock lb held)
    = (mkOrch s' clock lb' None, Ret tt)
    /\ pending_tasks s' = (q ++ [models.id t])%list
    /\ dict_get (models.id t) (tasks s') = Some l
    /\ (exists t', heap s' !! l = Some t' /\ models.assigned_worker t' = None)
    /\ workers s' = workers s.
Proof.
  intros Hq Hi Ht Hlb Hw Hd Hh Hp. eexists. split.
  - exact (distribute_tasks_reaches_network (ConnectRaises ConnectionRefusedError)
             s clock lb lb' held i w q l d h p Hq Hi Hlb Hw Hd Hh Hp).
  - set (s2 := update_obj l _ (update_obj l _ _)).
    assert (heap s2 !! l
            = Some (models.set_assigned_worker None (models.set_status "IN_PROGRESS" t)))
      as Hl.
    { subst s2. cbn. by rewrite list_alter_alter_eq, list_lookup_alter_eq, Ht. }
    unfold add_task. rewrite Hl. cbn.
    split; [done|]. split; [apply dict_get_set_eq|]. split; [|done].
    rewrite list_alter_alter_eq, list_lookup_alter_eq, Ht. cbn. eauto.
Qed.
End Refused.

(** ** Messages of the workers *)
Section WorkerMessages.
Context `{Interpreter} {bytes : Type} `{JsonCodec bytes}.
Import state_manager main.

(** X21. Worker and orchestrator agree on the completion message, when the
    messages arrive whole.  Let the orchestrator send the record of a task
    ([task.__dict__], with a dict as [data]) and let [conn.recv(4096)] hand
    all of it to the worker, whose [time.sleep] returns: the worker sends the
    message [{"type": "task_complete", "task_id": id, "result": {"message":
    "Tarefa <id> concluída com sucesso"}}].  Let [recvfrom(1024)] hand all
    of that message to the orchestrator: it marks the task of that id
    COMPLETED and stores that result, leaving its other fields as they are.
    A record that arrives cut, as one longer than 4096 bytes does, is no JSON
    text: [listen_for_tasks] raises JSONDecodeError, which it does not catch;
    and when [recv] returns nothing the loop goes on without a message. *)
Theorem worker_completion_is_recorded `{!JsonRoundTrip bytes}
    (sleep : json -> option exn) (t : models.Task)
    (data : list (string * json)) (self : Orchestrator) (l : nat)
    (addr : address) (now : float) :
  models.data t = JDict data ->
  sleep (get_or "duration" (JInt 5) data) = None ->
  dict_get (models.id t) (tasks (main.state_manager self)) = Some l ->
  heap (main.state_manager self) !! l = Some t ->
  let result :=
    JDict [ ("message", JStr ("Tarefa " ++ models.id t ++ " concluída com sucesso")) ] in
  let message := worker.completion_message (JStr (models.id t)) result in
  worker.listen_for_tasks sleep (Some (json_dumps (models.to_dict t))) tt
  = (tt, Ret (Some (json_dumps message)))
  /\ (exists self1,
        listen_for_workers (json_dumps message) addr now self = (self1, Ret tt)
        /\ get_task_status (models.id t) (main.state_manager self1)
           = Some (models.to_dict
                     (models.mkTask (models.id t) (models.client_id t) "COMPLETED"
                        (models.data t) (models.lamport_ts t) (models.assigned_worker t)
                        result)))
  /\ (forall cut : bytes,
        json_loads cut = NotJson ->
        worker.listen_for_tasks sleep (Some cut) tt = (tt, Exc JSONDecodeError))
  /\ worker.listen_for_tasks sleep None tt = (tt, Ret None).
Proof.
  intros Hd Hs Hk Hl. cbv zeta. split; [|split; [|split; [|done]]].
  - unfold worker.listen_for_tasks, decode. rewrite loads_dumps.
    unfold mbind at 1, M_bind at 1. unfold mret at 1, M_ret at 1.
    unfold worker.execute_task, models.to_dict.
    cbn. rewrite Hd. cbn. rewrite Hs. done.
  - unfold listen_for_workers, decode. rewrite loads_dumps.
    unfold mbind at 1, M_bind at 1. unfold mret at 1, M_ret at 1.
    eexists. split.
    { unfold handle_worker_message, worker.completion_message, getitem, on_store, modify.
      cbn. reflexivity. }
    unfold get_task_status, update_task_status. cbn. rewrite Hk. cbn. rewrite Hk. cbn.
    rewrite list_alter_alter_eq, list_lookup_alter_eq, Hl. done.
  - intros cut Hcut. unfold worker.listen_for_tasks, decode. rewrite Hcut. done.
Qed.

Lemma pretty_N_go_no_underscore (x : N) (s : string) :
  substring_of "_" s = false -> substring_of "_" (pretty_N_go x s) = false.
Proof.
  revert s. induction (N.lt_wf_0 x) as [x _ IH]; intros s Hs.
  assert (x = 0 \/ 0 < x)%N as [->|Hpos] by lia.
  - by rewrite pretty_N_go_0.
  - rewrite pretty_N_go_step by done. apply IH; [by apply N.div_lt|].
    cbn. rewrite Hs. unfold pretty_N_char. by repeat case_match.
Qed.

Lemma pretty_Z_no_underscore (z : Z) : substring_of "_" (pretty z) = false.
Proof.
  destruct z as [|p|p]; [done|..].
  - unfold pretty, pretty_Z, pretty, pretty_positive, pretty, pretty_N.
    destruct (decide _); [done|]. by apply pretty_N_go_no_underscore.
  - unfold pretty, pretty_Z, pretty, pretty_positive, pretty, pretty_N.
    destruct (decide _); [done|].
    assert (forall s, substring_of "_" s = false -> substring_of "_" ("-" +:+ s) = false)
      as Hdash by (intros s Hs; change ("-" +:+ s) with (String "-" s); cbn; by rewrite Hs).
    by apply Hdash, pretty_N_go_no_underscore.
Qed.

Lemma substring_of_app_underscore (host p : string) :
  substring_of "_" (host ++ "_" ++ p) = true.
Proof.
  induction host as [|c host IH].
  - change ("" +:+ "_" +:+ p) with (String "_" p). by destruct p.
  - change (String c host +:+ "_" +:+ p) with (String c (host +:+ "_" +:+ p)).
    cbn [substring_of]. rewrite IH. apply orb_true_r.
Qed.

Lemma last_segment_app (host p : string) :
  substring_of "_" p = false -> last_segment (host ++ "_" ++ p) = p.
Proof.
  intros Hp. induction host as [|c host IH].
  - change ("" +:+ "_" +:+ p) with (String "_" p). cbn. by rewrite Hp.
  - change (String c host +:+ "_" +:+ p) with (String c (host +:+ "_" +:+ p)).
    cbn [last_segment]. by rewrite substring_of_app_underscore.
Qed.

(** X22. The heartbeat of the worker [f"{host}_{port}"] is accepted by the
    orchestrator, which then holds the worker under that id with the source
    address and the arrival time of the datagram; and the text the dispatch
    loop takes for the port, [worker_id.split('_')[-1]], is the decimal text
    of [port], whatever underscores [host] contains. *)
Theorem worker_heartbeat_registers (host : string) (port : Z) (addr : address)
    (now : float) (self : Orchestrator) :
  let w := worker.worker_id host port in
  handle_worker_message (worker.heartbeat_message w) addr now self
  = (set_state_manager (update_worker_heartbeat w addr now (main.state_manager self)) self,
     Ret tt)
  /\ dict_get w (workers (update_worker_heartbeat w addr now (main.state_manager self)))
     = Some (mkWorker addr now)
  /\ last_segment w = pretty port.
Proof.
  cbv zeta. split; [done|]. split.
  - unfold update_worker_heartbeat. cbn. apply dict_get_set_eq.
  - unfold worker.worker_id. apply last_segment_app, pretty_Z_no_underscore.
Qed.

End WorkerMessages.

(** ** Closed examples

    The theorems above that have hypotheses, at the sample data. *)
Section Examples.
Import state_manager main.

(** A submission, then a monitor turn and a dispatch: the task is still known. *)
Lemma known_task_stays_known_witness :
  is_Some (get_task_status "u1"
    (main.state_manager
       (@run sample.interpreter
          ([ ClientRequest (JDict sample.submit_request) "u1" ]
           ++ [ MonitorTurn 200%float; DistributeFetch; DistributeRoute Delivered ])%list
          main.init))).
Proof.
  apply (@known_task_stays_known sample.interpreter).
  vm_compute. eauto.
Defined.

(** The sample store and the store loaded from its snapshot have the same snapshot. *)
Lemma snapshot_of_loaded_snapshot_witness :
  get_state_snapshot
    (fst (fst (load_state_snapshot (get_state_snapshot sample.store)
                 (state_manager.init, lamport_clock.init))))
  = get_state_snapshot sample.store.
Proof.
  apply (snapshot_of_loaded_snapshot sample.store (state_manager.init, lamport_clock.init)).
  apply (bool_decide_unpack (NoDup _)). vm_compute. exact I.
Defined.

(** A task record without [client_id]: TypeError, and the sample store is as it was. *)
Lemma load_state_snapshot_raises_before_writing_witness :
  load_state_snapshot sample.headless_snapshot (sample.store, lamport_clock.init)
  = ((sample.store, lamport_clock.init), Exc TypeError)
  /\ (sample.store, lamport_clock.init) = (sample.store, lamport_clock.init)
  /\ TypeError <> JSONDecodeError /\ TypeError <> KeyError.
Proof.
  split; [reflexivity|].
  apply (load_state_snapshot_raises_before_writing sample.headless_snapshot).
  reflexivity.
Defined.

(** The sample store has timestamps 1 and 2: the next one after loading is 3. *)
Lemma timestamps_after_failover_witness :
  state_manager.task_items
    (fst (fst (state_manager.load_state_snapshot
                 (state_manager.get_state_snapshot sample.store)
                 (state_manager.init, lamport_clock.init))))
  = state_manager.task_items sample.store
  /\ Forall (fun t => (models.lamport_ts t
                       < fst (lamport_clock.increment
                                (snd (fst (state_manager.load_state_snapshot
                                             (state_manager.get_state_snapshot sample.store)
                                             (state_manager.init, lamport_clock.init))))))%Z)
            (map snd (state_manager.task_items
                        (fst (fst (state_manager.load_state_snapshot
                                     (state_manager.get_state_snapshot sample.store)
                                     (state_manager.init, lamport_clock.init)))))).
Proof.
  apply (timestamps_after_failover sample.store (state_manager.init, lamport_clock.init)).
  apply (bool_decide_unpack (NoDup _)). vm_compute. exact I.
Defined.

(** The submission of [user1] to a new orchestrator. *)
Lemma accepted_submission_creates_task_witness :
  "u1" = "u1"
  /\ exists kvs user,
       JDict sample.submit_request = JDict kvs
       /\ user ∈ dict_keys config.USERS
       /\ dict_get "token" kvs = Some (JStr (@expected_token sample.interpreter user))
       /\ get_task_status "u1"
            (main.state_manager
               (fst (@handle_client sample.interpreter (JDict sample.submit_request)
                       "u1" main.init)))
          = Some (models.to_dict
                    (models.new_Task "u1" user (get_or "data" (JDict []) kvs)
                       (lamport_clock.time (main.lamport_clock main.init) + 1)))
       /\ pending_tasks
            (main.state_manager
               (fst (@handle_client sample.interpreter (JDict sample.submit_request)
                       "u1" main.init)))
          = (pending_tasks (main.state_manager main.init) ++ [ "u1" ])%list
       /\ lamport_clock.time
            (main.lamport_clock
               (fst (@handle_client sample.interpreter (JDict sample.submit_request)
                       "u1" main.init)))
          = (lamport_clock.time (main.lamport_clock main.init) + 1)%Z.
Proof.
  apply (@accepted_submission_creates_task sample.interpreter
           (JDict sample.submit_request) "u1" "u1" main.init).
  vm_compute. reflexivity.
Defined.

(** [user2] asks for the task [user1] has just submitted; both responses are
    written. *)
Lemma submitted_task_status_witness :
  @handle_client_conn sample.interpreter Written (JDict (sample.status_request "u1")) "u2"
    (fst (@handle_client_conn sample.interpreter Written (JDict sample.submit_request)
            "u1" main.init))
  = (fst (@handle_client_conn sample.interpreter Written (JDict sample.submit_request)
            "u1" main.init),
     Ret (Some (JDict [ ("id", JStr "u1");
                        ("client_id", JStr "user1");
                        ("status", JStr "PENDING");
                        ("data", JDict [ ("description", JStr "demo"); ("duration", JInt 1) ]);
                        ("lamport_ts", JInt 1);
                        ("assigned_worker", JNull);
                        ("result", JNull) ]))).
Proof.
  apply (@submitted_task_status sample.interpreter Written Written sample.submit_request
           (sample.status_request "u1")
           (JStr (@expected_token sample.interpreter "user1"))
           (JStr (@expected_token sample.interpreter "user2")) "u1" "u2" main.init);
    reflexivity.
Defined.

(** The login of [user1]. *)
Lemma login_token_is_valid_witness :
  @handle_client sample.interpreter (JDict sample.login_request) "u0" main.init
  = (main.init,
     Ret (Some (JDict [ ("token", JStr (@expected_token sample.interpreter "user1")) ])))
  /\ @verify_token sample.interpreter (JStr (@expected_token sample.interpreter "user1")) = true
  /\ @get_user_from_token sample.interpreter
       (JStr (@expected_token sample.interpreter "user1")) ∈ dict_keys config.USERS
  /\ @expected_token sample.interpreter
       (@get_user_from_token sample.interpreter
          (JStr (@expected_token sample.interpreter "user1")))
     = @expected_token sample.interpreter "user1".
Proof.
  apply (@login_token_is_valid sample.interpreter sample.login_request
           "user1" "pass1" "u0" main.init); reflexivity.
Defined.

(** The task "t1" of the sample store reaches the worker of the store. *)
Lemma dispatch_delivered_witness :
  exists s',
    @distribute_tasks sample.interpreter Delivered sample.orchestrator
    = (mkOrch s' lamport_clock.init (load_balancer.mkLB [ "localhost_60001" ] 0) None, Ret tt)
    /\ heap s' !! 0
       = Some (models.mkTask "t1" "user1" "IN_PROGRESS" (JDict [ ("duration", JInt 1) ]) 1
                 (Some "localhost_60001") JNull)
    /\ (forall l', l' <> 0 -> heap s' !! l' = heap sample.store !! l')
    /\ tasks s' = tasks sample.store /\ pending_tasks s' = []
    /\ workers s' = workers sample.store.
Proof.
  apply (@dispatch_delivered sample.interpreter sample.store lamport_clock.init
           (load_balancer.mkLB [ "localhost_60001" ] 0)
           (load_balancer.mkLB [ "localhost_60001" ] 0) None
           "t1" "localhost_60001" [] 0 sample.t1
           (mkWorker (SockAddr "127.0.0.1" 40000) 100%float) (JStr "127.0.0.1") 60001);
    first [ reflexivity | discriminate ].
Defined.

(** The same turn with an OSError from the network. *)
Lemma dispatch_uncaught_error_witness :
  exists s1 s2,
    @distribute_tasks sample.interpreter (ConnectRaises OSError) sample.orchestrator
    = (mkOrch s1 lamport_clock.init (load_balancer.mkLB [ "localhost_60001" ] 0) None,
       Exc OSError)
    /\ @distribute_tasks sample.interpreter (SendRaises OSError) sample.orchestrator
       = (mkOrch s2 lamport_clock.init (load_balancer.mkLB [ "localhost_60001" ] 0) None,
          Exc OSError)
    /\ heap s1 !! 0 = Some (models.set_status "IN_PROGRESS" sample.t1)
    /\ heap s2 !! 0
       = Some (models.set_assigned_worker (Some "localhost_60001")
                 (models.set_status "IN_PROGRESS" sample.t1))
    /\ pending_tasks s1 = [] /\ pending_tasks s2 = [].
Proof.
  apply (@dispatch_uncaught_error sample.interpreter OSError sample.store lamport_clock.init
           (load_balancer.mkLB [ "localhost_60001" ] 0)
           (load_balancer.mkLB [ "localhost_60001" ] 0) None
           "t1" "localhost_60001" [] 0 sample.t1
           (mkWorker (SockAddr "127.0.0.1" 40000) 100%float) (JStr "127.0.0.1") 60001);
    first [ reflexivity | discriminate ].
Defined.

(** The same turn with the connection refused. *)
Lemma dispatch_refused_requeues_last_witness :
  exists s',
    @main.distribute_tasks sample.interpreter (main.ConnectRaises ConnectionRefusedError)
      sample.orchestrator
    = (main.mkOrch s' lamport_clock.init (load_balancer.mkLB [ "localhost_60001" ] 0) None,
       Ret tt)
    /\ state_manager.pending_tasks s' = ([] ++ [ "t1" ])%list
    /\ dict_get "t1" (state_manager.tasks s') = Some 0
    /\ (exists t', state_manager.heap s' !! 0 = Some t' /\ models.assigned_worker t' = None)
    /\ state_manager.workers s' = state_manager.workers sample.store.
Proof.
  apply (@dispatch_refused_requeues_last sample.interpreter sample.store lamport_clock.init
           (load_balancer.mkLB [ "localhost_60001" ] 0)
           (load_balancer.mkLB [ "localhost_60001" ] 0) None
           "t1" "localhost_60001" [] 0 sample.t1
           (state_manager.mkWorker (state_manager.SockAddr "127.0.0.1" 40000) 100%float)
           (JStr "127.0.0.1") 60001);
    first [ reflexivity | discriminate ].
Defined.

(** The worker completes "t1" of the sample store. *)
Lemma worker_completion_is_recorded_witness :
  @worker.listen_for_tasks sample.interpreter unit decoded denoted_bytes (fun _ => None)
    (Some (json_dumps (models.to_dict sample.t1))) tt
  = (tt, Ret (Some (json_dumps
                      (worker.completion_message (JStr "t1")
                         (JDict [ ("message", JStr "Tarefa t1 concluída com sucesso") ])))))
  /\ (exists self1,
        listen_for_workers
          (json_dumps
             (worker.completion_message (JStr "t1")
                (JDict [ ("message", JStr "Tarefa t1 concluída com sucesso") ])))
          (SockAddr "127.0.0.1" 40000) 150%float sample.orchestrator
        = (self1, Ret tt)
        /\ get_task_status "t1" (main.state_manager self1)
           = Some (models.to_dict
                     (models.mkTask "t1" "user1" "COMPLETED" (JDict [ ("duration", JInt 1) ]) 1
                        None (JDict [ ("message", JStr "Tarefa t1 concluída com sucesso") ]))))
  /\ (forall cut : decoded,
        json_loads cut = NotJson ->
        @worker.listen_for_tasks sample.interpreter unit decoded denoted_bytes (fun _ => None)
          (Some cut) tt
        = (tt, Exc JSONDecodeError))
  /\ @worker.listen_for_tasks sample.interpreter unit decoded denoted_bytes (fun _ => None)
       None tt
     = (tt, Ret None).
Proof.
  apply (@worker_completion_is_recorded sample.interpreter decoded denoted_bytes
           denoted_bytes_round_trip (fun _ => None) sample.t1
           [ ("duration", JInt 1) ] sample.orchestrator 0
           (SockAddr "127.0.0.1" 40000) 150%float); reflexivity.
Defined.

End Examples.
